(** * OpenTune music import pipeline: a shallow embedding and its properties

    The development follows the TypeScript sources of [scripts/import-music]:
    the asset migrator ([storageUploader.ts]), the orchestrator with its
    deduplicator and batch writer ([index.ts]), the rotating provider adapters
    ([sources/ccmixter.ts], [sources/musicbrainz.ts], [sources/discogs.ts]) and
    the gs:// to HTTPS migration utility.

    Asynchronous functions become computations in a small monad that threads
    the backend (Firestore collections and the storage bucket), records the
    externally visible events in order, and carries JavaScript exceptions as
    values.  Whatever the outside world decides (HTTP replies, SDK failures)
    is read from an explicit oracle argument. *)

From stdpp Require Import gmap strings list pretty sorting.

Open Scope string_scope.
Open Scope list_scope.
Open Scope nat_scope.

(** ** JavaScript values used by the scripts *)

(** A promise settles with a value or rejects with an error message. *)
Inductive result (A : Type) : Type :=
  | Ok (value : A)
  | Throw (message : string).
Arguments Ok {A} value.
Arguments Throw {A} message.

(** Truthiness of a string: only the empty string is falsy. *)
Definition truthy (s : string) : bool :=
  match s with EmptyString => false | String _ _ => true end.

(** [a || b] on strings. *)
Definition orElse (a b : string) : string := if truthy a then a else b.

(** [s.startsWith(p)] *)
Definition startsWith (s p : string) : bool := String.prefix p s.

(** [l.slice(i, j)] for [0 <= i <= j]. *)
Definition slice {A} (i j : nat) (l : list A) : list A := take (j - i) (drop i l).

Definition Buffer : Type := list Byte.byte.

(** ** types.ts

    [types.ts] is not part of the checked-in sources; the fields are those of
    the object literal every adapter hands to [sanitizeTrack], and [extra]
    stands for any further own property a record carries (object spread copies
    them all). *)
Record TrackRecord : Type := mkTrack {
  id : string;
  title : string;
  artist : string;
  artistId : string;
  album : string;
  albumId : string;
  duration : Z;
  artwork : string;
  audioUrl : string;
  genre : string;
  license : string;
  extra : gmap string string;
}.

Record SourceResult : Type := mkSourceResult {
  sourceName : string;
  sr_tracks : list TrackRecord;
  sr_errors : list string;
}.

Record ImportStats : Type := mkStats {
  source : string;
  fetched : nat;
  newTracks : nat;
  skippedDuplicates : nat;
  errors : nat;
}.

(** ** The backend *)

(** Per-provider progress document ([CCMixterState], [MBState],
    [DiscogsState]: the three interfaces have the same shape, a rotation index,
    an offset per partition and a timestamp). *)
Record ProviderState : Type := mkState {
  index : nat;
  offsets : gmap string nat;
  lastRun : string;
}.

(** An object of the storage bucket. *)
Record StoredFile : Type := mkFile {
  content : Buffer;
  contentType : string;
  downloadToken : option string;
}.

Record Backend : Type := mkBackend {
  tracks : gmap string TrackRecord;        (* collection 'tracks', keyed by document id *)
  importState : gmap string ProviderState; (* documents 'import-state/<provider>' *)
  files : gmap string StoredFile;          (* bucket objects, keyed by storage path *)
}.

Definition setTracks (f : gmap string TrackRecord → gmap string TrackRecord) (σ : Backend) : Backend :=
  mkBackend (f (tracks σ)) (importState σ) (files σ).
Definition setImportState (f : gmap string ProviderState → gmap string ProviderState) (σ : Backend) : Backend :=
  mkBackend (tracks σ) (f (importState σ)) (files σ).
Definition setFiles (f : gmap string StoredFile → gmap string StoredFile) (σ : Backend) : Backend :=
  mkBackend (tracks σ) (importState σ) (f (files σ)).

(** Client handles; [null] is [None]. *)
Inductive Firestore : Type := FirestoreClient.
Record Bucket : Type := mkBucket { bucket_name : string }.

(** ** Events *)
Inductive Event : Type :=
  | EvLog (tag msg : string)                        (* log(tag, msg) *)
  | EvSleep (ms : nat)                              (* await sleep(ms) *)
  | EvRequest (provider partition : string) (offset : nat) (* adapter page request *)
  | EvDownload (url : string) (attempt : nat)       (* fetch(url) of an asset *)
  | EvSave (path ctype : string) (attempt : nat)    (* bucket.file(path).save(...) *)
  | EvGetAll (ids : list string)                    (* db.getAll(...refs) *)
  | EvCommit (docs : list TrackRecord)              (* batch.commit() *)
  | EvStateGet (doc : string)                       (* db.doc(doc).get() *)
  | EvStateSet (doc : string) (st : ProviderState)  (* db.doc(doc).set(st) *)
  | EvFileExists (path : string)
  | EvGetMetadata (path : string)
  | EvSetMetadata (path token : string)
  | EvUpdate (docId : string) (newArtwork newAudioUrl : option string).
      (* doc.ref.update(updates), with the fields [updates] holds *)

Definition isLog (e : Event) : bool :=
  match e with EvLog _ _ => true | _ => false end.

(** ** The monad of asynchronous computations *)
Definition M (A : Type) : Type := Backend → result A * Backend * list Event.

#[global] Instance M_ret : MRet M := λ A x σ, (Ok x, σ, []).
#[global] Instance M_bind : MBind M := λ A B f m σ,
  match m σ with
  | (Ok x, σ1, t1) => let '(r, σ2, t2) := f x σ1 in (r, σ2, t1 ++ t2)
  | (Throw e, σ1, t1) => (Throw e, σ1, t1)
  end.

Definition throw {A} (e : string) : M A := λ σ, (Throw e, σ, []).
Definition emit (e : Event) : M unit := λ σ, (Ok tt, σ, [e]).
Definition log (tag msg : string) : M unit := emit (EvLog tag msg).
Definition sleep (ms : nat) : M unit := emit (EvSleep ms).
Definition getBackend : M Backend := λ σ, (Ok σ, σ, []).
Definition modifyBackend (f : Backend → Backend) : M unit := λ σ, (Ok tt, f σ, []).
Definition liftResult {A} (r : result A) : M A := λ σ, (r, σ, []).

(** [try { m } catch (err) { h err }] *)
Definition tryCatch {A} (m : M A) (h : string → M A) : M A := λ σ,
  match m σ with
  | (Ok x, σ1, t1) => (Ok x, σ1, t1)
  | (Throw e, σ1, t1) => let '(r, σ2, t2) := h e σ1 in (r, σ2, t1 ++ t2)
  end.

(** [Promise.allSettled(tasks)]: every task runs to its end, whatever the
    others do, and the promise never rejects.  The events of the tasks are
    recorded task by task. *)
Fixpoint settleAll {A} (tasks : list (M A)) (σ : Backend)
    : list (result A) * Backend * list Event :=
  match tasks with
  | [] => ([], σ, [])
  | m :: rest =>
      let '(r, σ1, t1) := m σ in
      let '(rs, σ2, t2) := settleAll rest σ1 in
      (r :: rs, σ2, t1 ++ t2)
  end.

Definition allSettled {A} (tasks : list (M A)) : M (list (result A)) := λ σ,
  let '(rs, σ', t) := settleAll tasks σ in (Ok rs, σ', t).

(** The values of a list of settled promises, or the first rejection. *)
Fixpoint firstRejection {A} (rs : list (result A)) : result (list A) :=
  match rs with
  | [] => Ok []
  | Throw e :: _ => Throw e
  | Ok x :: rest =>
      match firstRejection rest with Ok l => Ok (x :: l) | Throw e => Throw e end
  end.

(** [Promise.all(tasks)]: all tasks run; the result is the list of their
    values, or the first rejection. *)
Definition promiseAll {A} (tasks : list (M A)) : M (list A) :=
  rs ← allSettled tasks; liftResult (firstRejection rs).

(** [for (let i = 0; i < l.length; i += size) { chunk = l.slice(i, i + size) ... }]:
    the chunks the loop visits.  [fuel] bounds the number of iterations; the
    loop itself stops on [i < l.length]. *)
Fixpoint chunksFrom {A} (size : nat) (l : list A) (fuel i : nat) : list (list A) :=
  match fuel with
  | 0 => []
  | S fuel' =>
      if bool_decide (i < length l)
      then slice i (i + size) l :: chunksFrom size l fuel' (i + size)
      else []
  end.

Definition chunks {A} (size : nat) (l : list A) : list (list A) :=
  chunksFrom size l (length l) 0.

(** [for (const x of l) body(x)], sequentially. *)
Fixpoint forEach {A} (l : list A) (body : A → M unit) : M unit :=
  match l with
  | [] => mret tt
  | x :: rest => body x;; forEach rest body
  end.

(** * storageUploader.ts *)
Module StorageUploader.

Definition CONCURRENCY : nat := 5.
Definition MAX_RETRIES : nat := 2.
Definition RETRY_DELAY_MS : nat := 2000.

(** What the outside world answers to the uploader.  The extra argument is
    the number of the attempt that asks, so that a later attempt may be
    answered differently from an earlier one. *)
Record HttpResponse : Type := mkResponse {
  resp_ok : bool;
  resp_status : nat;
  resp_arrayBuffer : result Buffer;
}.

Record World : Type := mkWorld {
  fetchAsset : string → nat → result HttpResponse; (* fetch(url, ...) *)
  saveError : string → nat → option string;        (* file.save(...) rejecting *)
}.

(** [s.indexOf(sub)], [None] for -1. *)
Definition indexOf (s sub : string) : option nat := String.index 0 sub s.

Definition getSource (trackId : string) : string :=
  match indexOf trackId "-" with
  | Some dash => if bool_decide (0 < dash) then String.substring 0 dash trackId else "unknown"
  | None => "unknown"
  end.

Section WithWorld.
Variable w : World.

Definition downloadFile (url : string) (attempt : nat) : M Buffer :=
  emit (EvDownload url attempt);;
  response ← liftResult (fetchAsset w url attempt);
  if negb (resp_ok response)
  then throw ("HTTP " +:+ pretty (resp_status response) +:+ " downloading " +:+ url)
  else liftResult (resp_arrayBuffer response).

Definition uploadToStorage (bucket : Bucket) (storagePath : string)
    (data : Buffer) (contentType : string) (attempt : nat) : M string :=
  emit (EvSave storagePath contentType attempt);;
  match saveError w storagePath attempt with
  | Some e => throw e
  | None =>
      modifyBackend (setFiles (insert storagePath (mkFile data contentType None)));;
      mret ("gs://" +:+ bucket_name bucket +:+ "/" +:+ storagePath)
  end.

(** The body of [for (let attempt = 0; attempt <= MAX_RETRIES; attempt++)],
    entered with [remaining = MAX_RETRIES + 1 - attempt] values of
    [attempt] still to run; with none left the loop is over and line 73
    returns [sourceUrl]. *)
Fixpoint downloadAndUploadFrom (bucket : Bucket) (sourceUrl storagePath contentType : string)
    (remaining attempt : nat) : M string :=
  match remaining with
  | 0 => mret sourceUrl
  | S remaining' =>
      tryCatch
        (data ← downloadFile sourceUrl attempt;
         uploadToStorage bucket storagePath data contentType attempt)
        (λ err,
           if bool_decide (attempt < MAX_RETRIES)
           then
             sleep (RETRY_DELAY_MS * (attempt + 1));;
             downloadAndUploadFrom bucket sourceUrl storagePath contentType
               remaining' (attempt + 1)
           else
             log "storage"
               ("Failed after " +:+ pretty (MAX_RETRIES + 1) +:+ " attempts: "
                  +:+ storagePath +:+ " - " +:+ err);;
             mret sourceUrl)
  end.

Definition downloadAndUpload (bucket : Bucket)
    (sourceUrl storagePath contentType : string) : M string :=
  downloadAndUploadFrom bucket sourceUrl storagePath contentType (MAX_RETRIES + 1) 0.

Definition audioPath (track : TrackRecord) : string :=
  "imports/" +:+ getSource (id track) +:+ "/" +:+ id track +:+ ".mp3".
Definition artworkPath (track : TrackRecord) : string :=
  "imports/" +:+ getSource (id track) +:+ "/" +:+ id track +:+ "_cover.jpg".

(** [{ ...track, audioUrl, artwork }] *)
Definition withAssets (track : TrackRecord) (audioUrl' artwork' : string) : TrackRecord :=
  mkTrack (id track) (title track) (artist track) (artistId track) (album track)
    (albumId track) (duration track) artwork' audioUrl' (genre track) (license track)
    (extra track).

Definition processTrack (bucket : Bucket) (track : TrackRecord) : M TrackRecord :=
  audioUrl' ←
    (if startsWith (audioUrl track) "http"
     then downloadAndUpload bucket (audioUrl track) (audioPath track) "audio/mpeg"
     else mret (audioUrl track));
  artwork' ←
    (if startsWith (artwork track) "http"
     then downloadAndUpload bucket (artwork track) (artworkPath track) "image/jpeg"
     else mret (artwork track));
  mret (withAssets track audioUrl' artwork').

(** The loop variables of [uploadAllTrackAssets]. *)
Record Progress : Type := mkProgress {
  results : list TrackRecord;
  completed : nat;
  storedCount : nat;
}.

(** [for (const track of processed) { results.push(track); completed++; ... }] *)
Definition collect (p : Progress) (processed : list TrackRecord) : Progress :=
  foldl (λ p track,
           mkProgress (results p ++ [track]) (completed p + 1)
             (if startsWith (audioUrl track) "gs://" then storedCount p + 1 else storedCount p))
        p processed.

(** The body of [for (let i = 0; i < tracks.length; i += CONCURRENCY)], over
    the windows still to come.  The records of a window are processed in
    parallel; the world answers by request, so the interleaving changes no
    result, and the events are recorded record by record. *)
Fixpoint uploadWindows (bucket : Bucket) (total : nat)
    (windows : list (list TrackRecord)) (p : Progress) : M Progress :=
  match windows with
  | [] => mret p
  | chunk :: rest =>
      processed ← promiseAll (map (processTrack bucket) chunk);
      let p' := collect p processed in
      (if bool_decide (completed p' `mod` 20 = 0) || bool_decide (completed p' = total)
       then log "storage"
              ("Progress: " +:+ pretty (completed p') +:+ "/" +:+ pretty total +:+ " ("
                 +:+ pretty (storedCount p') +:+ " stored in Storage)")
       else mret tt);;
      uploadWindows bucket total rest p'
  end.

Definition uploadAllTrackAssets (bucket : Bucket) (tracks : list TrackRecord)
    : M (list TrackRecord) :=
  if bool_decide (length tracks = 0) then mret tracks
  else
    log "storage"
      ("Starting upload of " +:+ pretty (length tracks) +:+ " tracks (concurrency: "
         +:+ pretty CONCURRENCY +:+ ")...");;
    p ← uploadWindows bucket (length tracks) (chunks CONCURRENCY tracks)
          (mkProgress [] 0 0);
    log "storage"
      ("Upload complete: " +:+ pretty (storedCount p) +:+ "/" +:+ pretty (length tracks)
         +:+ " tracks stored in Firebase Storage");;
    mret (results p).

(** Every attempt on this reference fails: the download rejects, answers
    with a non-ok status, fails to deliver its body, or the upload
    rejects. *)
Definition attemptFails (sourceUrl storagePath : string) (attempt : nat) : bool :=
  match fetchAsset w sourceUrl attempt with
  | Throw _ => true
  | Ok response =>
      if negb (resp_ok response) then true
      else match resp_arrayBuffer response with
           | Throw _ => true
           | Ok _ => bool_decide (is_Some (saveError w storagePath attempt))
           end
  end.

End WithWorld.
End StorageUploader.

(** * firebaseAdmin.ts and index.ts: the orchestrator *)
Module Index.

Definition STORAGE_BUCKET : string := "opentune-sbs.firebasestorage.app".
Definition BATCH_SIZE : nat := 500.
Definition CHUNK : nat := 100.

(** A double quote, for the log lines that print one. *)
Definition dq : string := String (Ascii.ascii_of_nat 34) EmptyString.

Record World : Type := mkWorld {
  uploader : StorageUploader.World;
  initError : option string;        (* initFirebaseAdmin() throwing (no usable credentials) *)
  getAllError : nat → option string; (* db.getAll rejecting on the k-th chunk *)
  commitError : nat → option string; (* batch.commit() rejecting on the k-th chunk *)
  elapsed : string;                 (* ((Date.now() - startTime) / 1000).toFixed(1) *)
}.

Record FirebaseServices : Type := mkServices { db : Firestore; bucket : Bucket }.

(** A document snapshot as [batchCheckExisting] reads it. *)
Record Snapshot : Type := mkSnapshot { snap_id : string; snap_exists : bool }.

(** [for (const snap of snapshots) if (snap.exists) existing.add(snap.id)] *)
Definition addExisting (existing : gset string) (snapshots : list Snapshot) : gset string :=
  foldl (λ ex snap, if snap_exists snap then {[snap_id snap]} ∪ ex else ex)
        existing snapshots.

(** [newTracks = allTracks.filter(t => !existingIds.has(t.id))] *)
Definition filterNew (existingIds : gset string) (allTracks : list TrackRecord)
    : list TrackRecord :=
  filter (λ t, id t ∉ existingIds) allTracks.

Definition sourcePrefixMap : gmap string string := {[ "jamendo" := "jamendo-" ]}.

(** [sourcePrefixMap[stat.source] || stat.source] *)
Definition prefixOf (src : string) : string :=
  orElse (default EmptyString (sourcePrefixMap !! src)) src.

(** The body of the loop that updates the per-source statistics. *)
Definition updateStat (allTracks newTracks : list TrackRecord) (stat : ImportStats)
    : ImportStats :=
  let prefix := prefixOf (source stat) in
  let sourceTracks := filter (λ t, startsWith (id t) prefix = true) allTracks in
  let sourceNew := filter (λ t, startsWith (id t) prefix = true) newTracks in
  mkStats (source stat) (fetched stat) (length sourceNew)
    (length sourceTracks - length sourceNew) (errors stat).

Definition summaryLine (stat : ImportStats) : string :=
  "  " +:+ source stat +:+ ": fetched=" +:+ pretty (fetched stat)
    +:+ " new=" +:+ pretty (newTracks stat)
    +:+ " dupes=" +:+ pretty (skippedDuplicates stat)
    +:+ " errors=" +:+ pretty (errors stat).

Section WithWorld.
(** [validateTrack] comes from [utils.ts], which is not among the sources. *)
Variable validateTrack : TrackRecord → bool.
Variable w : World.

Definition initFirebaseAdmin : M FirebaseServices :=
  match initError w with
  | Some e => throw e
  | None => mret (mkServices FirestoreClient (mkBucket STORAGE_BUCKET))
  end.

(** [await db.getAll(...refs)] for the refs of one chunk of ids. *)
Definition getAll (k : nat) (chunk : list string) : M (list Snapshot) :=
  emit (EvGetAll chunk);;
  match getAllError w k with
  | Some e => throw e
  | None =>
      σ ← getBackend;
      mret (map (λ i, mkSnapshot i (bool_decide (is_Some (tracks σ !! i)))) chunk)
  end.

Fixpoint checkChunks (cs : list (list string)) (k : nat) (existing : gset string)
    : M (gset string) :=
  match cs with
  | [] => mret existing
  | chunk :: rest =>
      snapshots ← getAll k chunk;
      checkChunks rest (k + 1) (addExisting existing snapshots)
  end.

Definition batchCheckExisting (_ : Firestore) (ids : list string) : M (gset string) :=
  checkChunks (chunks CHUNK ids) 0 ∅.

(** One [batch.commit()]: the documents of the chunk are set together, each
    under its id.  The [addedAt] field, stamped by the server, is not part of
    the model. *)
Definition commit (k : nat) (chunk : list TrackRecord) : M unit :=
  emit (EvCommit chunk);;
  match commitError w k with
  | Some e => throw e
  | None => modifyBackend (setTracks (λ m, foldl (λ m t, <[id t := t]> m) m chunk))
  end.

Fixpoint writeChunks (cs : list (list TrackRecord)) (k total : nat) : M unit :=
  match cs with
  | [] => mret tt
  | chunk :: rest =>
      commit k chunk;;
      log "main"
        ("Wrote batch of " +:+ pretty (length chunk) +:+ " tracks ("
           +:+ pretty (k * BATCH_SIZE + length chunk) +:+ "/" +:+ pretty total +:+ ")");;
      writeChunks rest (k + 1) total
  end.

Definition batchWriteTracks (db : option Firestore) (tracks : list TrackRecord) : M unit :=
  match db with
  | None =>
      if bool_decide (0 < length tracks)
      then throw "TypeError: Cannot read properties of null (reading 'batch')"
      else mret tt
  | Some _ => writeChunks (chunks BATCH_SIZE tracks) 0 (length tracks)
  end.

(** The loop over the settled adapter results. *)
Fixpoint collectResults (results : list (result SourceResult))
    (allTracks : list TrackRecord) (allStats : list ImportStats)
    : M (list TrackRecord * list ImportStats) :=
  match results with
  | [] => mret (allTracks, allStats)
  | Ok sr :: rest =>
      let valid := filter (λ t, validateTrack t = true) (sr_tracks sr) in
      (if bool_decide (0 < length (sr_errors sr))
       then log (sourceName sr) ("Warnings: " +:+ String.concat "; " (sr_errors sr))
       else mret tt);;
      collectResults rest (allTracks ++ valid)
        (allStats ++ [mkStats (sourceName sr) (length (sr_tracks sr)) 0 0
                        (length (sr_errors sr))])
  | Throw reason :: rest =>
      log "main" ("Source failed: " +:+ reason);;
      collectResults rest allTracks (allStats ++ [mkStats "unknown" 0 0 0 1])
  end.

(** The upload stage: the tracks handed on to the write stage. *)
Definition uploadStage (dryRun : bool) (bucket : option Bucket)
    (newTracks : list TrackRecord) : M (list TrackRecord) :=
  if dryRun then
    log "main" ("[DRY RUN] Would upload " +:+ pretty (length newTracks)
                  +:+ " tracks to Storage");;
    forEach (slice 0 5 newTracks)
      (λ t, log "main" ("  - " +:+ id t +:+ ": " +:+ dq +:+ title t +:+ dq +:+ " by "
                          +:+ artist t +:+ " [" +:+ genre t +:+ "]"));;
    mret newTracks
  else
    if bool_decide (0 < length newTracks)
    then match bucket with
         | Some b => StorageUploader.uploadAllTrackAssets (uploader w) b newTracks
         | None => mret newTracks
         end
    else mret newTracks.

(** The write stage. *)
Definition writeStage (dryRun : bool) (db : option Firestore)
    (tracksToWrite : list TrackRecord) : M unit :=
  if dryRun then
    log "main" ("[DRY RUN] Would write " +:+ pretty (length tracksToWrite)
                  +:+ " tracks to Firestore")
  else if bool_decide (0 < length tracksToWrite)
  then batchWriteTracks db tracksToWrite
  else mret tt.

(** [main], for the value of the environment variable [DRY_RUN] and the
    adapters the orchestrator launches (the checked-in [index.ts] lists
    [fetchJamendo], whose file is not among the sources). *)
Definition main (DRY_RUN : option string)
    (sources : list (option Firestore → M SourceResult)) : M unit :=
  let dryRun := bool_decide (DRY_RUN = Some "1") in
  log "main" "=== OpenTune Music Import Starting ===";;
  services ← (if dryRun then mret None else s ← initFirebaseAdmin; mret (Some s));
  let db := db <$> services in
  let bucket := bucket <$> services in
  log "main" "Firebase Admin initialized (Firestore + Storage)";;
  results ← allSettled (map (λ fetchSource, fetchSource db) sources);
  '(allTracks, allStats) ← collectResults results [] [];
  log "main" ("Total valid tracks fetched: " +:+ pretty (length allTracks));;
  existingIds ←
    match db with
    | Some d => batchCheckExisting d (map id allTracks)
    | None => mret (∅ : gset string)
    end;
  let newTracks := filterNew existingIds allTracks in
  log "main" ("After dedup: " +:+ pretty (length newTracks) +:+ " new, "
                +:+ pretty (length allTracks - length newTracks) +:+ " duplicates");;
  let allStats := map (updateStat allTracks newTracks) allStats in
  tracksToWrite ← uploadStage dryRun bucket newTracks;
  writeStage dryRun db tracksToWrite;;
  log "main" "=== Import Summary ===";;
  forEach allStats (λ stat, log "main" (summaryLine stat));;
  log "main" ("Total new tracks written: " +:+ pretty (length newTracks));;
  log "main" ("Completed in " +:+ elapsed w +:+ "s").

End WithWorld.
End Index.

(** * sources/*.ts: the rotating provider adapters

    [fetchCCMixter], [fetchMusicBrainz] and [fetchDiscogs] are the same
    function up to their constants, the shape of the raw records and the text
    of their messages; [Rotating] is that function with those as variables. *)
Module Adapter.

(** What the provider answers to a page request. *)
Inductive Reply (Raw : Type) : Type :=
  | NetworkError (message : string)       (* fetch rejects *)
  | Response (ok : bool) (status : nat)
      (json : result (option (list Raw))).
      (* response.json(): it may reject; the list is the field holding the
         records, [None] when the field is absent *)
Arguments NetworkError {Raw} message.
Arguments Response {Raw} ok status json.

Record Env (Raw : Type) : Type := mkEnv {
  request : string → nat → Reply Raw; (* by partition and offset (or page) asked *)
  stateGetError : option string;       (* db.doc(STATE_DOC).get() rejecting *)
  stateSetError : option string;       (* db.doc(STATE_DOC).set(...) rejecting *)
  now : string;                        (* new Date().toISOString() *)
}.
Arguments mkEnv {Raw} request stateGetError stateSetError now.
Arguments request {Raw} e partition offset.
Arguments stateGetError {Raw} e.
Arguments stateSetError {Raw} e.
Arguments now {Raw} e.

(** The text of the messages that differ between the adapters. *)
Record Messages : Type := mkMessages {
  msgRequest : nat → string → nat → string; (* by index, partition and stored offset *)
  msgHttp : nat → string → string;          (* by status and partition *)
  msgThrown : string → string → string;     (* by partition and error message *)
  msgSaved : nat → string;                  (* by new index *)
}.

(** The variables of the adapter that the partition loop changes. *)
Record Acc : Type := mkAcc {
  acc_tracks : list TrackRecord;
  acc_errors : list string;
  acc_seen : gset string;
  acc_offsets : gmap string nat;
}.

Definition pushError (acc : Acc) (e : string) : Acc :=
  mkAcc (acc_tracks acc) (acc_errors acc ++ [e]) (acc_seen acc) (acc_offsets acc).
Definition setOffset (acc : Acc) (partition : string) (offset : nat) : Acc :=
  mkAcc (acc_tracks acc) (acc_errors acc) (acc_seen acc)
    (<[partition := offset]> (acc_offsets acc)).

Section Rotating.
Context {Raw : Type}.
Variables (SOURCE STATE_DOC : string) (PARTITIONS : list string).
Variables (perRun PAGE_SIZE delay : nat).
(** What is sent for a stored offset: the offset, or a page number. *)
Variable asked : nat → nat.
(** One raw record: [None] when a [continue] skips it before its id is
    built; otherwise its id and, once the id has proved new, the record
    handed to [sanitizeTrack], whose construction may throw. *)
Variable convert : string → Raw → option (string * result TrackRecord).
(** [sanitizeTrack] comes from [utils.ts], which is not among the sources. *)
Variable sanitizeTrack : TrackRecord → TrackRecord.
Variable msg : Messages.
Variable env : Env Raw.

(** [for (const record of records) { ... }]: the variables after the loop,
    and the error that ended it early, if any. *)
Fixpoint addRecords (partition : string) (records : list Raw) (acc : Acc)
    : Acc * option string :=
  match records with
  | [] => (acc, None)
  | record :: rest =>
      match convert partition record with
      | None => addRecords partition rest acc
      | Some (rid, built) =>
          if bool_decide (rid ∈ acc_seen acc) then addRecords partition rest acc
          else
            let seen' := {[rid]} ∪ acc_seen acc in
            match built with
            | Throw e =>
                (mkAcc (acc_tracks acc) (acc_errors acc) seen' (acc_offsets acc), Some e)
            | Ok track =>
                addRecords partition rest
                  (mkAcc (acc_tracks acc ++ [sanitizeTrack track]) (acc_errors acc)
                     seen' (acc_offsets acc))
            end
      end
  end.

(** One turn of the partition loop, for loop counter [ct]. *)
Definition fetchPartition (state : ProviderState) (acc : Acc) (ct : nat) : M Acc :=
  let typeIdx := (index state + ct) `mod` length PARTITIONS in
  let partition := PARTITIONS !!! typeIdx in
  let offset := default 0 (acc_offsets acc !! partition) in
  log SOURCE (msgRequest msg typeIdx partition offset);;
  emit (EvRequest SOURCE partition (asked offset));;
  match request env partition (asked offset) with
  | NetworkError e => mret (pushError acc (msgThrown msg partition e))
  | Response ok status json =>
      if negb ok then mret (pushError acc (msgHttp msg status partition))
      else
        match json with
        | Throw e => mret (pushError acc (msgThrown msg partition e))
        | Ok None | Ok (Some []) => mret (setOffset acc partition 0)
        | Ok (Some records) =>
            match addRecords partition records acc with
            | (acc', Some e) => mret (pushError acc' (msgThrown msg partition e))
            | (acc', None) =>
                sleep delay;;
                mret (setOffset acc' partition (offset + PAGE_SIZE))
            end
        end
  end.

(** [for (let ct = 0; ct < perRun; ct++)], from counter [ct] on. *)
Fixpoint fetchPartitions (state : ProviderState) (acc : Acc) (remaining ct : nat)
    : M Acc :=
  match remaining with
  | 0 => mret acc
  | S remaining' =>
      acc' ← fetchPartition state acc ct;
      fetchPartitions state acc' remaining' (ct + 1)
  end.

Definition defaultState : ProviderState := mkState 0 ∅ EmptyString.

Definition loadState (db : option Firestore) : M ProviderState :=
  match db with
  | None => mret defaultState
  | Some _ =>
      tryCatch
        (emit (EvStateGet STATE_DOC);;
         match stateGetError env with
         | Some e => throw e
         | None =>
             σ ← getBackend;
             mret (default defaultState (importState σ !! STATE_DOC))
         end)
        (λ e, log SOURCE ("Could not load state: " +:+ e);; mret defaultState)
  end.

Definition saveState (db : option Firestore) (state : ProviderState) (acc : Acc)
    : M unit :=
  match db with
  | None => mret tt
  | Some _ =>
      tryCatch
        (let newState :=
           mkState ((index state + perRun) `mod` length PARTITIONS)
             (acc_offsets acc) (now env) in
         emit (EvStateSet STATE_DOC newState);;
         match stateSetError env with
         | Some e => throw e
         | None =>
             modifyBackend (setImportState (insert STATE_DOC newState));;
             log SOURCE (msgSaved msg (index newState))
         end)
        (λ e, log SOURCE ("Could not save state: " +:+ e))
  end.

Definition fetchRotating (db : option Firestore) : M SourceResult :=
  state ← loadState db;
  acc ← fetchPartitions state (mkAcc [] [] ∅ (offsets state)) perRun 0;
  saveState db state acc;;
  log SOURCE ("Fetched " +:+ pretty (length (acc_tracks acc)) +:+ " unique tracks ("
                +:+ pretty (length (acc_errors acc)) +:+ " errors)");;
  mret (mkSourceResult SOURCE (acc_tracks acc) (acc_errors acc)).

End Rotating.
End Adapter.

(** ** sources/ccmixter.ts *)
Module CCMixter.

Definition SOURCE : string := "ccmixter".
Definition PAGE_SIZE : nat := 50.
Definition STATE_DOC : string := "import-state/ccmixter".
Definition CONTENT_TYPES : list string := ["opsample"; "remix"; "cover"].
Definition typesToFetch : nat := 2.

Module Raw.
Record Images : Type := mkImages { large : option string; medium : option string }.
Record CCMixterTrack : Type := mkRaw {
  id : string;
  upload_id : string;
  name : string;
  artist : string;
  artist_id : string;
  upload_user : string;
  ccnc_url : string;
  file_extension : string;
  images : option Images;
  duration : option Z;
}.
End Raw.

(** The body of [for (const record of data.records)] up to the record it
    pushes, for a [record] that is an object of the interface
    [CCMixterTrack]; an element of the page that is no object is outside
    this type. *)
Definition convert (contentType : string) (record : Raw.CCMixterTrack)
    : option (string * result TrackRecord) :=
  if negb (truthy (Raw.name record)) || negb (truthy (Raw.artist record)) then None
  else
    let audioUrl := "https://ccmixter.org/4download/file/" +:+ Raw.upload_id record in
    let artwork :=
      match Raw.images record with
      | Some im =>
          orElse (default EmptyString (Raw.large im))
            (orElse (default EmptyString (Raw.medium im)) EmptyString)
      | None => EmptyString
      end in
    if negb (truthy artwork) then None
    else
      let id := "ccmixter-" +:+ Raw.id record in
      Some (id,
        Ok (mkTrack id (Raw.name record) (Raw.artist record)
              ("ccmixter-" +:+ Raw.artist_id record)
              (contentType +:+ " Collection")
              ("ccmixter-" +:+ contentType)
              (default 0%Z (Raw.duration record))
              artwork audioUrl
              (if bool_decide (contentType = "opsample") then "Sample" else contentType)
              "Creative Commons" ∅)).

Definition messages : Adapter.Messages :=
  Adapter.mkMessages
    (λ _ contentType offset, "[" +:+ contentType +:+ "] offset " +:+ pretty offset +:+ "...")
    (λ status contentType, "HTTP " +:+ pretty status +:+ " on type " +:+ contentType)
    (λ contentType e, contentType +:+ ": " +:+ e)
    (λ typeIdx, "State saved: typeIdx=" +:+ pretty typeIdx).

Definition fetchCCMixter (sanitizeTrack : TrackRecord → TrackRecord)
    (env : Adapter.Env Raw.CCMixterTrack) (db : option Firestore) : M SourceResult :=
  Adapter.fetchRotating SOURCE STATE_DOC CONTENT_TYPES typesToFetch PAGE_SIZE 400
    (λ offset, offset) convert sanitizeTrack messages env db.

End CCMixter.

(** ** sources/musicbrainz.ts *)
Module MusicBrainz.

Definition SOURCE : string := "musicbrainz".
Definition PAGE_SIZE : nat := 100.
Definition STATE_DOC : string := "import-state/musicbrainz".
Definition TAG_FILTERS : list string :=
  ["rock"; "metal"; "electronic"; "hip-hop"; "experimental";
   "indie"; "pop"; "jazz"; "folk"; "ambient"].
Definition tagsToFetch : nat := 2.

Module Raw.
Record Artist : Type := mkArtist { artist_id : string; artist_name : string }.
Record ArtistCredit : Type := mkCredit { artist : Artist }.
Record Image : Type := mkImage { image : string }.
Record Release : Type := mkRelease {
  release_id : string;
  release_title : string;
  release_group : option string;
  images : option (list Image);
}.
Record MBRecording : Type := mkRecording {
  id : string;
  title : string;
  artist_credit : option (list ArtistCredit);
  releases : option (list Release);
  length : option nat; (* milliseconds *)
}.
End Raw.

(** [Math.round(ms / 1000)] on a natural number of milliseconds. *)
Definition roundSeconds (ms : nat) : nat := (ms + 500) / 1000.

Definition convert (tag : string) (recording : Raw.MBRecording)
    : option (string * result TrackRecord) :=
  match Raw.artist_credit recording with
  | None => None
  | Some credits =>
      if negb (truthy (Raw.title recording)) then None
      else
        let artistName :=
          String.concat ", " (map (λ ac, Raw.artist_name (Raw.artist ac)) credits) in
        let release0 := Raw.releases recording ≫= head in
        let artwork :=
          default EmptyString
            (release ← release0; imgs ← Raw.images release; Raw.image <$> head imgs) in
        if negb (truthy artwork) then None
        else
          let id := "musicbrainz-" +:+ Raw.id recording in
          Some (id,
            match credits with
            | [] => Throw "Cannot read properties of undefined (reading 'artist')"
            | credit0 :: _ =>
                Ok (mkTrack id (Raw.title recording) artistName
                      ("musicbrainz-" +:+ Raw.artist_id (Raw.artist credit0))
                      (orElse (default EmptyString (Raw.release_title <$> release0))
                         "Unknown Album")
                      ("musicbrainz-"
                         +:+ orElse (default EmptyString (Raw.release_id <$> release0))
                               EmptyString)
                      (match Raw.length recording with
                       | Some (S _ as ms) => Z.of_nat (roundSeconds ms)
                       | _ => 0%Z
                       end)
                      artwork EmptyString tag "Various (MusicBrainz Open Data)" ∅)
            end)
  end.

Definition messages : Adapter.Messages :=
  Adapter.mkMessages
    (λ _ tag offset, "[" +:+ tag +:+ "] offset " +:+ pretty offset +:+ "...")
    (λ status tag, "HTTP " +:+ pretty status +:+ " on tag " +:+ tag)
    (λ tag e, tag +:+ ": " +:+ e)
    (λ tagIdx, "State saved: tagIdx=" +:+ pretty tagIdx).

Definition fetchMusicBrainz (sanitizeTrack : TrackRecord → TrackRecord)
    (env : Adapter.Env Raw.MBRecording) (db : option Firestore) : M SourceResult :=
  Adapter.fetchRotating SOURCE STATE_DOC TAG_FILTERS tagsToFetch PAGE_SIZE 500
    (λ offset, offset) convert sanitizeTrack messages env db.

End MusicBrainz.

(** ** sources/discogs.ts *)
Module Discogs.

Definition SOURCE : string := "discogs".
Definition PAGE_SIZE : nat := 50.
Definition STATE_DOC : string := "import-state/discogs".
Definition SEARCHES : list string :=
  ["genre:rock year:[2010 TO 2026] type:release";
   "genre:electronic year:[2010 TO 2026] type:release";
   "genre:hip-hop year:[2010 TO 2026] type:release";
   "genre:pop year:[2010 TO 2026] type:release";
   "genre:metal year:[2010 TO 2026] type:release"].
Definition searchesToFetch : nat := 2.

Module Raw.
Record Artist : Type := mkArtist { artist_name : string; artist_id : string }.
Record DiscogsRelease : Type := mkRelease {
  id : string;
  title : string;
  artists : option (list Artist);
  year : option nat;
  genres : option (list string);
  styles : option (list string);
  thumb : option string;
  resource_url : option string;
}.
End Raw.

(** [Math.floor(offset / PAGE_SIZE) + 1] *)
Definition page (offset : nat) : nat := offset / PAGE_SIZE + 1.

(** The body of [for (const result of data.results)] up to the record it
    pushes, for a result that is an object of the interface
    [DiscogsRelease]; an element of the page that is no object is outside
    this type. *)
Definition convert (_ : string) (r : Raw.DiscogsRelease)
    : option (string * result TrackRecord) :=
  if negb (truthy (Raw.title r)) || negb (truthy (default EmptyString (Raw.thumb r)))
  then None
  else
    let artist0 := Raw.artists r ≫= head in
    let artist :=
      orElse (default EmptyString (Raw.artist_name <$> artist0)) "Unknown Artist" in
    let artistId :=
      orElse (default EmptyString (Raw.artist_id <$> artist0)) EmptyString in
    let genre :=
      orElse (default EmptyString (Raw.genres r ≫= head))
        (orElse (default EmptyString (Raw.styles r ≫= head)) "Miscellaneous") in
    let id := "discogs-" +:+ Raw.id r in
    Some (id,
      Ok (mkTrack id (Raw.title r) artist ("discogs-" +:+ artistId) (Raw.title r)
            ("discogs-" +:+ Raw.id r) 0%Z (default EmptyString (Raw.thumb r))
            EmptyString genre "Various (Discogs Metadata)" ∅)).

Definition messages : Adapter.Messages :=
  Adapter.mkMessages
    (λ searchIdx search offset,
       "[" +:+ pretty searchIdx +:+ "] " +:+ Index.dq +:+ search +:+ Index.dq
         +:+ " page " +:+ pretty (page offset) +:+ "...")
    (λ status search,
       "HTTP " +:+ pretty status +:+ " on search " +:+ Index.dq +:+ search +:+ Index.dq)
    (λ search e, "Search " +:+ Index.dq +:+ search +:+ Index.dq +:+ ": " +:+ e)
    (λ searchIdx, "State saved: searchIdx=" +:+ pretty searchIdx).

(** [DISCOGS_TOKEN] is the value of the environment variable, [None] when
    it is unset; the provider is asked by search and page number. *)
Definition fetchDiscogs (DISCOGS_TOKEN : option string)
    (sanitizeTrack : TrackRecord → TrackRecord)
    (env : Adapter.Env Raw.DiscogsRelease) (db : option Firestore) : M SourceResult :=
  if negb (truthy (default EmptyString DISCOGS_TOKEN))
  then mret (mkSourceResult SOURCE [] ["DISCOGS_TOKEN not set"])
  else
    Adapter.fetchRotating SOURCE STATE_DOC SEARCHES searchesToFetch PAGE_SIZE 600
      page convert sanitizeTrack messages env db.

End Discogs.

(** * migrate-gs-urls.ts: the gs:// to HTTPS migration utility

    The model covers [gsToHttps], the callback that handles one document and
    the loop that runs it over the documents of a page in groups of
    [CONCURRENCY]. *)
Module Migrate.

Definition PAGE_SIZE : nat := 100.
Definition CONCURRENCY : nat := 5.

Record MigrationStats : Type := mkStats {
  total : nat;
  migrated : nat;
  skipped : nat;
  failed : nat;
  failedIds : list string;
}.

(** [limitCount]: [parseInt(process.env.LIMIT, 10)], or [Infinity]. *)
Inductive Limit : Type := Infinity | Finite (n : nat) | NaN.

Definition below (n : nat) (limit : Limit) : bool :=
  match limit with
  | Infinity => true
  | Finite m => bool_decide (n < m)
  | NaN => false
  end.

Record World : Type := mkWorld {
  existsError : string → option string;      (* file.exists() rejecting *)
  getMetadataError : string → option string; (* file.getMetadata() rejecting *)
  setMetadataError : string → option string; (* file.setMetadata() rejecting *)
  randomUUID : string → string;              (* the token minted for an object *)
  updateError : string → option string;      (* doc.ref.update() rejecting *)
}.

Definition LF : string := String (Ascii.ascii_of_nat 10) EmptyString.
Definition CR : string := String (Ascii.ascii_of_nat 13) EmptyString.
(** U+2028 and U+2029 in UTF-8. *)
Definition LS : string :=
  String (Ascii.ascii_of_nat 226) (String (Ascii.ascii_of_nat 128)
    (String (Ascii.ascii_of_nat 168) EmptyString)).
Definition PS : string :=
  String (Ascii.ascii_of_nat 226) (String (Ascii.ascii_of_nat 128)
    (String (Ascii.ascii_of_nat 169) EmptyString)).

Definition contains (s sub : string) : bool :=
  bool_decide (is_Some (String.index 0 sub s)).

(** No character that [.] refuses to match. *)
Definition singleLine (s : string) : bool :=
  negb (contains s LF || contains s CR || contains s LS || contains s PS).

(** [gsUrl.match(/^gs:\/\/[^/]+\/(.+)$/)]: the captured path. *)
Definition matchGs (gsUrl : string) : option string :=
  if startsWith gsUrl "gs://" then
    let rest := String.substring 5 (String.length gsUrl - 5) gsUrl in
    match String.index 0 "/" rest with
    | Some slash =>
        let path := String.substring (slash + 1) (String.length rest - (slash + 1)) rest in
        if bool_decide (0 < slash) && truthy path && singleLine path
        then Some path else None
    | None => None
    end
  else None.

Definition hexDigit (n : nat) : Ascii.ascii :=
  Ascii.ascii_of_nat (if bool_decide (n < 10) then 48 + n else 55 + n).

Definition unreserved (c : Ascii.ascii) : bool :=
  let n := Ascii.nat_of_ascii c in
  bool_decide (65 ≤ n ≤ 90) || bool_decide (97 ≤ n ≤ 122) || bool_decide (48 ≤ n ≤ 57)
  || bool_decide (n ∈ [45; 95; 46; 33; 126; 42; 39; 40; 41]).

(** [encodeURIComponent] on a string of UTF-8 bytes. *)
Fixpoint encodeURIComponent (s : string) : string :=
  match s with
  | EmptyString => EmptyString
  | String c rest =>
      if unreserved c then String c (encodeURIComponent rest)
      else
        let n := Ascii.nat_of_ascii c in
        String (Ascii.ascii_of_nat 37)
          (String (hexDigit (n / 16))
             (String (hexDigit (n `mod` 16)) (encodeURIComponent rest)))
  end.

Section WithWorld.
Variable w : World.

(** An SDK call that may reject. *)
Definition sdk (e : Event) (error : option string) : M unit :=
  emit e;;
  match error with Some msg => throw msg | None => mret tt end.

Definition gsToHttps (bucket : Bucket) (gsUrl : string) : M (option string) :=
  tryCatch
    (match matchGs gsUrl with
     | None => mret None
     | Some storagePath =>
         sdk (EvFileExists storagePath) (existsError w storagePath);;
         σ ← getBackend;
         match files σ !! storagePath with
         | None =>
             log "migrate" ("File not found in Storage: " +:+ storagePath);;
             mret None
         | Some file =>
             sdk (EvGetMetadata storagePath) (getMetadataError w storagePath);;
             token ←
               (if truthy (default EmptyString (downloadToken file))
                then mret (default EmptyString (downloadToken file))
                else
                  let token := randomUUID w storagePath in
                  sdk (EvSetMetadata storagePath token) (setMetadataError w storagePath);;
                  modifyBackend
                    (setFiles (insert storagePath
                       (mkFile (content file) (contentType file) (Some token))));;
                  mret token);
             mret (Some ("https://firebasestorage.googleapis.com/v0/b/"
                           +:+ bucket_name bucket +:+ "/o/"
                           +:+ encodeURIComponent storagePath
                           +:+ "?alt=media&token=" +:+ token))
         end
     end)
    (λ err,
       log "migrate" ("Error converting " +:+ gsUrl +:+ ": " +:+ err);;
       mret None).

(** [if (httpsUrl)]: neither [null] nor the empty string. *)
Definition converted (httpsUrl : option string) : option string :=
  match httpsUrl with
  | Some url => if truthy url then Some url else None
  | None => None
  end.

(** [await doc.ref.update(updates)] *)
Definition update (docId : string) (newArtwork newAudioUrl : option string) : M unit :=
  sdk (EvUpdate docId newArtwork newAudioUrl) (updateError w docId);;
  σ ← getBackend;
  match tracks σ !! docId with
  | None => throw "NOT_FOUND: No document to update"
  | Some data =>
      modifyBackend (setTracks (insert docId
        (StorageUploader.withAssets data (default (audioUrl data) newAudioUrl)
           (default (artwork data) newArtwork))))
  end.

Definition markFailed (stats : MigrationStats) (docId : string) : MigrationStats :=
  mkStats (total stats) (migrated stats) (skipped stats) (failed stats + 1)
    (failedIds stats ++ [docId]).

Definition markMigrated (stats : MigrationStats) : MigrationStats :=
  mkStats (total stats) (migrated stats + 1) (skipped stats) (failed stats)
    (failedIds stats).

(** The callback of [chunk.map(async (doc) => { ... })] as
    [Promise.allSettled] sees it.  [stats] is shared by the callbacks; the
    value returned is [stats] when the callback ends, also when it ends by
    rejecting ([doc.ref.update] is its one call that is not caught), since
    [allSettled] drops the rejection. *)
Definition processDoc (isDryRun : bool) (bucket : Bucket)
    (doc : string * TrackRecord) (stats : MigrationStats) : M MigrationStats :=
  let '(docId, data) := doc in
  let stats :=
    mkStats (total stats + 1) (migrated stats) (skipped stats) (failed stats)
      (failedIds stats) in
  let artworkUrl := orElse (artwork data) EmptyString in
  let audioUrl := orElse (audioUrl data) EmptyString in
  let artworkNeedsFix := startsWith artworkUrl "gs://" in
  let audioNeedsFix := startsWith audioUrl "gs://" in
  if negb artworkNeedsFix && negb audioNeedsFix then
    mret (mkStats (total stats) (migrated stats) (skipped stats + 1) (failed stats)
            (failedIds stats))
  else if isDryRun then
    log "migrate"
      ("[DRY RUN] Would fix: " +:+ docId +:+ " - " +:+ Index.dq +:+ title data
         +:+ Index.dq +:+ " (artwork: " +:+ (if artworkNeedsFix then "true" else "false")
         +:+ ", audio: " +:+ (if audioNeedsFix then "true" else "false") +:+ ")");;
    mret (markMigrated stats)
  else
    newArtwork ←
      (if artworkNeedsFix
       then httpsUrl ← gsToHttps bucket artworkUrl; mret (Some (converted httpsUrl))
       else mret None);
    match newArtwork with
    | Some None => mret (markFailed stats docId)
    | _ =>
        newAudioUrl ←
          (if audioNeedsFix
           then httpsUrl ← gsToHttps bucket audioUrl; mret (Some (converted httpsUrl))
           else mret None);
        match newAudioUrl with
        | Some None => mret (markFailed stats docId)
        | _ =>
            tryCatch
              (update docId (default None newArtwork) (default None newAudioUrl);;
               let stats := markMigrated stats in
               (if bool_decide (migrated stats `mod` 50 = 0)
                then log "migrate"
                       ("Progress: " +:+ pretty (migrated stats) +:+ " migrated, "
                          +:+ pretty (total stats) +:+ " scanned")
                else mret tt);;
               mret stats)
              (λ _, mret stats)
        end
    end.

(** [await Promise.allSettled(chunk.map(...))]; the callbacks are taken
    one after the other. *)
Fixpoint processChunk (isDryRun : bool) (bucket : Bucket)
    (chunk : list (string * TrackRecord)) (stats : MigrationStats) : M MigrationStats :=
  match chunk with
  | [] => mret stats
  | doc :: rest =>
      stats' ← processDoc isDryRun bucket doc stats;
      processChunk isDryRun bucket rest stats'
  end.

(** [for (let i = 0; i < docs.length && stats.total < limitCount; i += CONCURRENCY)],
    over the chunks still to come. *)
Fixpoint processChunks (isDryRun : bool) (limitCount : Limit) (bucket : Bucket)
    (cs : list (list (string * TrackRecord))) (stats : MigrationStats)
    : M MigrationStats :=
  match cs with
  | [] => mret stats
  | chunk :: rest =>
      if below (total stats) limitCount then
        stats' ← processChunk isDryRun bucket chunk stats;
        processChunks isDryRun limitCount bucket rest stats'
      else mret stats
  end.

Definition processPage (isDryRun : bool) (limitCount : Limit) (bucket : Bucket)
    (docs : list (string * TrackRecord)) (stats : MigrationStats) : M MigrationStats :=
  processChunks isDryRun limitCount bucket (chunks CONCURRENCY docs) stats.

End WithWorld.
End Migrate.

(** ** migrate-gs-urls.ts: [main] and its pagination loop

    [main] reads the collection page by page, in the order of the document
    ids, each page starting after the last document of the page before.
    [limitCount] is the value of [LIMIT] once parsed, for a [LIMIT] that is
    unset, parses to a natural number, or does not parse. *)
Module MigrateMain.
Import Migrate.

Record World : Type := mkWorld {
  storage : Migrate.World;
  initError : option string;        (* initFirebaseAdmin() throwing in a live run *)
  queryError : nat → option string; (* query.get() rejecting on the page of that number *)
  elapsed : string;                 (* ((Date.now() - startTime) / 1000).toFixed(1) *)
}.

(** What [initFirebaseAdmin] of [firebaseAdmin.ts] returns: with [DRY_RUN=1]
    the two handles are empty objects. *)
Inductive FirebaseServices : Type :=
  | Mocks
  | Services (db : Firestore) (bucket : Bucket).

(** [orderBy('__name__')]: the document ids in ascending order. *)
Definition sortedIds (σ : Backend) : list string :=
  merge_sort String.le (elements (dom (tracks σ))).

(** [startAfter(lastDoc)], when there is a [lastDoc]. *)
Definition after (lastDoc : option string) (docId : string) : bool :=
  match lastDoc with
  | None => true
  | Some l => negb (bool_decide (String.le docId l))
  end.

(** The documents of [query.get()]: [limit(PAGE_SIZE)] of those after
    [lastDoc]. *)
Definition snapshotDocs (lastDoc : option string) (σ : Backend)
    : list (string * TrackRecord) :=
  omap (λ docId, pair docId <$> tracks σ !! docId)
    (take PAGE_SIZE (filter (λ docId, after lastDoc docId = true) (sortedIds σ))).

Section WithWorld.
Variable w : World.

Definition initFirebaseAdmin (DRY_RUN : option string) : M FirebaseServices :=
  if bool_decide (DRY_RUN = Some "1") then mret Mocks
  else match initError w with
       | Some e => throw e
       | None => mret (Services FirestoreClient (mkBucket Index.STORAGE_BUCKET))
       end.

(** [await query.get()] for the page of number [page]. *)
Definition get (lastDoc : option string) (page : nat) : M (list (string * TrackRecord)) :=
  match queryError w page with
  | Some e => throw e
  | None => σ ← getBackend; mret (snapshotDocs lastDoc σ)
  end.

(** [while (hasMore && stats.total < limitCount)], from the page of number
    [page] on.  [fuel] bounds the number of pages; the result is [None] if
    it runs out before the loop stops. *)
Fixpoint scan (fuel : nat) (isDryRun : bool) (limitCount : Limit) (bucket : Bucket)
    (lastDoc : option string) (page : nat) (stats : MigrationStats)
    : M (option MigrationStats) :=
  match fuel with
  | 0 => mret None
  | S fuel' =>
      if below (total stats) limitCount then
        docs ← get lastDoc page;
        match docs with
        | [] => mret (Some stats)
        | _ :: _ =>
            stats' ← processPage (storage w) isDryRun limitCount bucket docs stats;
            scan fuel' isDryRun limitCount bucket (fst <$> last docs) (page + 1) stats'
        end
      else mret (Some stats)
  end.

Definition summary (stats : MigrationStats) : M unit :=
  log "migrate" "=== Migration Summary ===";;
  log "migrate" ("  Total scanned: " +:+ pretty (total stats));;
  log "migrate" ("  Migrated: " +:+ pretty (migrated stats));;
  log "migrate" ("  Skipped (already HTTPS): " +:+ pretty (skipped stats));;
  log "migrate" ("  Failed: " +:+ pretty (failed stats));;
  log "migrate" ("  Completed in " +:+ elapsed w +:+ "s");;
  if bool_decide (0 < length (failedIds stats))
  then log "migrate" ("  Failed IDs: " +:+ String.concat ", " (slice 0 20 (failedIds stats)))
  else mret tt.

(** [main]; every page but the last holds a document, so that the loop needs
    at most one page more than there are documents. *)
Definition main (DRY_RUN : option string) (limitCount : Limit) : M unit :=
  let isDryRun := bool_decide (DRY_RUN = Some "1") in
  log "migrate" "=== OpenTune gs:// to HTTPS Migration ===";;
  log "migrate" ("Mode: " +:+ (if isDryRun then "DRY RUN" else "LIVE"));;
  (match limitCount with
   | Finite n => log "migrate" ("Limit: " +:+ pretty n)
   | _ => mret tt
   end);;
  services ← initFirebaseAdmin DRY_RUN;
  match services with
  | Mocks => throw "TypeError: db.collection is not a function"
  | Services _ bucket =>
      σ ← getBackend;
      scanned ← scan (S (size (tracks σ))) isDryRun limitCount bucket None 0
                  (mkStats 0 0 0 0 []);
      match scanned with
      | Some stats => summary stats
      | None => mret tt
      end
  end.

End WithWorld.
End MigrateMain.

(** * Vocabulary of the statements *)

(** The three components of a run. *)
Definition valueOf {A} (run : result A * Backend * list Event) : result A := run.1.1.
(** The value of a run that returned. *)
Definition returned {A} (run : result A * Backend * list Event) : option A :=
match run.1.1 with Ok x => Some x | Throw _ => None end.
Definition backendOf {A} (run : result A * Backend * list Event) : Backend := run.1.2.
Definition traceOf {A} (run : result A * Backend * list Event) : list Event := run.2.

Module Retry.
Import StorageUploader.

(** What a trace says about the retries of one reference: the attempts,
    numbered from 1 in the order they are made, and the delays slept. *)
Inductive Step : Type :=
  | Attempt (n : nat)
  | Delay (ms : nat).

Definition step (e : Event) : option Step :=
  match e with
  | EvDownload _ attempt => Some (Attempt (attempt + 1))
  | EvSleep ms => Some (Delay ms)
  | _ => None
  end.

Definition timeline (t : list Event) : list Step := omap step t.

(** Attempts [first] to [last], each but the last followed by a delay of
    its number times [RETRY_DELAY_MS]. *)
Definition scheduleBetween (first last : nat) : list Step :=
  flat_map (λ n, if bool_decide (n = last) then [Attempt n]
                 else [Attempt n; Delay (n * RETRY_DELAY_MS)])
           (seq first (last + 1 - first)).

Definition retrySchedule (attempts : nat) : list Step := scheduleBetween 1 attempts.

(** Every attempt the retry loop can make on this reference fails. *)
Definition unreachable (w : World) (sourceUrl storagePath : string) : Prop :=
  ∀ attempt, attempt ≤ MAX_RETRIES → attemptFails w sourceUrl storagePath attempt = true.

(** Every field but [audioUrl] and [artwork] agrees. *)
Definition sameExceptAssets (t t' : TrackRecord) : Prop :=
  id t' = id t ∧ title t' = title t ∧ artist t' = artist t ∧ artistId t' = artistId t
  ∧ album t' = album t ∧ albumId t' = albumId t ∧ duration t' = duration t
  ∧ genre t' = genre t ∧ license t' = license t ∧ extra t' = extra t.


(** The events of the uploader: downloads, uploads, delays and its own log
    lines. *)
Definition fromUploader (e : Event) : Prop :=
match e with
| EvDownload _ _ | EvSave _ _ _ | EvSleep _ => True
| EvLog tag _ => tag = "storage"
| _ => False
end.

(** A computation that changes nothing of the backend but the bucket and
    emits only events of the uploader. *)
Definition uploadOnly {A} (m : M A) : Prop :=
∀ σ, tracks (m σ).1.2 = tracks σ
     ∧ importState (m σ).1.2 = importState σ
     ∧ Forall fromUploader (m σ).2.

(** What [processTrack] does to a record. *)
Definition relocated (w : World) (track out : TrackRecord) : Prop :=
∃ a b, out = withAssets track a b
  ∧ (startsWith (audioUrl track) "http" = false → a = audioUrl track)
  ∧ (startsWith (artwork track) "http" = false → b = artwork track)
  ∧ (unreachable w (audioUrl track) (audioPath track) → a = audioUrl track)
  ∧ (unreachable w (artwork track) (artworkPath track) → b = artwork track).
End Retry.

Module Observed.
(** The batches a trace commits. *)
Definition commits (t : list Event) : list (list TrackRecord) :=
  omap (λ e, match e with EvCommit docs => Some docs | _ => None end) t.

(** The bulk existence lookups of a trace, each with the ids it asks for. *)
Definition lookups (t : list Event) : list (list string) :=
  omap (λ e, match e with EvGetAll ids => Some ids | _ => None end) t.

(** The partitions a trace asks a provider for, in order. *)
Definition queried (t : list Event) : list string :=
  omap (λ e, match e with EvRequest _ partition _ => Some partition | _ => None end) t.

(** The tracks of the adapters that settled with a result, as the
    orchestrator keeps them: those that pass validation, in order. *)
Definition validTracks (validateTrack : TrackRecord → bool)
    (results : list (result SourceResult)) : list TrackRecord :=
  flat_map (λ r, match r with
                 | Ok sr => filter (λ t, validateTrack t = true) (sr_tracks sr)
                 | Throw _ => []
                 end) results.

(** The statistics entry the orchestrator opens for a settled adapter. *)
Definition openedStat (r : result SourceResult) : ImportStats :=
match r with
| Ok sr => mkStats (sourceName sr) (length (sr_tracks sr)) 0 0 (length (sr_errors sr))
| Throw _ => mkStats "unknown" 0 0 0 1
end.

Definition logged (e : Event) : Prop := isLog e = true.

(** The document updates of a trace: the id of the document and the new
    values of [artwork] and [audioUrl], where the update holds one. *)
Definition updatesOf (t : list Event) : list (string * option string * option string) :=
omap (λ e, match e with
           | EvUpdate docId newArtwork newAudioUrl => Some (docId, newArtwork, newAudioUrl)
           | _ => None
           end) t.

(** The HTTPS URL a run of [gsToHttps] delivers, if it delivers one. *)
Definition conversion (run : result (option string) * Backend * list Event)
    : option string :=
match run.1.1 with
| Ok httpsUrl => Migrate.converted httpsUrl
| Throw _ => None
end.

(** The counters once a document has been taken up ([stats.total++]). *)
Definition scanned (stats : Migrate.MigrationStats) : Migrate.MigrationStats :=
Migrate.mkStats (Migrate.total stats + 1) (Migrate.migrated stats) (Migrate.skipped stats)
  (Migrate.failed stats) (Migrate.failedIds stats).

(** The lines a trace logs under the tag "main". *)
Definition mainLog (t : list Event) : list string :=
omap (λ e, match e with
           | EvLog tag line => if bool_decide (tag = "main") then Some line else None
           | _ => None
           end) t.
End Observed.

Module Rotation.
Import Adapter.

(** The partition the loop counter [ct] selects when the rotation index is
    [index]. *)
Definition partitionAt (PARTITIONS : list string) (index ct : nat) : string :=
PARTITIONS !!! ((index + ct) `mod` length PARTITIONS).

(** How the turn of a partition ends: with an empty page, with a page whose
    records were all handled, or with a failure (a rejected request, a status
    that is not ok, a body that does not parse, an exception while the
    records are handled). *)
Inductive Outcome : Type := Exhausted | Advanced | Failed.

Definition outcome {Raw} (reply : Reply Raw) (loopError : option string) : Outcome :=
match reply with
| NetworkError _ => Failed
| Response false _ _ => Failed
| Response true _ (Throw _) => Failed
| Response true _ (Ok None) => Exhausted
| Response true _ (Ok (Some [])) => Exhausted
| Response true _ (Ok (Some (_ :: _))) =>
    match loopError with None => Advanced | Some _ => Failed end
end.

(** The progress document of a provider, or the default of a first run. *)
Definition storedState (STATE_DOC : string) (σ : Backend) : ProviderState :=
default defaultState (importState σ !! STATE_DOC).

(** Consecutive runs of an adapter, one per environment, each starting from
    the backend the one before left: the traces of the runs and the final
    backend. *)
Fixpoint consecutiveRuns {Raw} (run : Env Raw → M SourceResult) (envs : list (Env Raw))
    (σ : Backend) : list (list Event) * Backend :=
match envs with
| [] => ([], σ)
| env :: rest =>
    let '(_, σ1, t) := run env σ in
    let '(ts, σ2) := consecutiveRuns run rest σ1 in
    (t :: ts, σ2)
end.

(** The progress document can be read and written during the run. *)
Definition stateReachable {Raw} (env : Env Raw) : Prop :=
stateGetError env = None ∧ stateSetError env = None.
End Rotation.

(** ** utils.ts *)
Module Utils.
(** Modelled from the spec: [validateTrack] of [utils.ts], which is not among
    the sources.  Section 4.6: validation drops the records that miss their
    id, title or artist or have a negative duration; section 8: a duration of
    0 is accepted. *)
Definition validateTrack (t : TrackRecord) : bool :=
truthy (id t) && truthy (title t) && truthy (artist t) && bool_decide (0 ≤ duration t)%Z.

(** Modelled from the spec: the validation of the scenario of section 8,
    which also drops a record that has neither audio nor artwork. *)
Definition validateWithAsset (t : TrackRecord) : bool :=
validateTrack t && (truthy (audioUrl t) || truthy (artwork t)).
End Utils.

(** * Sample inputs *)
Module Sample.

(** An object store and asset hosts that refuse every request. *)
Definition unreachableStore : StorageUploader.World :=
  StorageUploader.mkWorld (λ _ _, Throw "connect ECONNREFUSED") (λ _ _, Some "UNAVAILABLE").

(** Asset hosts and an object store that serve every request. *)
Definition reachableStore : StorageUploader.World :=
  StorageUploader.mkWorld
    (λ _ _, Ok (StorageUploader.mkResponse true 200 (Ok [])))
    (λ _ _, None).

Definition world (store : StorageUploader.World) : Index.World :=
  Index.mkWorld store None (λ _, None) (λ _, None) "0.1".

Definition emptyBackend : Backend := mkBackend ∅ ∅ ∅.

Definition bucket : Bucket := mkBucket Index.STORAGE_BUCKET.

(** The record the ccMixter adapter builds for item [n] of partition
    "opsample". *)
Definition track (n : string) : TrackRecord :=
mkTrack ("ccmixter-" +:+ n) ("Title " +:+ n) "Artist" "ccmixter-7"
  "opsample Collection" "ccmixter-opsample" 0
  ("https://ccmixter.org/images/" +:+ n +:+ ".jpg")
  ("https://ccmixter.org/4download/file/" +:+ n) "Sample" "Creative Commons" ∅.

(** The record of an item that comes with neither audio nor artwork. *)
Definition bareTrack (n : string) : TrackRecord :=
mkTrack ("ccmixter-" +:+ n) ("Title " +:+ n) "Artist" "ccmixter-7"
  "opsample Collection" "ccmixter-opsample" 0 EmptyString EmptyString "Sample"
  "Creative Commons" ∅.

(** An adapter that returns the records of items 1, 2 and 3, that of item 2
    with neither audio nor artwork. *)
Definition threeRecords (_ : option Firestore) : M SourceResult :=
mret (mkSourceResult "ccmixter" [track "1"; bareTrack "2"; track "3"] []).

(** A catalog that already holds the record of item 1. *)
Definition catalog : Backend :=
mkBackend {[ "ccmixter-1" := track "1" ]} ∅ ∅.

(** Raw ccMixter items: with a large image, and with no image at all. *)
Definition item (n : string) : CCMixter.Raw.CCMixterTrack :=
CCMixter.Raw.mkRaw n n ("Title " +:+ n) "Artist" "7" "someone" EmptyString "mp3"
  (Some (CCMixter.Raw.mkImages (Some ("https://ccmixter.org/images/" +:+ n +:+ ".jpg")) None))
  None.

Definition bareItem (n : string) : CCMixter.Raw.CCMixterTrack :=
CCMixter.Raw.mkRaw n n ("Title " +:+ n) "Artist" "7" "someone" EmptyString "mp3" None None.

Definition timestamp : string := "2026-01-01T00:00:00.000Z".

(** A provider with nothing to return. *)
Definition emptyPages {Raw : Type} : Adapter.Env Raw :=
Adapter.mkEnv (λ _ _, Adapter.Response true 200 (Ok (Some []))) None None timestamp.

(** The provider of the scenario: items 1, 2 and 3 for partition "opsample",
    item 2 without image, and no item for the other partitions. *)
Definition scenario : Adapter.Env CCMixter.Raw.CCMixterTrack :=
Adapter.mkEnv
  (λ partition _,
     if bool_decide (partition = "opsample")
     then Adapter.Response true 200 (Ok (Some [item "1"; bareItem "2"; item "3"]))
     else Adapter.Response true 200 (Ok (Some [])))
  None None timestamp.

(** A provider that fails on "opsample" and returns one item for the rest. *)
Definition flaky : Adapter.Env CCMixter.Raw.CCMixterTrack :=
Adapter.mkEnv
  (λ partition _,
     if bool_decide (partition = "opsample")
     then Adapter.Response false 503 (Throw "unread")
     else Adapter.Response true 200 (Ok (Some [item "9"])))
  None None timestamp.


(** A legacy document whose two references are gs:// URLs, in a bucket that
    holds its cover but not its audio file. *)
Definition legacy : TrackRecord :=
mkTrack "jamendo-5" "Five" "Artist" "jamendo-artist-1" "Single" EmptyString 180
  "gs://opentune-sbs.firebasestorage.app/imports/jamendo/jamendo-5_cover.jpg"
  "gs://opentune-sbs.firebasestorage.app/imports/jamendo/jamendo-5.mp3"
  "rock" "Creative Commons" ∅.

Definition legacyBackend : Backend :=
mkBackend {[ "jamendo-5" := legacy ]} ∅
  {[ "imports/jamendo/jamendo-5_cover.jpg" := mkFile [] "image/jpeg" None ]}.

Definition storage : Migrate.World :=
Migrate.mkWorld (λ _, None) (λ _, None) (λ _, None)
  (λ _, "0b0e7a5e-5bd0-4a5f-9c3e-0d6c4fd1f1aa") (λ _, None).
End Sample.

(** * Vocabulary of the further properties *)

Module Frame.
(** A computation that leaves every object of the bucket as it was, but for
    the objects under the paths of [paths]. *)
Definition writesWithin {A} (paths : string → Prop) (m : M A) : Prop :=
∀ σ p, ¬ paths p → files (m σ).1.2 !! p = files σ !! p.

(** The storage paths [processTrack] computes for the records of a list. *)
Definition assetPaths (newTracks : list TrackRecord) (p : string) : Prop :=
∃ t, t ∈ newTracks
     ∧ (p = StorageUploader.audioPath t ∨ p = StorageUploader.artworkPath t).
End Frame.

Module Visits.
Import Adapter.

(** The page requests of a trace: provider, partition and the offset or page
    number asked for. *)
Definition requests (t : list Event) : list (string * string * nat) :=
omap (λ e, match e with
           | EvRequest provider partition offset => Some (provider, partition, offset)
           | _ => None
           end) t.

(** The reads and writes of progress documents in a trace. *)
Definition stateEvents (t : list Event) : list Event :=
omap (λ e, match e with EvStateGet _ | EvStateSet _ _ => Some e | _ => None end) t.

(** The progress an adapter starts a run from: the stored document when it
    has a database handle and can read the document, the default state
    otherwise. *)
Definition loaded {Raw} (STATE_DOC : string) (env : Env Raw) (db : option Firestore)
    (σ : Backend) : ProviderState :=
match db, stateGetError env with
| Some _, None => Rotation.storedState STATE_DOC σ
| _, _ => defaultState
end.

(** The ids of the records gathered so far are pairwise different, and all
    of them are marked as seen. *)
Definition distinct (acc : Acc) : Prop :=
NoDup (map id (acc_tracks acc)) ∧ ∀ t, t ∈ acc_tracks acc → id t ∈ acc_seen acc.
End Visits.

(** The lines a trace logs under a tag. *)
Definition logLines (tag : string) (t : list Event) : list string :=
omap (λ e, match e with
           | EvLog tag' line => if bool_decide (tag' = tag) then Some line else None
           | _ => None
           end) t.

Module Counters.
Import Migrate.

(** The documents the summary accounts for: migrated, skipped or failed. *)
Definition accounted (stats : MigrationStats) : nat :=
migrated stats + skipped stats + failed stats.

(** The counters once a document has been skipped. *)
Definition skippedOne (stats : MigrationStats) : MigrationStats :=
mkStats (total stats + 1) (migrated stats) (skipped stats + 1) (failed stats)
  (failedIds stats).

(** How the counters may move while documents are handled: none goes down,
    the documents accounted for grow by no more than the documents scanned,
    and every failure adds its id to the failed ids, ids taken from [ids]. *)
Definition advance (ids : list string) (stats stats' : MigrationStats) : Prop :=
total stats ≤ total stats' ∧ migrated stats ≤ migrated stats'
∧ skipped stats ≤ skipped stats' ∧ failed stats ≤ failed stats'
∧ accounted stats' - accounted stats ≤ total stats' - total stats
∧ ∃ fresh, failedIds stats' = failedIds stats ++ fresh
           ∧ failed stats' = failed stats + length fresh
           ∧ fresh ⊆ ids.

(** The record a document holds once its references have been replaced. *)
Definition migratedRecord (data : TrackRecord) (newArtwork newAudioUrl : option string)
    : TrackRecord :=
StorageUploader.withAssets data (default (audioUrl data) newAudioUrl)
  (default (artwork data) newArtwork).
End Counters.

(** * Properties *)

(** ** The monad and the chunked loops *)

Lemma run_bind {A B} (m : M A) (f : A → M B) σ :
  (m ≫= f) σ =
  match m σ with
  | (Ok x, σ1, t1) => let '(r, σ2, t2) := f x σ1 in (r, σ2, t1 ++ t2)
  | (Throw e, σ1, t1) => (Throw e, σ1, t1)
  end.
Proof. reflexivity. Qed.

Lemma run_bind_ok {A B} (m : M A) (f : A → M B) σ x σ1 t1 :
  m σ = (Ok x, σ1, t1) →
  (m ≫= f) σ = (let '(r, σ2, t2) := f x σ1 in (r, σ2, t1 ++ t2)).
Proof. intros H. rewrite run_bind, H. reflexivity. Qed.

Lemma run_tryCatch {A} (m : M A) (h : string → M A) σ :
  tryCatch m h σ =
  match m σ with
  | (Ok x, σ1, t1) => (Ok x, σ1, t1)
  | (Throw e, σ1, t1) => let '(r, σ2, t2) := h e σ1 in (r, σ2, t1 ++ t2)
  end.
Proof. reflexivity. Qed.

(** Runs the primitive steps of a computation. *)
Ltac mrun :=
  cbv [mbind M_bind mret M_ret emit throw log sleep liftResult tryCatch
       modifyBackend getBackend];
  cbn [negb fst snd app].

Lemma slice_take_drop {A} (i size : nat) (l : list A) :
  slice i (i + size) l = take size (drop i l).
Proof. unfold slice. f_equal. lia. Qed.

Lemma chunksFrom_concat {A} (size : nat) (l : list A) (fuel i : nat) :
  0 < size → length l - i ≤ fuel → concat (chunksFrom size l fuel i) = drop i l.
Proof.
  intros Hsize. revert i. induction fuel as [|fuel IH]; intros i Hfuel; simpl.
  - symmetry. apply drop_ge. lia.
  - case_bool_decide as Hi.
    + simpl. rewrite IH by lia. rewrite slice_take_drop.
      rewrite <- drop_drop. apply take_drop.
    + symmetry. apply drop_ge. lia.
Qed.

Lemma chunks_concat {A} (size : nat) (l : list A) :
  0 < size → concat (chunks size l) = l.
Proof. intros H. unfold chunks. rewrite chunksFrom_concat by lia. apply drop_0. Qed.

Lemma chunksFrom_bounds {A} (size : nat) (l : list A) (fuel i : nat) :
  0 < size →
  Forall (λ c, 0 < length c ≤ size) (chunksFrom size l fuel i).
Proof.
  intros Hsize. revert i. induction fuel as [|fuel IH]; intros i; simpl; [constructor|].
  case_bool_decide as Hi; constructor; [|apply IH].
  rewrite slice_take_drop, length_take, length_drop. lia.
Qed.

Lemma chunks_bounds {A} (size : nat) (l : list A) :
  0 < size → Forall (λ c, 0 < length c ≤ size) (chunks size l).
Proof. apply chunksFrom_bounds. Qed.

(** ** storageUploader.ts *)
Module UploaderFacts.
Import StorageUploader Retry.

Section WithWorld.
Variables (w : World) (bucket : Bucket).
Variables (sourceUrl storagePath contentType : string).

(** One pass through the [try] block. *)
Lemma attempt_run (attempt : nat) (σ : Backend) :
  ∃ t, timeline t = [Attempt (attempt + 1)] ∧
    ((attemptFails w sourceUrl storagePath attempt = true ∧
      ∃ e, (data ← downloadFile w sourceUrl attempt;
            uploadToStorage w bucket storagePath data contentType attempt) σ
           = (Throw e, σ, t))
     ∨ (attemptFails w sourceUrl storagePath attempt = false ∧
        ∃ σ', (data ← downloadFile w sourceUrl attempt;
               uploadToStorage w bucket storagePath data contentType attempt) σ
              = (Ok ("gs://" +:+ bucket_name bucket +:+ "/" +:+ storagePath), σ', t))).
Proof.
  unfold attemptFails, downloadFile, uploadToStorage. mrun.
  destruct (fetchAsset w sourceUrl attempt) as [response|e]; mrun.
  2: { eexists; split; [|left; split; [done|eauto]]. done. }
  destruct (resp_ok response); mrun.
  2: { eexists; split; [|left; split; [done|eauto]]. done. }
  destruct (resp_arrayBuffer response) as [data|e]; mrun.
  2: { eexists; split; [|left; split; [done|eauto]]. done. }
  destruct (saveError w storagePath attempt) as [e|]; mrun.
  - eexists; split; [|left; split; [by rewrite bool_decide_eq_true|eauto]]. done.
  - eexists; split; [|right; split; [|eauto]]; [done|].
    rewrite bool_decide_eq_false. by intros [? ?].
Qed.

Lemma timeline_app (t1 t2 : list Event) : timeline (t1 ++ t2) = timeline t1 ++ timeline t2.
Proof. apply omap_app. Qed.

Lemma timeline_sleep (ms : nat) (t : list Event) :
  timeline (EvSleep ms :: t) = Delay ms :: timeline t.
Proof. reflexivity. Qed.

Lemma scheduleBetween_one (n : nat) : scheduleBetween n n = [Attempt n].
Proof.
  unfold scheduleBetween. replace (n + 1 - n) with 1 by lia.
  simpl. by rewrite bool_decide_true.
Qed.

Lemma scheduleBetween_cons (first last : nat) :
  first < last →
  scheduleBetween first last
  = Attempt first :: Delay (first * RETRY_DELAY_MS) :: scheduleBetween (first + 1) last.
Proof.
  intros Hlt. unfold scheduleBetween.
  replace (last + 1 - first) with (S (last + 1 - (first + 1))) by lia.
  cbn [seq flat_map]. rewrite bool_decide_false by lia.
  by replace (S first) with (first + 1) by lia.
Qed.

(** The retry loop from attempt number [attempt] (counted from 0) on:
    it returns, the attempts it makes are [attempt + 1] to [last], every
    one before [last] failed, and the value is the fallback exactly when
    the last one failed too. *)
Lemma retry_loop (remaining attempt : nat) (σ : Backend) :
  attempt + remaining = MAX_RETRIES + 1 → 0 < remaining →
  ∃ v σ' t last,
    downloadAndUploadFrom w bucket sourceUrl storagePath contentType remaining attempt σ
    = (Ok v, σ', t)
    ∧ attempt + 1 ≤ last ≤ MAX_RETRIES + 1
    ∧ timeline t = scheduleBetween (attempt + 1) last
    ∧ (∀ k, attempt ≤ k → k + 1 < last →
         attemptFails w sourceUrl storagePath k = true)
    ∧ (if attemptFails w sourceUrl storagePath (last - 1)
       then v = sourceUrl ∧ σ' = σ ∧ last = MAX_RETRIES + 1
       else v = ("gs://" +:+ bucket_name bucket +:+ "/" +:+ storagePath)).
Proof.
  revert attempt σ. induction remaining as [|remaining IH]; intros attempt σ Hsum Hpos;
    [lia|].
  cbn [downloadAndUploadFrom]. rewrite run_tryCatch.
  destruct (attempt_run attempt σ) as (t0 & Ht0 & [[Hf [e He]]|[Hs [σ' He]]]);
    rewrite He.
  - case_bool_decide as Hretry.
    + destruct (IH (attempt + 1) σ) as (v & σ' & t & last & Hrun & Hb & Htl & Hprev & Hlast);
        [lia|lia|].
      mrun. rewrite Hrun.
      exists v, σ', (t0 ++ EvSleep (RETRY_DELAY_MS * (attempt + 1)) :: t), last.
      split; [done|]. split; [lia|]. split.
      { rewrite timeline_app, Ht0, timeline_sleep, Htl.
        rewrite (scheduleBetween_cons (attempt + 1)) by lia.
        cbn [app]. do 3 f_equal. lia. }
      split; [|done].
      intros k Hk Hk'. destruct (decide (k = attempt)) as [->|]; [done|].
      apply Hprev; lia.
    + mrun. eexists _, _, _, (attempt + 1). split; [done|]. split; [lia|]. split.
      { rewrite timeline_app, Ht0, scheduleBetween_one. done. }
      split; [intros; lia|].
      replace (attempt + 1 - 1) with attempt by lia. rewrite Hf. repeat split. lia.
  - eexists _, _, _, (attempt + 1). split; [done|]. split; [lia|]. split.
    { by rewrite Ht0, scheduleBetween_one. }
    split; [intros; lia|].
    replace (attempt + 1 - 1) with attempt by lia. by rewrite Hs.
Qed.

Lemma downloadAndUpload_returns (σ : Backend) :
  ∃ v σ' t, downloadAndUpload w bucket sourceUrl storagePath contentType σ = (Ok v, σ', t).
Proof.
  destruct (retry_loop (MAX_RETRIES + 1) 0 σ) as (v & σ' & t & ? & Hrun & _); [done|cbn; lia|].
  eauto.
Qed.

Lemma downloadAndUpload_fallback (σ : Backend) :
  unreachable w sourceUrl storagePath →
  ∃ t, downloadAndUpload w bucket sourceUrl storagePath contentType σ
       = (Ok sourceUrl, σ, t).
Proof.
  intros Hall.
  destruct (retry_loop (MAX_RETRIES + 1) 0 σ) as (v & σ' & t & last & Hrun & Hb & _ & _ & Hlast);
    [done|cbn; lia|].
  rewrite Hall in Hlast by lia. destruct Hlast as (-> & -> & _). eauto.
Qed.
End WithWorld.

Section Tracks.
Variables (w : World) (bucket : Bucket).

Lemma processTrack_run (track : TrackRecord) (σ : Backend) :
  ∃ out σ' t, processTrack w bucket track σ = (Ok out, σ', t) ∧ relocated w track out.
Proof.
  unfold processTrack. rewrite run_bind.
  assert (∃ a σ1 t1,
    (if startsWith (audioUrl track) "http"
     then downloadAndUpload w bucket (audioUrl track) (audioPath track) "audio/mpeg"
     else mret (audioUrl track)) σ = (Ok a, σ1, t1)
    ∧ (startsWith (audioUrl track) "http" = false → a = audioUrl track)
    ∧ (unreachable w (audioUrl track) (audioPath track) → a = audioUrl track))
    as (a & σ1 & t1 & -> & Ha1 & Ha2).
  { destruct (startsWith (audioUrl track) "http") eqn:Hhttp.
    - destruct (downloadAndUpload_returns w bucket (audioUrl track) (audioPath track)
                  "audio/mpeg" σ) as (a & σ1 & t1 & Hrun).
      exists a, σ1, t1. split; [done|]. split; [done|]. intros Hall.
      destruct (downloadAndUpload_fallback w bucket _ _ "audio/mpeg" σ Hall) as [t' Hrun'].
      congruence.
    - by exists (audioUrl track), σ, []. }
  rewrite run_bind.
  assert (∃ b σ2 t2,
    (if startsWith (artwork track) "http"
     then downloadAndUpload w bucket (artwork track) (artworkPath track) "image/jpeg"
     else mret (artwork track)) σ1 = (Ok b, σ2, t2)
    ∧ (startsWith (artwork track) "http" = false → b = artwork track)
    ∧ (unreachable w (artwork track) (artworkPath track) → b = artwork track))
    as (b & σ2 & t2 & -> & Hb1 & Hb2).
  { destruct (startsWith (artwork track) "http") eqn:Hhttp.
    - destruct (downloadAndUpload_returns w bucket (artwork track) (artworkPath track)
                  "image/jpeg" σ1) as (b & σ2 & t2 & Hrun).
      exists b, σ2, t2. split; [done|]. split; [done|]. intros Hall.
      destruct (downloadAndUpload_fallback w bucket _ _ "image/jpeg" σ1 Hall) as [t' Hrun'].
      congruence.
    - by exists (artwork track), σ1, []. }
  mrun. eexists _, _, _. split; [done|]. by exists a, b.
Qed.

Lemma settleAll_processTrack (chunk : list TrackRecord) (σ : Backend) :
  ∃ outs σ' t,
    settleAll (map (processTrack w bucket) chunk) σ = (map Ok outs, σ', t)
    ∧ Forall2 (relocated w) chunk outs.
Proof.
  revert σ. induction chunk as [|track chunk IH]; intros σ.
  - by exists [], σ, [].
  - cbn [map settleAll].
    destruct (processTrack_run track σ) as (out & σ1 & t1 & -> & Hout).
    destruct (IH σ1) as (outs & σ2 & t2 & -> & Houts).
    exists (out :: outs), σ2, (t1 ++ t2). split; [done|]. by constructor.
Qed.

Lemma firstRejection_oks {A} (xs : list A) : firstRejection (map Ok xs) = Ok xs.
Proof. induction xs as [|x xs IH]; [done|]. cbn. by rewrite IH. Qed.

Lemma promiseAll_processTrack (chunk : list TrackRecord) (σ : Backend) :
  ∃ outs σ' t,
    promiseAll (map (processTrack w bucket) chunk) σ = (Ok outs, σ', t)
    ∧ Forall2 (relocated w) chunk outs.
Proof.
  destruct (settleAll_processTrack chunk σ) as (outs & σ' & t & Hrun & Houts).
  exists outs, σ', (t ++ []). split; [|done].
  unfold promiseAll, allSettled. mrun. rewrite Hrun. by rewrite firstRejection_oks.
Qed.

Lemma collect_results (p : Progress) (processed : list TrackRecord) :
  results (collect p processed) = results p ++ processed.
Proof.
  unfold collect. revert p. induction processed as [|track processed IH]; intros p; cbn.
  - by rewrite app_nil_r.
  - rewrite IH. cbn. by rewrite <- app_assoc.
Qed.

Lemma uploadWindows_run (total : nat) (windows : list (list TrackRecord))
    (p : Progress) (σ : Backend) :
  ∃ p' σ' t outs,
    uploadWindows w bucket total windows p σ = (Ok p', σ', t)
    ∧ results p' = results p ++ outs
    ∧ Forall2 (relocated w) (concat windows) outs.
Proof.
  revert p σ. induction windows as [|chunk windows IH]; intros p σ.
  - exists p, σ, [], []. cbn. by rewrite app_nil_r.
  - cbn [uploadWindows concat]. rewrite run_bind.
    destruct (promiseAll_processTrack chunk σ) as (outs & σ1 & t1 & -> & Houts).
    rewrite run_bind.
    set (p1 := collect p outs).
    assert (∃ t2,
      (if bool_decide (completed p1 `mod` 20 = 0) || bool_decide (completed p1 = total)
       then log "storage"
              ("Progress: " +:+ pretty (completed p1) +:+ "/" +:+ pretty total +:+ " ("
                 +:+ pretty (storedCount p1) +:+ " stored in Storage)")
       else mret tt) σ1 = (Ok tt, σ1, t2)) as [t2 ->].
    { destruct (_ || _); eauto. }
    destruct (IH p1 σ1) as (p' & σ' & t & outs' & -> & Hres & Houts').
    eexists p', σ', _, (outs ++ outs'). split; [done|]. split.
    + rewrite Hres. unfold p1. rewrite collect_results. by rewrite app_assoc.
    + by apply Forall2_app.
Qed.

Lemma uploadAllTrackAssets_run (tracks : list TrackRecord) (σ : Backend) :
  ∃ outs σ' t,
    uploadAllTrackAssets w bucket tracks σ = (Ok outs, σ', t)
    ∧ Forall2 (relocated w) tracks outs.
Proof.
  unfold uploadAllTrackAssets. case_bool_decide as Hlen.
  - destruct tracks; [|done]. exists [], σ, []. split; [done|]. constructor.
  - rewrite run_bind. unfold log at 1. unfold emit at 1. rewrite run_bind.
    destruct (uploadWindows_run (length tracks) (chunks CONCURRENCY tracks)
                (mkProgress [] 0 0) σ) as (p' & σ' & t & outs & -> & Hres & Houts).
    mrun. eexists _, _, _. split; [done|].
    rewrite Hres. cbn. by rewrite chunks_concat in Houts by (cbv; lia).
Qed.
End Tracks.

(** *** The uploader keeps to the bucket *)

Lemma uploadOnly_ret {A} (x : A) : uploadOnly (mret x).
Proof. intros σ. by repeat split. Qed.

Lemma uploadOnly_throw {A} (e : string) : uploadOnly (throw e : M A).
Proof. intros σ. by repeat split. Qed.

Lemma uploadOnly_liftResult {A} (r : result A) : uploadOnly (liftResult r).
Proof. intros σ. by repeat split. Qed.

Lemma uploadOnly_emit (e : Event) : fromUploader e → uploadOnly (emit e).
Proof. intros He σ. repeat split. by repeat constructor. Qed.

Lemma uploadOnly_setFiles (f : gmap string StoredFile → gmap string StoredFile) :
  uploadOnly (modifyBackend (setFiles f)).
Proof. intros σ. by repeat split. Qed.

Lemma uploadOnly_bind {A B} (m : M A) (f : A → M B) :
  uploadOnly m → (∀ x, uploadOnly (f x)) → uploadOnly (m ≫= f).
Proof.
  intros Hm Hf σ. rewrite run_bind. specialize (Hm σ).
  destruct (m σ) as [[[x|e] σ1] t1]; cbn [fst snd] in *; [|done].
  specialize (Hf x σ1). destruct (f x σ1) as [[r σ2] t2]. cbn [fst snd] in *.
  destruct Hm as (? & ? & ?), Hf as (? & ? & ?).
  repeat split; [congruence|congruence|by apply Forall_app].
Qed.

Lemma uploadOnly_tryCatch {A} (m : M A) (h : string → M A) :
  uploadOnly m → (∀ e, uploadOnly (h e)) → uploadOnly (tryCatch m h).
Proof.
  intros Hm Hh σ. rewrite run_tryCatch. specialize (Hm σ).
  destruct (m σ) as [[[x|e] σ1] t1]; cbn [fst snd] in *; [done|].
  specialize (Hh e σ1). destruct (h e σ1) as [[r σ2] t2]. cbn [fst snd] in *.
  destruct Hm as (? & ? & ?), Hh as (? & ? & ?).
  repeat split; [congruence|congruence|by apply Forall_app].
Qed.

Lemma uploadOnly_promiseAll {A} (tasks : list (M A)) :
  Forall uploadOnly tasks → uploadOnly (promiseAll tasks).
Proof.
  intros Htasks. apply uploadOnly_bind; [|intros; apply uploadOnly_liftResult].
  intros σ. unfold allSettled.
  assert (Hall : tracks (settleAll tasks σ).1.2 = tracks σ
                 ∧ importState (settleAll tasks σ).1.2 = importState σ
                 ∧ Forall fromUploader (settleAll tasks σ).2).
  { revert σ. induction Htasks as [|m tasks Hm _ IH]; intros σ; [by repeat split|].
    cbn [settleAll]. specialize (Hm σ). destruct (m σ) as [[r σ1] t1].
    specialize (IH σ1). destruct (settleAll tasks σ1) as [[rs σ2] t2]. cbn [fst snd] in *.
    destruct Hm as (? & ? & ?), IH as (? & ? & ?).
    repeat split; [congruence|congruence|by apply Forall_app]. }
  by destruct (settleAll tasks σ) as [[rs σ'] t].
Qed.

Section Quiet.
Variables (w : World) (bucket : Bucket).

Lemma uploadOnly_downloadAndUploadFrom (sourceUrl storagePath contentType : string)
    (remaining attempt : nat) :
  uploadOnly (downloadAndUploadFrom w bucket sourceUrl storagePath contentType
                remaining attempt).
Proof.
  revert attempt. induction remaining as [|remaining IH]; intros attempt;
    [apply uploadOnly_ret|].
  cbn [downloadAndUploadFrom]. apply uploadOnly_tryCatch.
  - apply uploadOnly_bind.
    + unfold downloadFile. apply uploadOnly_bind; [by apply uploadOnly_emit|intros _].
      apply uploadOnly_bind; [apply uploadOnly_liftResult|intros response].
      destruct (negb _); [apply uploadOnly_throw|apply uploadOnly_liftResult].
    + intros data. unfold uploadToStorage.
      apply uploadOnly_bind; [by apply uploadOnly_emit|intros _].
      destruct (saveError _ _ _); [apply uploadOnly_throw|].
      apply uploadOnly_bind; [apply uploadOnly_setFiles|intros; apply uploadOnly_ret].
  - intros err. case_bool_decide.
    + apply uploadOnly_bind; [by apply uploadOnly_emit|intros _; apply IH].
    + apply uploadOnly_bind; [by apply uploadOnly_emit|intros; apply uploadOnly_ret].
Qed.

Lemma uploadOnly_processTrack (track : TrackRecord) : uploadOnly (processTrack w bucket track).
Proof.
  unfold processTrack.
  apply uploadOnly_bind.
  { destruct (startsWith _ _); [apply uploadOnly_downloadAndUploadFrom|apply uploadOnly_ret]. }
  intros a. apply uploadOnly_bind; [|intros; apply uploadOnly_ret].
  destruct (startsWith _ _); [apply uploadOnly_downloadAndUploadFrom|apply uploadOnly_ret].
Qed.

Lemma uploadOnly_uploadWindows (total : nat) (windows : list (list TrackRecord))
    (p : Progress) :
  uploadOnly (uploadWindows w bucket total windows p).
Proof.
  revert p. induction windows as [|chunk windows IH]; intros p; [apply uploadOnly_ret|].
  cbn [uploadWindows]. apply uploadOnly_bind.
  { apply uploadOnly_promiseAll, Forall_forall. intros m Hm.
    apply list_elem_of_fmap in Hm as (track & -> & _). apply uploadOnly_processTrack. }
  intros processed. apply uploadOnly_bind; [|intros; apply IH].
  destruct (_ || _); [by apply uploadOnly_emit|apply uploadOnly_ret].
Qed.

Lemma uploadOnly_uploadAllTrackAssets (tracks : list TrackRecord) :
  uploadOnly (uploadAllTrackAssets w bucket tracks).
Proof.
  unfold uploadAllTrackAssets. case_bool_decide; [apply uploadOnly_ret|].
  apply uploadOnly_bind; [by apply uploadOnly_emit|intros _].
  apply uploadOnly_bind; [apply uploadOnly_uploadWindows|intros p].
  apply uploadOnly_bind; [by apply uploadOnly_emit|intros; apply uploadOnly_ret].
Qed.
End Quiet.
End UploaderFacts.

(** ** index.ts *)
Module IndexFacts.
Import Index Observed.

Section WithWorld.
Variable w : World.

Lemma addExisting_spec (snapshots : list Snapshot) (existing : gset string) (x : string) :
  x ∈ addExisting existing snapshots
  ↔ x ∈ existing ∨ ∃ snap, snap ∈ snapshots ∧ snap_exists snap = true ∧ snap_id snap = x.
Proof.
  unfold addExisting. revert existing.
  induction snapshots as [|snap snapshots IH]; intros existing; cbn [foldl].
  - split; [by left|]. intros [?|(? & Hin & _)]; [done|]. by apply elem_of_nil in Hin.
  - rewrite IH. split.
    + intros [Hx|(s' & Hin & Hex & Hid)].
      * destruct (snap_exists snap) eqn:Hsnap; [|by left].
        apply elem_of_union in Hx as [Hx%elem_of_singleton|Hx]; [|by left].
        right. exists snap. split; [left|done].
      * right. exists s'. split; [by right|done].
    + intros [Hx|(s' & Hin & Hex & Hid)].
      * left. destruct (snap_exists snap); [|done]. apply elem_of_union. by right.
      * apply elem_of_cons in Hin as [->|Hin].
        -- left. rewrite Hex. apply elem_of_union. left. by apply elem_of_singleton.
        -- right. by exists s'.
Qed.

(** With no lookup refused, the loop asks once per chunk and returns the
    ids it was given that have a document. *)
Lemma checkChunks_run (cs : list (list string)) (k : nat) (existing : gset string)
    (σ : Backend) :
  (∀ k, getAllError w k = None) →
  ∃ found,
    checkChunks w cs k existing σ = (Ok found, σ, map EvGetAll cs)
    ∧ ∀ x, x ∈ found ↔ x ∈ existing ∨ (x ∈ concat cs ∧ is_Some (tracks σ !! x)).
Proof.
  intros Hok. revert k existing.
  induction cs as [|chunk cs IH]; intros k existing.
  - exists existing. split; [done|]. intros x. cbn. split; [by left|].
    intros [?|[Hin _]]; [done|]. by apply elem_of_nil in Hin.
  - cbn [checkChunks]. unfold getAll. mrun. rewrite Hok.
    set (snaps := map _ chunk).
    destruct (IH (k + 1) (addExisting existing snaps)) as (found & Hrun & Hfound).
    exists found. mrun. rewrite Hrun. split; [done|].
    intros x. rewrite Hfound, addExisting_spec. cbn [concat]. rewrite elem_of_app.
    split.
    + intros [[?|(snap & Hin & Hex & Hid)]|[? ?]]; [by left| |by right; split; [right|]].
      right. apply list_elem_of_fmap in Hin as (i & -> & Hi). cbn in *. subst x.
      split; [by left|]. by apply bool_decide_eq_true in Hex.
    + intros [?|[[Hin|Hin] Hsome]]; [by left; left| |by right].
      left. right. exists (mkSnapshot x (bool_decide (is_Some (tracks σ !! x)))).
      split; [|split; [by apply bool_decide_eq_true|done]].
      apply list_elem_of_fmap. by exists x.
Qed.

Lemma lookups_getAll (cs : list (list string)) : lookups (map EvGetAll cs) = cs.
Proof. unfold lookups. induction cs as [|c cs IH]; [done|]. cbn. by f_equal. Qed.

End WithWorld.

Lemma forEach_emit {A} (l : list A) (g : A → Event) (σ : Backend) :
  forEach l (λ x σ0, (Ok tt, σ0, [g x])) σ = (Ok tt, σ, map g l).
Proof.
  revert σ. induction l as [|x l IH]; intros σ; [done|].
  cbn [forEach]. rewrite (run_bind_ok _ _ σ tt σ [g x]) by reflexivity.
  by rewrite IH.
Qed.

Lemma collectResults_run (validateTrack : TrackRecord → bool)
    (results : list (result SourceResult)) (allTracks : list TrackRecord)
    (allStats : list ImportStats) (σ : Backend) :
  ∃ t,
    collectResults validateTrack results allTracks allStats σ
    = (Ok (allTracks ++ validTracks validateTrack results,
           allStats ++ map openedStat results), σ, t)
    ∧ Forall logged t.
Proof.
  revert allTracks allStats. induction results as [|r results IH]; intros allTracks allStats.
  - exists []. cbn. by rewrite !app_nil_r.
  - destruct r as [sr|reason]; cbn [collectResults].
    + destruct (IH (allTracks ++ filter (λ t, validateTrack t = true) (sr_tracks sr))
                  (allStats ++ [mkStats (sourceName sr) (length (sr_tracks sr)) 0 0
                                  (length (sr_errors sr))])) as (t & Hrun & Ht).
      case_bool_decide; mrun; rewrite Hrun; eexists; cbn [validTracks flat_map map openedStat];
        rewrite <- !app_assoc; (split; [reflexivity|]); [by constructor|done].
    + destruct (IH allTracks (allStats ++ [mkStats "unknown" 0 0 0 1])) as (t & Hrun & Ht).
      mrun. rewrite Hrun. eexists. cbn [validTracks flat_map map openedStat].
      rewrite <- !app_assoc. split; [reflexivity|]. by constructor.
Qed.

Lemma filterNew_empty (allTracks : list TrackRecord) : filterNew ∅ allTracks = allTracks.
Proof.
  unfold filterNew. induction allTracks as [|t l IH]; [done|].
  rewrite filter_cons_True by apply not_elem_of_empty. by rewrite IH.
Qed.

(** [main] with [DRY_RUN=1]: after the adapters have settled it only logs. *)
Lemma main_dry_run (validateTrack : TrackRecord → bool) (w : World)
    (sources : list (option Firestore → M SourceResult)) (σ : Backend) :
  ∃ t1 t2,
    main validateTrack w (Some "1") sources σ
    = (Ok tt, (settleAll (map (λ fetchSource, fetchSource None) sources) σ).1.2,
       [EvLog "main" "=== OpenTune Music Import Starting ===";
        EvLog "main" "Firebase Admin initialized (Firestore + Storage)"]
       ++ (settleAll (map (λ fetchSource, fetchSource None) sources) σ).2
       ++ t1
       ++ let allTracks :=
            validTracks validateTrack
              (settleAll (map (λ fetchSource, fetchSource None) sources) σ).1.1 in
          [EvLog "main" ("Total valid tracks fetched: " +:+ pretty (length allTracks));
           EvLog "main" ("After dedup: " +:+ pretty (length allTracks) +:+ " new, "
                           +:+ pretty 0 +:+ " duplicates");
           EvLog "main" ("[DRY RUN] Would upload " +:+ pretty (length allTracks)
                           +:+ " tracks to Storage")]
          ++ t2
          ++ [EvLog "main" ("Total new tracks written: " +:+ pretty (length allTracks));
              EvLog "main" ("Completed in " +:+ elapsed w +:+ "s")])
    ∧ Forall logged t1 ∧ Forall logged t2
    ∧ EvLog "main" ("[DRY RUN] Would write "
                      +:+ pretty (length (validTracks validateTrack
                            (settleAll (map (λ fetchSource, fetchSource None) sources) σ).1.1))
                      +:+ " tracks to Firestore") ∈ t2.
Proof.
  unfold main. rewrite bool_decide_true by done. unfold allSettled. mrun.
  cbn [fmap option_fmap option_map].
  destruct (settleAll _ σ) as [[results σ1] t0]. cbn [fst snd].
  destruct (collectResults_run validateTrack results [] [] σ1) as (t1 & Hrun & Ht1).
  rewrite Hrun. cbn [app]. rewrite filterNew_empty, Nat.sub_diag.
  unfold uploadStage, writeStage. mrun. rewrite !forEach_emit. mrun.
  eexists t1,
    (map _ (slice 0 5 (validTracks validateTrack results))
     ++ EvLog "main" _ :: EvLog "main" "=== Import Summary ===" :: map _ _).
  split.
  { rewrite app_nil_r, <- !app_assoc. cbn [app]. reflexivity. }
  split; [done|]. split.
  - apply Forall_app. split; [|do 2 (constructor; [done|])].
    + apply Forall_forall. intros e He. by apply list_elem_of_fmap in He as (? & -> & _).
    + apply Forall_forall. intros e He. by apply list_elem_of_fmap in He as (? & -> & _).
  - apply elem_of_app. right. apply elem_of_cons. by left.
Qed.
End IndexFacts.

(** ** sources/*.ts *)
Module AdapterFacts.
Import Adapter Rotation Observed.

Lemma partitionAt_mod (PARTITIONS : list string) (i k ct : nat) :
  partitionAt PARTITIONS (i `mod` length PARTITIONS + k) ct
  = partitionAt PARTITIONS (i + k) ct.
Proof.
  unfold partitionAt. f_equal.
  rewrite <- !Nat.add_assoc. apply Nat.Div0.add_mod_idemp_l.
Qed.

(** Two turns of one run select different partitions. *)
Lemma partitionAt_ne (PARTITIONS : list string) (i c c' : nat) :
  NoDup PARTITIONS → c < c' → c' - c < length PARTITIONS →
  partitionAt PARTITIONS i c ≠ partitionAt PARTITIONS i c'.
Proof.
  intros Hnd Hlt Hd Heq. unfold partitionAt in Heq.
  set (P := length PARTITIONS) in *.
  assert (HP : 0 < P) by lia.
  assert (H1 : (i + c) `mod` P < P) by (apply Nat.mod_upper_bound; lia).
  assert (H2 : (i + c') `mod` P < P) by (apply Nat.mod_upper_bound; lia).
  pose proof (list_lookup_lookup_total_lt PARTITIONS _ H1) as L1.
  pose proof (list_lookup_lookup_total_lt PARTITIONS _ H2) as L2.
  rewrite Heq in L1.
  pose proof (NoDup_lookup _ _ _ _ Hnd L1 L2) as Hidx.
  pose proof (Nat.div_mod_eq (i + c) P). pose proof (Nat.div_mod_eq (i + c') P).
  assert (Hq : P * ((i + c') / P) = P * ((i + c) / P) + (c' - c)) by lia.
  assert ((i + c) / P ≤ (i + c') / P) by (apply Nat.Div0.div_le_mono; lia).
  assert (Hk : ∃ k, (i + c') / P = (i + c) / P + k) by (eexists ((i + c') / P - (i + c) / P); lia).
  destruct Hk as [k Hk]. rewrite Hk in Hq.
  destruct k as [|k]; nia.
Qed.

Section Rotating.
Context {Raw : Type}.
Variables (SOURCE STATE_DOC : string) (PARTITIONS : list string).
Variables (perRun PAGE_SIZE delay : nat).
Variable asked : nat → nat.
Variable convert : string → Raw → option (string * result TrackRecord).
Variable sanitizeTrack : TrackRecord → TrackRecord.
Variable msg : Messages.

Lemma addRecords_offsets (partition : string) (records : list Raw) (acc : Acc) :
  acc_offsets (addRecords convert sanitizeTrack partition records acc).1 = acc_offsets acc.
Proof.
  revert acc. induction records as [|record records IH]; intros acc; [done|].
  cbn [addRecords]. destruct (convert partition record) as [[rid [track|e]]|]; [| |done].
  - case_bool_decide; [done|]. by rewrite IH.
  - by case_bool_decide.
Qed.

(** One turn of the partition loop: it returns, leaves the backend alone,
    asks for its partition once, and changes no stored offset but that of
    its partition, which it sets as the outcome of the turn says. *)
Lemma fetchPartition_run (env : Env Raw) (state : ProviderState) (acc : Acc) (ct : nat)
    (σ : Backend) :
  let partition := partitionAt PARTITIONS (index state) ct in
  let offset := default 0 (acc_offsets acc !! partition) in
  ∃ acc' t,
    fetchPartition SOURCE PARTITIONS PAGE_SIZE delay asked convert sanitizeTrack msg env
      state acc ct σ = (Ok acc', σ, t)
    ∧ queried t = [partition]
    ∧ acc_offsets acc'
      = match outcome (request env partition (asked offset))
                (match request env partition (asked offset) with
                 | Response _ _ (Ok (Some records)) =>
                     (addRecords convert sanitizeTrack partition records acc).2
                 | _ => None
                 end) with
        | Exhausted => <[partition := 0]> (acc_offsets acc)
        | Advanced => <[partition := offset + PAGE_SIZE]> (acc_offsets acc)
        | Failed => acc_offsets acc
        end.
Proof.
  intros partition offset. unfold fetchPartition.
  fold (partitionAt PARTITIONS (index state) ct). fold partition. fold offset.
  mrun. destruct (request env partition (asked offset)) as [e|ok status json].
  { eexists _, _. repeat split. }
  destruct ok; cbn [negb]; [|eexists _, _; repeat split].
  destruct json as [[[|record records]|]|e]; try (eexists _, _; repeat split; fail).
  cbn [outcome].
  pose proof (addRecords_offsets partition (record :: records) acc) as Hoff.
  destruct (addRecords convert sanitizeTrack partition (record :: records) acc)
    as [acc1 [e|]]; cbn [fst snd] in *.
  - eexists _, _. repeat split. done.
  - mrun. eexists _, _. repeat split. cbn. by rewrite Hoff.
Qed.

Lemma queried_app (t1 t2 : list Event) : queried (t1 ++ t2) = queried t1 ++ queried t2.
Proof. apply omap_app. Qed.

(** The partition loop from counter [c] on: it returns, leaves the backend
    alone, asks for the partitions of its turns in order, and leaves the
    stored offset of every other partition as it was. *)
Lemma fetchPartitions_run (env : Env Raw) (state : ProviderState) (remaining c : nat)
    (acc : Acc) (σ : Backend) :
  ∃ acc' t,
    fetchPartitions SOURCE PARTITIONS PAGE_SIZE delay asked convert sanitizeTrack msg env
      state acc remaining c σ = (Ok acc', σ, t)
    ∧ queried t = map (partitionAt PARTITIONS (index state)) (seq c remaining)
    ∧ ∀ key,
        (∀ c', c ≤ c' < c + remaining → partitionAt PARTITIONS (index state) c' ≠ key) →
        acc_offsets acc' !! key = acc_offsets acc !! key.
Proof.
  revert c acc. induction remaining as [|remaining IH]; intros c acc.
  - by exists acc, [].
  - cbn [fetchPartitions]. rewrite run_bind.
    destruct (fetchPartition_run env state acc c σ) as (acc1 & t1 & -> & Hq1 & Hoff1).
    destruct (IH (c + 1) acc1) as (acc2 & t2 & -> & Hq2 & Hframe).
    exists acc2, (t1 ++ t2). split; [done|]. split.
    + rewrite queried_app, Hq1, Hq2. cbn [seq map app].
      by replace (c + 1) with (S c) by lia.
    + intros key Hkey. rewrite Hframe by (intros; apply Hkey; lia).
      rewrite Hoff1. assert (partitionAt PARTITIONS (index state) c ≠ key) by (apply Hkey; lia).
      destruct (outcome _ _); by rewrite ?lookup_insert_ne.
Qed.

Lemma fetchPartitions_split (env : Env Raw) (state : ProviderState) (n m c : nat)
    (acc : Acc) (σ : Backend) :
  ∃ acc1 acc2 t1 t2,
    fetchPartitions SOURCE PARTITIONS PAGE_SIZE delay asked convert sanitizeTrack msg env
      state acc n c σ = (Ok acc1, σ, t1)
    ∧ fetchPartitions SOURCE PARTITIONS PAGE_SIZE delay asked convert sanitizeTrack msg env
        state acc1 m (c + n) σ = (Ok acc2, σ, t2)
    ∧ fetchPartitions SOURCE PARTITIONS PAGE_SIZE delay asked convert sanitizeTrack msg env
        state acc (n + m) c σ = (Ok acc2, σ, t1 ++ t2).
Proof.
  revert c acc. induction n as [|n IH]; intros c acc.
  - destruct (fetchPartitions_run env state m c acc σ) as (acc2 & t2 & Hrun & _).
    exists acc, acc2, [], t2. by rewrite Nat.add_0_r.
  - destruct (fetchPartition_run env state acc c σ) as (acc' & t' & Hrun' & _).
    destruct (IH (c + 1) acc') as (acc1 & acc2 & t1 & t2 & H1 & H2 & H12).
    exists acc1, acc2, (t' ++ t1), t2.
    replace (c + S n) with (c + 1 + n) by lia.
    cbn [fetchPartitions Nat.add]. rewrite !run_bind, Hrun', H1, H12.
    by rewrite app_assoc.
Qed.

(** The turn of counter [ct] within a whole run, when the turns of the run
    select different partitions: the offset of its partition after the run is
    the one its own turn left. *)
Lemma fetchPartitions_at (env : Env Raw) (state : ProviderState) (acc : Acc) (ct : nat)
    (σ : Backend) :
  NoDup PARTITIONS → perRun ≤ length PARTITIONS → ct < perRun →
  let partition := partitionAt PARTITIONS (index state) ct in
  let offset := default 0 (acc_offsets acc !! partition) in
  ∃ accBefore accFinal t0 t,
    fetchPartitions SOURCE PARTITIONS PAGE_SIZE delay asked convert sanitizeTrack msg env
      state acc ct 0 σ = (Ok accBefore, σ, t0)
    ∧ fetchPartitions SOURCE PARTITIONS PAGE_SIZE delay asked convert sanitizeTrack msg env
        state acc perRun 0 σ = (Ok accFinal, σ, t)
    ∧ acc_offsets accFinal !! partition
      = match outcome (request env partition (asked offset))
                (match request env partition (asked offset) with
                 | Response _ _ (Ok (Some records)) =>
                     (addRecords convert sanitizeTrack partition records accBefore).2
                 | _ => None
                 end) with
        | Exhausted => Some 0
        | Advanced => Some (offset + PAGE_SIZE)
        | Failed => acc_offsets acc !! partition
        end.
Proof.
  intros Hnd Hle Hct partition offset.
  destruct (fetchPartitions_split env state ct (perRun - ct) 0 acc σ)
    as (accBefore & accFinal & t0 & t1 & Hbefore & Hrest & Hall).
  replace (ct + (perRun - ct)) with perRun in Hall by lia.
  exists accBefore, accFinal, t0, (t0 ++ t1). split; [done|]. split; [done|].
  destruct (fetchPartitions_run env state ct 0 acc σ) as (acc1 & t1' & Hrun1 & _ & Hframe1).
  rewrite Hbefore in Hrun1. injection Hrun1 as <- <-.
  assert (Hsame : acc_offsets accBefore !! partition = acc_offsets acc !! partition).
  { apply Hframe1. intros c' Hc'. apply partitionAt_ne; [done|lia|lia]. }
  replace (perRun - ct) with (S (perRun - ct - 1)) in Hrest by lia.
  cbn [fetchPartitions Nat.add] in Hrest. rewrite run_bind in Hrest.
  destruct (fetchPartition_run env state accBefore ct σ) as (accMid & tm & Hmid & _ & Hoff).
  rewrite Hmid in Hrest.
  destruct (fetchPartitions_run env state (perRun - ct - 1) (ct + 1) accMid σ)
    as (acc2 & t2 & Hrun2 & _ & Hframe2).
  rewrite Hrun2 in Hrest. injection Hrest as <- _.
  rewrite Hframe2.
  2: { intros c' Hc'. apply not_eq_sym, partitionAt_ne; [done|lia|lia]. }
  rewrite Hoff. fold partition. rewrite Hsame. fold offset.
  match goal with |- context [outcome ?reply ?e] => destruct (outcome reply e) end;
    by rewrite ?lookup_insert_eq.
Qed.

(** A run that can read and write its progress document. *)
Lemma fetchRotating_run (env : Env Raw) (σ : Backend) :
  stateReachable env →
  let state := storedState STATE_DOC σ in
  ∃ acc t,
    fetchPartitions SOURCE PARTITIONS PAGE_SIZE delay asked convert sanitizeTrack msg env
      state (mkAcc [] [] ∅ (offsets state)) perRun 0 σ = (Ok acc, σ, t)
    ∧ ∃ t',
        fetchRotating SOURCE STATE_DOC PARTITIONS perRun PAGE_SIZE delay asked convert
          sanitizeTrack msg env (Some FirestoreClient) σ
        = (Ok (mkSourceResult SOURCE (acc_tracks acc) (acc_errors acc)),
           setImportState
             (insert STATE_DOC
                (mkState ((index state + perRun) `mod` length PARTITIONS)
                   (acc_offsets acc) (now env))) σ,
           t')
        ∧ queried t' = queried t.
Proof.
  intros [Hget Hset] state.
  destruct (fetchPartitions_run env state perRun 0 (mkAcc [] [] ∅ (offsets state)) σ)
    as (acc & t & Hrun & _).
  exists acc, t. split; [done|].
  unfold fetchRotating, loadState, saveState. mrun. rewrite Hget, Hset. mrun.
  fold (storedState STATE_DOC σ). fold state. rewrite Hrun.
  eexists. split; [reflexivity|].
  change (queried (?e :: ?l)) with (queried [e] ++ queried l).
  rewrite queried_app. cbn. by rewrite app_nil_r.
Qed.

(** A run without a database handle leaves the backend as it found it. *)
Lemma fetchRotating_without_db (env : Env Raw) (σ : Backend) :
  backendOf (fetchRotating SOURCE STATE_DOC PARTITIONS perRun PAGE_SIZE delay asked convert
               sanitizeTrack msg env None σ) = σ.
Proof.
  unfold fetchRotating, loadState, saveState. mrun.
  destruct (fetchPartitions_run env defaultState perRun 0
              (mkAcc [] [] ∅ (offsets defaultState)) σ) as (acc & t & Hrun & _).
  by rewrite Hrun.
Qed.

(** Consecutive runs that can read and write the progress document: run
    number [r] (from 0) asks for the partitions the rotation index selects
    after [r] advances of [perRun]. *)
Lemma consecutiveRuns_queried (envs : list (Env Raw)) (σ : Backend) (r : nat) :
  Forall stateReachable envs → r < length envs →
  ∃ t,
    (consecutiveRuns
       (λ env, fetchRotating SOURCE STATE_DOC PARTITIONS perRun PAGE_SIZE delay asked
                 convert sanitizeTrack msg env (Some FirestoreClient)) envs σ).1 !! r
    = Some t
    ∧ queried t
      = map (partitionAt PARTITIONS (index (storedState STATE_DOC σ) + r * perRun))
          (seq 0 perRun).
Proof.
  revert σ r. induction envs as [|env envs IH]; intros σ r Hok Hr; [cbn in Hr; lia|].
  apply Forall_cons in Hok as [Henv Hok].
  destruct (fetchRotating_run env σ Henv) as (acc & t & Hloop & t' & Hrun & Hq).
  destruct (fetchPartitions_run env (storedState STATE_DOC σ) perRun 0
              (mkAcc [] [] ∅ (offsets (storedState STATE_DOC σ))) σ)
    as (acc1 & t1 & Hloop1 & Hq1 & _).
  rewrite Hloop in Hloop1. injection Hloop1 as <- <-.
  cbn [consecutiveRuns]. rewrite Hrun.
  match goal with |- context [consecutiveRuns ?run envs ?σ1] =>
    specialize (IH σ1); destruct (consecutiveRuns run envs σ1) as [ts σ2] eqn:Hrest end.
  destruct r as [|r]; cbn [fst lookup list_lookup].
  - exists t'. split; [done|]. rewrite Hq, Hq1. by rewrite Nat.add_0_r.
  - destruct (IH r Hok) as (tr & Htr & Hqr); [cbn in Hr; lia|].
    exists tr. split; [done|]. rewrite Hqr. apply map_ext. intros ct.
    unfold storedState at 1. cbn. rewrite lookup_insert_eq. cbn.
    rewrite partitionAt_mod. f_equal. lia.
Qed.

(** Advancing by [perRun] reaches every partition within [R] runs when
    [R * perRun] is at least the number of partitions. *)
Lemma rotation_reaches (i0 R : nat) (partition : string) :
  partition ∈ PARTITIONS → length PARTITIONS ≤ R * perRun →
  ∃ r ct, r < R ∧ ct < perRun ∧ partitionAt PARTITIONS (i0 + r * perRun) ct = partition.
Proof.
  intros Hin HR. apply list_elem_of_lookup in Hin as [j Hj].
  pose proof (lookup_lt_Some _ _ _ Hj) as Hlt.
  set (P := length PARTITIONS) in *.
  assert (Ha : i0 `mod` P < P) by (apply Nat.mod_upper_bound; lia).
  set (a := i0 `mod` P) in *.
  assert (∃ d, d < P ∧ (a + d) `mod` P = j) as (d & HdP & Hdj).
  { destruct (decide (a ≤ j)).
    - exists (j - a). split; [lia|]. replace (a + (j - a)) with j by lia.
      by apply Nat.mod_small.
    - exists (j + P - a). split; [lia|]. replace (a + (j + P - a)) with (j + 1 * P) by lia.
      rewrite Nat.Div0.mod_add. by apply Nat.mod_small. }
  assert (Hn : 0 < perRun) by (destruct perRun; [rewrite Nat.mul_0_r in HR|]; lia).
  exists (d / perRun), (d `mod` perRun). split.
  { apply Nat.Div0.div_lt_upper_bound. lia. }
  split; [apply Nat.mod_upper_bound; lia|].
  unfold partitionAt. fold P.
  replace (i0 + d / perRun * perRun + d `mod` perRun) with (i0 + d)
    by (pose proof (Nat.div_mod_eq d perRun); lia).
  rewrite <- Nat.Div0.add_mod_idemp_l. fold a. rewrite Hdj.
  by apply list_lookup_total_correct.
Qed.
End Rotating.

Lemma discogs_with_token (token : string) (sanitizeTrack : TrackRecord → TrackRecord)
    (env : Env Discogs.Raw.DiscogsRelease) (db : option Firestore) :
  truthy token = true →
  Discogs.fetchDiscogs (Some token) sanitizeTrack env db
  = fetchRotating Discogs.SOURCE Discogs.STATE_DOC Discogs.SEARCHES Discogs.searchesToFetch
      Discogs.PAGE_SIZE 600 Discogs.page Discogs.convert sanitizeTrack Discogs.messages env db.
Proof. intros Htoken. unfold Discogs.fetchDiscogs. by destruct token. Qed.

(** The partitions of each adapter are pairwise different and at least as
    many as the adapter asks for in a run. *)
Lemma ccmixter_partitions :
  NoDup CCMixter.CONTENT_TYPES ∧ CCMixter.typesToFetch ≤ length CCMixter.CONTENT_TYPES.
Proof. split; [|cbv; lia]. apply (bool_decide_unpack _). by vm_compute. Qed.

Lemma musicbrainz_partitions :
  NoDup MusicBrainz.TAG_FILTERS ∧ MusicBrainz.tagsToFetch ≤ length MusicBrainz.TAG_FILTERS.
Proof. split; [|cbv; lia]. apply (bool_decide_unpack _). by vm_compute. Qed.

Lemma discogs_partitions :
  NoDup Discogs.SEARCHES ∧ Discogs.searchesToFetch ≤ length Discogs.SEARCHES.
Proof. split; [|cbv; lia]. apply (bool_decide_unpack _). by vm_compute. Qed.
End AdapterFacts.

Import StorageUploader Retry Observed.

(** The schedule of a reference that is given up after three failed attempts,
    and of one that succeeds at its second. *)
Example retrySchedule_three :
  retrySchedule 3 = [Attempt 1; Delay 2000; Attempt 2; Delay 4000; Attempt 3].
Proof. reflexivity. Qed.

Example retrySchedule_two : retrySchedule 2 = [Attempt 1; Delay 2000; Attempt 2].
Proof. reflexivity. Qed.

(** C5: whatever the outside world answers, [downloadAndUpload] makes between
    one and [MAX_RETRIES + 1 = 3] attempts on a reference, a further attempt
    only after a failed one, and the delay it sleeps between attempt number
    [n] (counted from 1) and the next one is [n * RETRY_DELAY_MS]. *)
Theorem C5_retry_schedule (w : World) (bucket : Bucket)
    (sourceUrl storagePath contentType : string) (σ : Backend) :
  ∃ attempts,
    1 ≤ attempts ≤ MAX_RETRIES + 1
    ∧ MAX_RETRIES = 2
    ∧ timeline (traceOf (downloadAndUpload w bucket sourceUrl storagePath contentType σ))
      = retrySchedule attempts
    ∧ ∀ n, 1 ≤ n < attempts → attemptFails w sourceUrl storagePath (n - 1) = true.
Proof.
  destruct (UploaderFacts.retry_loop w bucket sourceUrl storagePath contentType
              (MAX_RETRIES + 1) 0 σ) as (v & σ' & t & last & Hrun & Hb & Htl & Hprev & _);
    [done|cbn; lia|].
  exists last. unfold downloadAndUpload. rewrite Hrun. cbn [traceOf snd].
  split; [lia|]. split; [done|]. split; [done|].
  intros n Hn. apply Hprev; lia.
Qed.

(** C10: [uploadAllTrackAssets] returns, with one record per input record and
    in the same order; a returned record differs from its input record in
    [audioUrl] and [artwork] at most, and in neither when neither starts with
    "http". *)
Theorem C10_upload_frame (w : World) (bucket : Bucket) (tracks : list TrackRecord)
    (σ : Backend) :
  ∃ outs,
    valueOf (uploadAllTrackAssets w bucket tracks σ) = Ok outs
    ∧ length outs = length tracks
    ∧ ∀ i track, tracks !! i = Some track →
        ∃ out, outs !! i = Some out
          ∧ sameExceptAssets track out
          ∧ (startsWith (audioUrl track) "http" = false →
             startsWith (artwork track) "http" = false →
             audioUrl out = audioUrl track ∧ artwork out = artwork track).
Proof.
  destruct (UploaderFacts.uploadAllTrackAssets_run w bucket tracks σ)
    as (outs & σ' & t & Hrun & Houts).
  exists outs. rewrite Hrun. split; [done|]. split.
  { symmetry. by eapply Forall2_length. }
  intros i track Hi.
  destruct (Forall2_lookup_l _ _ _ _ _ Houts Hi) as (out & Hout & a & b & -> & Ha & Hb & _).
  exists (withAssets track a b). split; [done|]. split.
  { by repeat split. }
  intros Haudio Hart. cbn. by rewrite Ha, Hb.
Qed.

(** C2: with no lookup refused, [batchCheckExisting] asks the catalog once per
    chunk, the chunks being consecutive pieces of the id list of between 1 and
    100 ids; it returns the candidate ids that have a document, and the
    orchestrator's filter keeps exactly the candidates whose id has none. *)
Theorem C2_dedup_complete (w : Index.World) (db : Firestore)
    (allTracks : list TrackRecord) (σ : Backend) :
  (∀ k, Index.getAllError w k = None) →
  ∃ existingIds,
    valueOf (Index.batchCheckExisting w db (map id allTracks) σ) = Ok existingIds
    ∧ lookups (traceOf (Index.batchCheckExisting w db (map id allTracks) σ))
      = chunks Index.CHUNK (map id allTracks)
    ∧ concat (chunks Index.CHUNK (map id allTracks)) = map id allTracks
    ∧ Forall (λ chunk, 1 ≤ length chunk ≤ 100) (chunks Index.CHUNK (map id allTracks))
    ∧ (∀ x, x ∈ existingIds ↔ x ∈ map id allTracks ∧ is_Some (tracks σ !! x))
    ∧ (∀ t, t ∈ Index.filterNew existingIds allTracks
            ↔ t ∈ allTracks ∧ tracks σ !! id t = None).
Proof.
  intros Hok. unfold Index.batchCheckExisting.
  destruct (IndexFacts.checkChunks_run w (chunks Index.CHUNK (map id allTracks)) 0 ∅ σ Hok)
    as (found & Hrun & Hfound).
  assert (Hpos : 0 < Index.CHUNK) by (cbv; lia).
  assert (Hin : ∀ x, x ∈ found ↔ x ∈ map id allTracks ∧ is_Some (tracks σ !! x)).
  { intros x. rewrite Hfound, chunks_concat by done. split; [|by right].
    intros [Hx|?]; [|done]. by apply not_elem_of_empty in Hx. }
  exists found. rewrite Hrun. cbn [valueOf traceOf fst snd].
  split; [done|]. split.
  { apply IndexFacts.lookups_getAll. }
  split; [by apply chunks_concat|]. split; [by apply chunks_bounds|]. split; [done|].
  intros t. unfold Index.filterNew. rewrite list_elem_of_filter, Hin.
  split.
  - intros [Hnot Ht]. split; [done|].
    destruct (tracks σ !! id t) eqn:Hlook; [|done].
    exfalso. apply Hnot. split; [|by eexists]. apply list_elem_of_fmap. by exists t.
  - intros [Ht Hnone]. split; [|done]. intros [_ [? Hsome]]. congruence.
Qed.

Lemma C2_dedup_complete_witness :
  (∀ k, Index.getAllError (Sample.world Sample.reachableStore) k = None)
  ∧ ∃ existingIds,
      valueOf (Index.batchCheckExisting (Sample.world Sample.reachableStore) FirestoreClient
                 (map id [Sample.track "1"; Sample.track "3"]) Sample.catalog)
      = Ok existingIds
      ∧ lookups (traceOf (Index.batchCheckExisting (Sample.world Sample.reachableStore)
                            FirestoreClient
                            (map id [Sample.track "1"; Sample.track "3"]) Sample.catalog))
        = chunks Index.CHUNK (map id [Sample.track "1"; Sample.track "3"])
      ∧ concat (chunks Index.CHUNK (map id [Sample.track "1"; Sample.track "3"]))
        = map id [Sample.track "1"; Sample.track "3"]
      ∧ Forall (λ chunk, 1 ≤ length chunk ≤ 100)
          (chunks Index.CHUNK (map id [Sample.track "1"; Sample.track "3"]))
      ∧ (∀ x, x ∈ existingIds
              ↔ x ∈ map id [Sample.track "1"; Sample.track "3"]
                ∧ is_Some (tracks Sample.catalog !! x))
      ∧ (∀ t, t ∈ Index.filterNew existingIds [Sample.track "1"; Sample.track "3"]
              ↔ t ∈ [Sample.track "1"; Sample.track "3"]
                ∧ tracks Sample.catalog !! id t = None).
Proof.
  split; [reflexivity|].
  apply (C2_dedup_complete (Sample.world Sample.reachableStore) FirestoreClient
           [Sample.track "1"; Sample.track "3"] Sample.catalog).
  reflexivity.
Defined.

(** On the sample catalog the filter keeps the one candidate that is new. *)
Example dedup_sample :
  ∃ existingIds,
    valueOf (Index.batchCheckExisting (Sample.world Sample.reachableStore) FirestoreClient
               (map id [Sample.track "1"; Sample.track "3"]) Sample.catalog)
    = Ok existingIds
    ∧ Index.filterNew existingIds [Sample.track "1"; Sample.track "3"] = [Sample.track "3"].
Proof. eexists. split; [reflexivity|]. vm_compute. reflexivity. Qed.



(** The run of [downloadAndUpload] on a reference of an unreachable store:
    three attempts, the two delays, the final message, and the source URL as
    its value. *)
Example fallback_sample :
  downloadAndUpload Sample.unreachableStore Sample.bucket
    "https://ccmixter.org/4download/file/3" "imports/ccmixter/ccmixter-3.mp3" "audio/mpeg"
    Sample.emptyBackend
  = (Ok "https://ccmixter.org/4download/file/3", Sample.emptyBackend,
     [EvDownload "https://ccmixter.org/4download/file/3" 0; EvSleep 2000;
      EvDownload "https://ccmixter.org/4download/file/3" 1; EvSleep 4000;
      EvDownload "https://ccmixter.org/4download/file/3" 2;
      EvLog "storage"
        "Failed after 3 attempts: imports/ccmixter/ccmixter-3.mp3 - connect ECONNREFUSED"]).
Proof. vm_compute. reflexivity. Qed.

Import Adapter Rotation.

(** C7: with [DISCOGS_TOKEN] unset the Discogs adapter returns at once, with
    no track and the one error "DISCOGS_TOKEN not set"; it asks the provider
    and the database for nothing, changes nothing, and settles as fulfilled
    among the adapters the orchestrator waits for. *)
Theorem C7_missing_token (sanitizeTrack : TrackRecord → TrackRecord)
    (env : Env Discogs.Raw.DiscogsRelease) (db : option Firestore) (σ : Backend) :
  Discogs.fetchDiscogs None sanitizeTrack env db σ
  = (Ok (mkSourceResult "discogs" [] ["DISCOGS_TOKEN not set"]), σ, [])
  ∧ allSettled [Discogs.fetchDiscogs None sanitizeTrack env db] σ
    = (Ok [Ok (mkSourceResult "discogs" [] ["DISCOGS_TOKEN not set"])], σ, []).
Proof. split; reflexivity. Qed.

(** C8: with [DRY_RUN=1] the orchestrator runs the adapters without a
    database handle, keeps their valid tracks, filters them against the empty
    set of known ids, and from then on only logs: the run ends with the
    backend as the adapters left it, every event of the orchestrator itself is
    a log line (no lookup, download, upload or commit), and the two lines for
    the skipped upload and write are among them.  An adapter without a handle
    leaves the backend as it is. *)
Theorem C8_dry_run_only_logs (validateTrack : TrackRecord → bool) (w : Index.World)
    (sources : list (option Firestore → M SourceResult)) (σ : Backend) :
  let fetched := settleAll (map (λ fetchSource, fetchSource None) sources) σ in
  let allTracks := validTracks validateTrack fetched.1.1 in
  (∃ before after,
     Index.main validateTrack w (Some "1") sources σ
     = (Ok tt, fetched.1.2, before ++ fetched.2 ++ after)
     ∧ Forall logged before ∧ Forall logged after
     ∧ EvLog "main" ("[DRY RUN] Would upload " +:+ pretty (length allTracks)
                       +:+ " tracks to Storage") ∈ after
     ∧ EvLog "main" ("[DRY RUN] Would write " +:+ pretty (length allTracks)
                       +:+ " tracks to Firestore") ∈ after)
  ∧ Index.filterNew ∅ allTracks = allTracks
  ∧ (∀ Raw SOURCE STATE_DOC PARTITIONS perRun PAGE_SIZE delay asked convert sanitizeTrack
       msg (env : Env Raw) σ0,
       backendOf (fetchRotating SOURCE STATE_DOC PARTITIONS perRun PAGE_SIZE delay asked
                    convert sanitizeTrack msg env None σ0) = σ0).
Proof.
  intros fetched allTracks. split; [|split].
  - destruct (IndexFacts.main_dry_run validateTrack w sources σ)
      as (t1 & t2 & Hrun & Ht1 & Ht2 & Hwrite).
    fold fetched in Hrun, Hwrite. fold allTracks in Hwrite. cbv zeta in Hrun.
    fold allTracks in Hrun.
    eexists [_; _], (t1 ++ [_; _; _] ++ t2 ++ [_; _]).
    split; [exact Hrun|]. split; [by repeat constructor|]. split.
    { apply Forall_app. split; [done|]. apply Forall_app. split; [by repeat constructor|].
      apply Forall_app. split; [done|]. by repeat constructor. }
    split.
    + apply elem_of_app. right. apply elem_of_app. left. rewrite !elem_of_cons. auto.
    + apply elem_of_app. right. apply elem_of_app. right. apply elem_of_app. by left.
  - apply IndexFacts.filterNew_empty.
  - intros. apply AdapterFacts.fetchRotating_without_db.
Qed.

(** C3: take an adapter that asks for [perRun] partitions a run, those the
    rotation index selects, and advances the index by [perRun] modulo the
    number of partitions.  Over consecutive runs that can read and write the
    progress document, run number [r] asks for the partitions at positions
    [index + r * perRun], ..., [index + r * perRun + perRun - 1] modulo the
    number of partitions, whatever index the first run starts from; when the
    number of runs times [perRun] is at least the number of partitions, every
    partition is asked for in one of the runs. *)
Theorem C3_rotation_covers {Raw : Type} (SOURCE STATE_DOC : string)
    (PARTITIONS : list string) (perRun PAGE_SIZE delay : nat) (asked : nat → nat)
    (convert : string → Raw → option (string * result TrackRecord))
    (sanitizeTrack : TrackRecord → TrackRecord) (msg : Messages)
    (envs : list (Env Raw)) (σ : Backend) (partition : string) :
  Forall stateReachable envs →
  length PARTITIONS ≤ length envs * perRun →
  partition ∈ PARTITIONS →
  let runs :=
    (consecutiveRuns
       (λ env, fetchRotating SOURCE STATE_DOC PARTITIONS perRun PAGE_SIZE delay asked
                 convert sanitizeTrack msg env (Some FirestoreClient)) envs σ).1 in
  (∀ r, r < length envs →
     ∃ t, runs !! r = Some t
       ∧ queried t
         = map (partitionAt PARTITIONS (index (storedState STATE_DOC σ) + r * perRun))
             (seq 0 perRun))
  ∧ ∃ r t, r < length envs ∧ runs !! r = Some t ∧ partition ∈ queried t.
Proof.
  intros Hok HR Hin runs.
  assert (Hruns : ∀ r, r < length envs →
    ∃ t, runs !! r = Some t
      ∧ queried t
        = map (partitionAt PARTITIONS (index (storedState STATE_DOC σ) + r * perRun))
            (seq 0 perRun)).
  { intros r Hr. by apply AdapterFacts.consecutiveRuns_queried. }
  split; [done|].
  destruct (AdapterFacts.rotation_reaches PARTITIONS perRun
              (index (storedState STATE_DOC σ)) (length envs) partition Hin HR)
    as (r & ct & Hr & Hct & Hpart).
  destruct (Hruns r Hr) as (t & Ht & Hq).
  exists r, t. split; [done|]. split; [done|].
  rewrite Hq. apply list_elem_of_fmap. exists ct. split; [done|].
  apply elem_of_seq. lia.
Qed.

Lemma C3_rotation_covers_witness :
  let runs :=
    (consecutiveRuns
       (λ env, CCMixter.fetchCCMixter (λ t, t) env (Some FirestoreClient))
       [Sample.emptyPages; Sample.emptyPages] Sample.emptyBackend).1 in
  ∃ r t, r < 2 ∧ runs !! r = Some t ∧ "cover" ∈ queried t.
Proof.
  refine (proj2 (C3_rotation_covers CCMixter.SOURCE CCMixter.STATE_DOC CCMixter.CONTENT_TYPES
                   CCMixter.typesToFetch CCMixter.PAGE_SIZE 400 (λ offset, offset)
                   CCMixter.convert (λ t, t) CCMixter.messages
                   [Sample.emptyPages; Sample.emptyPages] Sample.emptyBackend "cover"
                   _ _ _)).
  - repeat constructor.
  - cbn. lia.
  - do 2 apply list_elem_of_further. apply list_elem_of_here.
Defined.

(** Two runs of the ccMixter adapter from a fresh progress store: the first
    asks for "opsample" and "remix", the second for "cover" and "opsample". *)
Example ccmixter_two_runs :
  map queried
    (consecutiveRuns (λ env, CCMixter.fetchCCMixter (λ t, t) env (Some FirestoreClient))
       [Sample.emptyPages; Sample.emptyPages] Sample.emptyBackend).1
  = [["opsample"; "remix"]; ["cover"; "opsample"]].
Proof. vm_compute. reflexivity. Qed.

(** Five runs of the MusicBrainz adapter ask for its ten tags, and three runs
    of the Discogs adapter for its five searches. *)
Example musicbrainz_five_runs :
  concat (map queried
    (consecutiveRuns (λ env, MusicBrainz.fetchMusicBrainz (λ t, t) env (Some FirestoreClient))
       (replicate 5 Sample.emptyPages) Sample.emptyBackend).1)
  = MusicBrainz.TAG_FILTERS.
Proof. vm_compute. reflexivity. Qed.

Example discogs_three_runs :
  map queried
    (consecutiveRuns
       (λ env, Discogs.fetchDiscogs (Some "token") (λ t, t) env (Some FirestoreClient))
       (replicate 3 Sample.emptyPages) Sample.emptyBackend).1
  = [["genre:rock year:[2010 TO 2026] type:release";
      "genre:electronic year:[2010 TO 2026] type:release"];
     ["genre:hip-hop year:[2010 TO 2026] type:release";
      "genre:pop year:[2010 TO 2026] type:release"];
     ["genre:metal year:[2010 TO 2026] type:release";
      "genre:rock year:[2010 TO 2026] type:release"]].
Proof. vm_compute. reflexivity. Qed.

(** C4: take a run of a rotating adapter that can read and write its progress
    document, and the partition of one of its turns (the partitions being
    pairwise different and at least [perRun]).  The run asks for the
    partitions of all its turns, whatever the replies.  In the progress
    document the run saves, the offset of that partition is 0 when the
    provider returned an empty page for it, the stored offset plus
    [PAGE_SIZE] when it returned records and the loop over them ended without
    an exception, and the stored offset, unchanged, when the request failed
    (a status that is not ok, or a rejected request). *)
Theorem C4_offsets_follow_replies {Raw : Type} (SOURCE STATE_DOC : string)
    (PARTITIONS : list string) (perRun PAGE_SIZE delay : nat) (asked : nat → nat)
    (convert : string → Raw → option (string * result TrackRecord))
    (sanitizeTrack : TrackRecord → TrackRecord) (msg : Messages)
    (env : Env Raw) (σ : Backend) (ct : nat) :
  NoDup PARTITIONS → perRun ≤ length PARTITIONS → ct < perRun → stateReachable env →
  let state := storedState STATE_DOC σ in
  let partition := partitionAt PARTITIONS (index state) ct in
  let offset := default 0 (offsets state !! partition) in
  let reply := request env partition (asked offset) in
  let run :=
    fetchRotating SOURCE STATE_DOC PARTITIONS perRun PAGE_SIZE delay asked convert
      sanitizeTrack msg env (Some FirestoreClient) σ in
  ∃ saved accBefore,
    importState (backendOf run) !! STATE_DOC = Some saved
    ∧ valueOf (fetchPartitions SOURCE PARTITIONS PAGE_SIZE delay asked convert sanitizeTrack
                 msg env state (mkAcc [] [] ∅ (offsets state)) ct 0 σ) = Ok accBefore
    ∧ queried (traceOf run) = map (partitionAt PARTITIONS (index state)) (seq 0 perRun)
    ∧ (∀ status, reply = Response true status (Ok None)
                 ∨ reply = Response true status (Ok (Some [])) →
         offsets saved !! partition = Some 0)
    ∧ (∀ status records,
         reply = Response true status (Ok (Some records)) → records ≠ [] →
         (addRecords convert sanitizeTrack partition records accBefore).2 = None →
         offsets saved !! partition = Some (offset + PAGE_SIZE))
    ∧ (∀ status json, reply = Response false status json →
         offsets saved !! partition = offsets state !! partition)
    ∧ (∀ e, reply = NetworkError e →
         offsets saved !! partition = offsets state !! partition).
Proof.
  intros Hnd Hle Hct Henv state partition offset reply run.
  destruct (AdapterFacts.fetchRotating_run SOURCE STATE_DOC PARTITIONS perRun PAGE_SIZE delay
              asked convert sanitizeTrack msg env σ Henv)
    as (acc & t & Hloop & t' & Hrun & Hq).
  fold state in Hloop, Hrun.
  destruct (AdapterFacts.fetchPartitions_run SOURCE PARTITIONS PAGE_SIZE delay asked convert
              sanitizeTrack msg env state perRun 0 (mkAcc [] [] ∅ (offsets state)) σ)
    as (acc1 & t1 & Hloop1 & Hq1 & _).
  rewrite Hloop in Hloop1. injection Hloop1 as <- <-.
  destruct (AdapterFacts.fetchPartitions_at SOURCE PARTITIONS perRun PAGE_SIZE delay asked
              convert sanitizeTrack msg env state (mkAcc [] [] ∅ (offsets state)) ct σ
              Hnd Hle Hct)
    as (accBefore & accFinal & t0 & t2 & Hbefore & Hall & Hoff).
  rewrite Hloop in Hall. injection Hall as <- <-.
  cbn [acc_offsets] in Hoff. fold partition in Hoff. fold offset in Hoff. fold reply in Hoff.
  eexists _, accBefore. unfold run. rewrite Hrun, Hbefore.
  cbn [backendOf valueOf traceOf fst snd setImportState importState].
  split; [apply lookup_insert_eq|]. split; [done|]. split; [by rewrite Hq, Hq1|].
  cbn [offsets].
  split; [|split; [|split]].
  - intros status [Hr|Hr]; by rewrite Hr in Hoff.
  - intros status records Hr Hne Hdone. rewrite Hr in Hoff. cbn in Hoff.
    rewrite Hdone in Hoff. by destruct records.
  - intros status json Hr. by rewrite Hr in Hoff.
  - intros e Hr. by rewrite Hr in Hoff.
Qed.

Lemma C4_offsets_follow_replies_witness :
  let run :=
    CCMixter.fetchCCMixter (λ t, t) Sample.flaky (Some FirestoreClient) Sample.emptyBackend in
  ∃ saved,
    importState (backendOf run) !! CCMixter.STATE_DOC = Some saved
    ∧ queried (traceOf run) = ["opsample"; "remix"]
    ∧ offsets saved !! "opsample" = None.
Proof.
  destruct (C4_offsets_follow_replies CCMixter.SOURCE CCMixter.STATE_DOC
              CCMixter.CONTENT_TYPES CCMixter.typesToFetch CCMixter.PAGE_SIZE 400
              (λ offset, offset) CCMixter.convert (λ t, t) CCMixter.messages
              Sample.flaky Sample.emptyBackend 0)
    as (saved & accBefore & Hsaved & _ & Hasked & _ & _ & Hfailed & _).
  - apply (bool_decide_unpack _). vm_compute. reflexivity.
  - cbv. lia.
  - cbv. lia.
  - split; reflexivity.
  - exists saved. split; [exact Hsaved|]. split; [exact Hasked|].
    exact (Hfailed 503 (Throw "unread") eq_refl).
Defined.

(** The progress document the ccMixter adapter saves after the run against
    the provider that fails on "opsample": the failed partition has no
    offset, the other one has moved by a page, and the index by two. *)
Example ccmixter_flaky_run :
  let run :=
    CCMixter.fetchCCMixter (λ t, t) Sample.flaky (Some FirestoreClient) Sample.emptyBackend in
  importState (backendOf run) !! CCMixter.STATE_DOC
  = Some (mkState 2 {[ "remix" := 50 ]} Sample.timestamp)
  ∧ sr_errors <$> returned run = Some ["HTTP 503 on type opsample"].
Proof. vm_compute. split; reflexivity. Qed.

(** ** The scenario of section 8 *)
Module ScenarioFacts.




Section Scenario.
Variables (validateTrack : TrackRecord → bool) (w : Index.World) (DRY_RUN : option string).
Variables (fetchSource : option Firestore → M SourceResult) (SOURCE : string).
Variables (r1 r2 r3 : TrackRecord) (σ σ1 : Backend) (tA : list Event).
Hypothesis Hdry : DRY_RUN ≠ Some "1".
Hypothesis Hinit : Index.initError w = None.
Hypothesis Hget : ∀ k, Index.getAllError w k = None.
Hypothesis Hcommit : ∀ k, Index.commitError w k = None.
Hypothesis Hfetch :
  fetchSource (Some FirestoreClient) σ = (Ok (mkSourceResult SOURCE [r1; r2; r3] []), σ1, tA).
Hypothesis Hv1 : validateTrack r1 = true.
Hypothesis Hv2 : validateTrack r2 = false.
Hypothesis Hv3 : validateTrack r3 = true.
Hypothesis Hp1 : startsWith (id r1) (Index.prefixOf SOURCE) = true.
Hypothesis Hp3 : startsWith (id r3) (Index.prefixOf SOURCE) = true.
Hypothesis Hknown : is_Some (tracks σ1 !! id r1).
Hypothesis Hnew : tracks σ1 !! id r3 = None.



End Scenario.

(** With the ccMixter adapter the premise of the scenario does not arise from
    an item without image: the adapter skips such an item itself, and returns
    the records of the other two. *)
Lemma bare_item_skipped : CCMixter.convert "opsample" (Sample.bareItem "2") = None.
Proof. reflexivity. Qed.

Lemma item_converted (n : string) :
  CCMixter.convert "opsample" (Sample.item n) = Some ("ccmixter-" +:+ n, Ok (Sample.track n)).
Proof. reflexivity. Qed.

Lemma fetch_scenario (sanitizeTrack : TrackRecord → TrackRecord) :
  ∃ σ1 tA,
    CCMixter.fetchCCMixter sanitizeTrack Sample.scenario (Some FirestoreClient) Sample.catalog
    = (Ok (mkSourceResult "ccmixter"
             [sanitizeTrack (Sample.track "1"); sanitizeTrack (Sample.track "3")] []), σ1, tA)
    ∧ tracks σ1 = tracks Sample.catalog ∧ commits tA = [] ∧ mainLog tA = [].
Proof. eexists _, _. split; [vm_compute; reflexivity|]. by repeat split. Qed.
End ScenarioFacts.



(** The summary of the scenario as the run prints it, and what the run
    leaves in the catalog: the known record of item 1 and the new record of
    item 3, none of item 2. *)
Example scenario_run :
  let run :=
    Index.main Utils.validateWithAsset (Sample.world Sample.reachableStore) None
      [Sample.threeRecords] Sample.catalog in
  mainLog (traceOf run)
  = ["=== OpenTune Music Import Starting ===";
     "Firebase Admin initialized (Firestore + Storage)";
     "Total valid tracks fetched: 2";
     "After dedup: 1 new, 1 duplicates";
     "Wrote batch of 1 tracks (1/1)";
     "=== Import Summary ===";
     "  ccmixter: fetched=3 new=1 dupes=1 errors=0";
     "Total new tracks written: 1";
     "Completed in 0.1s"]
  ∧ tracks (backendOf run) !! "ccmixter-1" = Some (Sample.track "1")
  ∧ tracks (backendOf run) !! "ccmixter-2" = None
  ∧ is_Some (tracks (backendOf run) !! "ccmixter-3").
Proof.
  cbv zeta. split; [vm_compute; reflexivity|]. split; [vm_compute; reflexivity|].
  split; [vm_compute; reflexivity|]. vm_compute. by eexists.
Qed.

(** ** migrate-gs-urls.ts *)
Module MigrateFacts.
Import Migrate.

Lemma updatesOf_app (t1 t2 : list Event) :
  updatesOf (t1 ++ t2) = updatesOf t1 ++ updatesOf t2.
Proof. apply omap_app. Qed.

Lemma orElse_empty (s : string) : orElse s EmptyString = s.
Proof. by destruct s. Qed.

Section WithWorld.
Variables (w : World) (bucket : Bucket).

(** [gsToHttps] never throws, never touches a document and never updates
    one. *)
Lemma gsToHttps_run (gsUrl : string) (σ : Backend) :
  ∃ r σ' t, gsToHttps w bucket gsUrl σ = (Ok r, σ', t)
    ∧ tracks σ' = tracks σ ∧ updatesOf t = [].
Proof.
  unfold gsToHttps, sdk. mrun.
  repeat (case_match; mrun; simplify_eq); eauto 10.
Qed.

Lemma processDoc_spec (isDryRun : bool) (docId : string) (data : TrackRecord)
    (stats : MigrationStats) (σ : Backend) :
  let artworkNeedsFix := startsWith (artwork data) "gs://" in
  let audioNeedsFix := startsWith (audioUrl data) "gs://" in
  let artworkRun := gsToHttps w bucket (artwork data) σ in
  let audioRun :=
    gsToHttps w bucket (audioUrl data) (if artworkNeedsFix then backendOf artworkRun else σ) in
  let artworkFails := artworkNeedsFix && bool_decide (conversion artworkRun = None) in
  let audioFails := audioNeedsFix && bool_decide (conversion audioRun = None) in
  let run := processDoc w isDryRun bucket (docId, data) stats σ in
  ((updatesOf (traceOf run) = [] ∧ tracks (backendOf run) = tracks σ)
   ∨ (isDryRun = false ∧ artworkFails = false ∧ audioFails = false
      ∧ updatesOf (traceOf run)
        = [(docId, if artworkNeedsFix then conversion artworkRun else None,
                   if audioNeedsFix then conversion audioRun else None)]))
  ∧ (isDryRun = false → artworkFails || audioFails = true →
       valueOf run = Ok (markFailed (scanned stats) docId)
       ∧ updatesOf (traceOf run) = [] ∧ tracks (backendOf run) = tracks σ).
Proof.
  intros artworkNeedsFix audioNeedsFix artworkRun audioRun artworkFails audioFails run.
  destruct (gsToHttps_run (artwork data) σ) as (ra & σa & ta & Hra & Hta & Hua).
  destruct (gsToHttps_run (audioUrl data) (if artworkNeedsFix then σa else σ))
    as (rb & σb & tb & Hrb & Htb & Hub).
  subst artworkFails audioFails audioRun artworkRun. rewrite Hra. cbn [backendOf fst snd].
  rewrite Hrb. unfold conversion. cbn [fst snd].
  unfold run, processDoc. rewrite !orElse_empty.
  fold artworkNeedsFix audioNeedsFix.
  destruct artworkNeedsFix, audioNeedsFix, isDryRun; cbn [negb andb orb];
    cbv iota in Hrb, Htb.
  all: mrun; rewrite ?Hra; mrun.
  all: try (destruct (converted ra) as [urlA|]); mrun; rewrite ?Hrb; mrun.
  all: try (destruct (converted rb) as [urlB|]); mrun.
  all: unfold update, sdk; mrun.
  all: try (destruct (updateError w docId)); mrun.
  all: try match goal with
           | |- context [tracks ?s !! ?d] => destruct (tracks s !! d)
           end; mrun.
  all: rewrite ?bool_decide_eq_true_2, ?bool_decide_eq_false_2 by done.
  all: try case_bool_decide; mrun.
  all: cbn [traceOf backendOf valueOf fst snd andb orb].
  all: rewrite ?app_nil_r, ?updatesOf_app, ?Hua, ?Hub.
  all: cbn [updatesOf omap app tracks setTracks].
  all: split;
    [first [left; split; [reflexivity|congruence] | right; repeat split; reflexivity]
    |intros Hlive Hf;
     first [discriminate Hlive | discriminate Hf
           | split; [reflexivity|split; [reflexivity|congruence]]]].
Qed.
End WithWorld.
End MigrateFacts.

(** C9: the callback of the migration utility for one document.  Let a
    conversion be needed for each reference that starts with "gs://", the
    artwork being converted first and the audio after it.  Either the run
    issues no update at all and leaves every document as it was, or the run is
    live, no needed conversion failed, and it issues exactly one update, of
    this document, carrying the converted URL of every reference that needed
    one.  In a live run, when a needed conversion fails the record is counted
    as failed, its id is appended to the failed ids, no update is issued and
    the documents are left as they were. *)
Theorem C9_update_all_or_nothing (w : Migrate.World) (isDryRun : bool) (bucket : Bucket)
    (docId : string) (data : TrackRecord) (stats : Migrate.MigrationStats) (σ : Backend) :
  let artworkNeedsFix := startsWith (artwork data) "gs://" in
  let audioNeedsFix := startsWith (audioUrl data) "gs://" in
  let artworkRun := Migrate.gsToHttps w bucket (artwork data) σ in
  let audioRun :=
    Migrate.gsToHttps w bucket (audioUrl data)
      (if artworkNeedsFix then backendOf artworkRun else σ) in
  let artworkFails := artworkNeedsFix && bool_decide (conversion artworkRun = None) in
  let audioFails := audioNeedsFix && bool_decide (conversion audioRun = None) in
  let run := Migrate.processDoc w isDryRun bucket (docId, data) stats σ in
  ((updatesOf (traceOf run) = [] ∧ tracks (backendOf run) = tracks σ)
   ∨ (isDryRun = false ∧ artworkFails = false ∧ audioFails = false
      ∧ updatesOf (traceOf run)
        = [(docId, if artworkNeedsFix then conversion artworkRun else None,
                   if audioNeedsFix then conversion audioRun else None)]))
  ∧ (isDryRun = false → artworkFails || audioFails = true →
       valueOf run = Ok (Migrate.markFailed (scanned stats) docId)
       ∧ Migrate.failed (Migrate.markFailed (scanned stats) docId) = Migrate.failed stats + 1
       ∧ Migrate.failedIds (Migrate.markFailed (scanned stats) docId)
         = Migrate.failedIds stats ++ [docId]
       ∧ updatesOf (traceOf run) = [] ∧ tracks (backendOf run) = tracks σ).
Proof.
  intros artworkNeedsFix audioNeedsFix artworkRun audioRun artworkFails audioFails run.
  destruct (MigrateFacts.processDoc_spec w bucket isDryRun docId data stats σ)
    as [Honly Hfail].
  split; [exact Honly|].
  intros Hlive Hf. destruct (Hfail Hlive Hf) as (Hv & Hu & Ht).
  by repeat split.
Qed.

(** The audio file of the sample document is missing: its cover is converted
    (a token is minted for it), the audio is not, and the document is not
    updated but counted as failed. *)
Example legacy_document_fails :
  let run :=
    Migrate.processDoc Sample.storage false Sample.bucket ("jamendo-5", Sample.legacy)
      (Migrate.mkStats 0 0 0 0 []) Sample.legacyBackend in
  valueOf run = Ok (Migrate.mkStats 1 0 0 1 ["jamendo-5"])
  ∧ tracks (backendOf run) = tracks Sample.legacyBackend
  ∧ traceOf run
    = [EvFileExists "imports/jamendo/jamendo-5_cover.jpg";
       EvGetMetadata "imports/jamendo/jamendo-5_cover.jpg";
       EvSetMetadata "imports/jamendo/jamendo-5_cover.jpg"
         "0b0e7a5e-5bd0-4a5f-9c3e-0d6c4fd1f1aa";
       EvFileExists "imports/jamendo/jamendo-5.mp3";
       EvLog "migrate" "File not found in Storage: imports/jamendo/jamendo-5.mp3"].
Proof. vm_compute. repeat split. Qed.

(** The URL [gsToHttps] builds for the cover of the sample document. *)
Example legacy_cover_url :
  conversion (Migrate.gsToHttps Sample.storage Sample.bucket (artwork Sample.legacy)
                Sample.legacyBackend)
  = Some ("https://firebasestorage.googleapis.com/v0/b/opentune-sbs.firebasestorage.app/o/"
            +:+ "imports%2Fjamendo%2Fjamendo-5_cover.jpg"
            +:+ "?alt=media&token=0b0e7a5e-5bd0-4a5f-9c3e-0d6c4fd1f1aa").
Proof. vm_compute. reflexivity. Qed.

(** * Further properties of the scripts *)

(** ** Strings *)
Module StringFacts.

Lemma substring_all (s : string) : String.substring 0 (String.length s) s = s.
Proof. induction s as [|c s IH]; [done|]. simpl. by rewrite IH. Qed.

Lemma substring_prefix (p s : string) :
  String.substring 0 (String.length p) (p +:+ s) = p.
Proof. induction p as [|c p IH]; simpl; [by destruct s|]. by rewrite IH. Qed.

Lemma substring_skip (p s : string) (n m : nat) :
  String.substring (String.length p + n) m (p +:+ s) = String.substring n m s.
Proof. induction p as [|c p IH]; [done|]. simpl. apply IH. Qed.

Lemma length_app (p s : string) :
  String.length (p +:+ s) = String.length p + String.length s.
Proof. induction p as [|c p IH]; [done|]. simpl. by rewrite IH. Qed.

(** The first occurrence of a character that the text before it does not
    hold. *)
Lemma index_char (c : Ascii.ascii) (p s : string) :
  String.index 0 (String c EmptyString) p = None →
  String.index 0 (String c EmptyString) (p +:+ String c EmptyString +:+ s)
  = Some (String.length p).
Proof.
  induction p as [|b p IH]; intros Hp.
  - simpl. destruct (Ascii.ascii_dec c c); [|done]. by destruct s.
  - simpl in Hp |- *. destruct (Ascii.ascii_dec c b).
    + by destruct p.
    + destruct (String.index 0 (String c EmptyString) p); [done|]. by rewrite IH.
Qed.
Lemma startsWith_app (p s : string) : startsWith (p +:+ s) p = true.
Proof.
  unfold startsWith. induction p as [|c p IH]; simpl; [by destruct s|].
  by destruct (Ascii.ascii_dec c c).
Qed.
End StringFacts.

(** X1: for an id made of a non-empty prefix that holds no dash, a dash and
    anything after it, [getSource] is the prefix, and the two storage paths
    of a record with that id lie in the folder of that prefix. *)
Theorem X1_getSource_prefix (prefix rest : string) :
  truthy prefix = true → indexOf prefix "-" = None →
  getSource (prefix +:+ "-" +:+ rest) = prefix
  ∧ ∀ track, id track = prefix +:+ "-" +:+ rest →
      audioPath track = "imports/" +:+ prefix +:+ "/" +:+ id track +:+ ".mp3"
      ∧ artworkPath track = "imports/" +:+ prefix +:+ "/" +:+ id track +:+ "_cover.jpg".
Proof.
  intros Hne Hnodash.
  assert (Hsrc : getSource (prefix +:+ "-" +:+ rest) = prefix).
  { unfold getSource, indexOf in *.
    rewrite StringFacts.index_char by done.
    rewrite bool_decide_true by (destruct prefix; [done|simpl; lia]).
    apply StringFacts.substring_prefix. }
  split; [done|]. intros track Hid. unfold audioPath, artworkPath. by rewrite Hid, Hsrc.
Qed.

Lemma X1_getSource_prefix_witness :
  getSource ("jamendo-12345") = "jamendo"
  ∧ ∀ track, id track = "jamendo-12345" →
      audioPath track = "imports/jamendo/" +:+ id track +:+ ".mp3"
      ∧ artworkPath track = "imports/jamendo/" +:+ id track +:+ "_cover.jpg".
Proof. apply (X1_getSource_prefix "jamendo" "12345"); reflexivity. Defined.

(** X2: an id that starts with a dash, the empty id and an id that holds no
    dash have the source "unknown". *)
Theorem X2_getSource_unknown (trackId rest : string) :
  getSource ("-" +:+ rest) = "unknown"
  ∧ getSource EmptyString = "unknown"
  ∧ (indexOf trackId "-" = None → getSource trackId = "unknown").
Proof.
  split; [|split; [done|]].
  - unfold getSource, indexOf. simpl. by destruct rest.
  - intros H. unfold getSource. by rewrite H.
Qed.

(** X3: the migration utility reads back the path the uploader stored an
    object under.  When the bucket has a name without a slash and the storage
    path is not empty and holds no line terminator, the URL
    [uploadToStorage] returns starts with "gs://" and the regular expression
    of [gsToHttps] captures the storage path from it. *)
Theorem X3_matchGs_upload (w : StorageUploader.World) (bucket : Bucket)
    (storagePath contentType : string) (data : Buffer) (attempt : nat) (σ : Backend) :
  truthy (bucket_name bucket) = true → Migrate.contains (bucket_name bucket) "/" = false →
  truthy storagePath = true → Migrate.singleLine storagePath = true →
  saveError w storagePath attempt = None →
  ∃ gsUrl,
    returned (uploadToStorage w bucket storagePath data contentType attempt σ) = Some gsUrl
    ∧ startsWith gsUrl "gs://" = true
    ∧ Migrate.matchGs gsUrl = Some storagePath.
Proof.
  intros Hname Hslash Hpath Hline Hsave.
  exists ("gs://" +:+ bucket_name bucket +:+ "/" +:+ storagePath).
  split; [|split; [apply StringFacts.startsWith_app|]].
  { unfold uploadToStorage. mrun. rewrite Hsave. reflexivity. }
  unfold Migrate.matchGs.
  rewrite StringFacts.startsWith_app.
  assert (Hrest : String.substring 5
            (String.length ("gs://" +:+ bucket_name bucket +:+ "/" +:+ storagePath) - 5)
            ("gs://" +:+ bucket_name bucket +:+ "/" +:+ storagePath)
          = bucket_name bucket +:+ "/" +:+ storagePath).
  { rewrite (StringFacts.length_app "gs://").
    replace (String.length "gs://" + String.length (bucket_name bucket +:+ "/" +:+ storagePath) - 5)
      with (String.length (bucket_name bucket +:+ "/" +:+ storagePath))
      by (change (String.length "gs://") with 5; lia).
    etrans; [apply (StringFacts.substring_skip "gs://" _ 0)|apply StringFacts.substring_all]. }
  rewrite Hrest. cbv zeta.
  unfold Migrate.contains in Hslash. apply bool_decide_eq_false in Hslash.
  rewrite StringFacts.index_char.
  2: { destruct (String.index 0 "/" (bucket_name bucket)); [|done]. exfalso. apply Hslash. by eexists. }
  rewrite !StringFacts.length_app.
  replace (String.length (bucket_name bucket) + (String.length "/" + String.length storagePath)
           - (String.length (bucket_name bucket) + 1)) with (String.length storagePath)
    by (simpl; lia).
  rewrite StringFacts.substring_skip.
  rewrite (StringFacts.substring_skip "/" storagePath 0), StringFacts.substring_all.
  rewrite Hpath, Hline, bool_decide_true; [done|].
  destruct (bucket_name bucket); [done|simpl; lia].
Qed.

Lemma X3_matchGs_upload_witness :
  ∃ gsUrl,
    returned (StorageUploader.uploadToStorage Sample.reachableStore Sample.bucket
                "imports/jamendo/jamendo-5.mp3" [] "audio/mpeg" 0 Sample.emptyBackend)
    = Some gsUrl
    ∧ startsWith gsUrl "gs://" = true
    ∧ Migrate.matchGs gsUrl = Some "imports/jamendo/jamendo-5.mp3".
Proof.
  apply (X3_matchGs_upload Sample.reachableStore Sample.bucket
           "imports/jamendo/jamendo-5.mp3" "audio/mpeg" [] 0 Sample.emptyBackend);
    reflexivity.
Defined.

(** ** storageUploader.ts: a reference that is stored *)
Module UploaderMore.
Import StorageUploader Retry.

Section WithWorld.
Variables (w : World) (bucket : Bucket).
Variables (sourceUrl storagePath contentType : string).

(** The retry loop when attempt number [k] (from 0) is the first that does
    not fail. *)
Lemma retry_until (k : nat) (response : HttpResponse) (data : Buffer)
    (remaining attempt : nat) (σ : Backend) :
  attempt ≤ k → k ≤ MAX_RETRIES → attempt + remaining = MAX_RETRIES + 1 →
  (∀ j, attempt ≤ j < k → attemptFails w sourceUrl storagePath j = true) →
  fetchAsset w sourceUrl k = Ok response → resp_ok response = true →
  resp_arrayBuffer response = Ok data → saveError w storagePath k = None →
  ∃ t,
    downloadAndUploadFrom w bucket sourceUrl storagePath contentType remaining attempt σ
    = (Ok ("gs://" +:+ bucket_name bucket +:+ "/" +:+ storagePath),
       setFiles (insert storagePath (mkFile data contentType None)) σ, t)
    ∧ timeline t = scheduleBetween (attempt + 1) (k + 1).
Proof.
  intros Hle Hk Hsum Hfail Hfetch Hok Hbody Hsave.
  revert attempt Hle Hsum Hfail.
  induction remaining as [|remaining IH]; intros attempt Hle Hsum Hfail; [lia|].
  cbn [downloadAndUploadFrom]. rewrite run_tryCatch.
  destruct (decide (attempt = k)) as [->|Hne].
  - unfold downloadFile, uploadToStorage. mrun. rewrite Hfetch. mrun. rewrite Hok. mrun.
    rewrite Hbody. mrun. rewrite Hsave. mrun.
    eexists. split; [reflexivity|]. by rewrite UploaderFacts.scheduleBetween_one.
  - destruct (UploaderFacts.attempt_run w bucket sourceUrl storagePath contentType attempt σ)
      as (t0 & Ht0 & [[Hf [e He]]|[Hs _]]).
    2: { rewrite Hfail in Hs by lia. done. }
    rewrite He. rewrite bool_decide_true by lia.
    destruct (IH (attempt + 1)) as (t & Hrun & Htl); [lia|lia|intros; apply Hfail; lia|].
    mrun. rewrite Hrun. eexists. split; [reflexivity|].
    rewrite UploaderFacts.timeline_app, Ht0, UploaderFacts.timeline_sleep, Htl.
    rewrite (UploaderFacts.scheduleBetween_cons (attempt + 1)) by lia.
    cbn [app]. do 3 f_equal. lia.
Qed.
End WithWorld.

(** A record with no reference to fetch goes through [processTrack]
    untouched and without an event. *)
Lemma processTrack_local (w : World) (bucket : Bucket) (track : TrackRecord) (σ : Backend) :
  startsWith (audioUrl track) "http" = false → startsWith (artwork track) "http" = false →
  processTrack w bucket track σ = (Ok track, σ, []).
Proof.
  intros Ha Hb. unfold processTrack. rewrite Ha, Hb. by destruct track.
Qed.

Lemma promiseAll_local (w : World) (bucket : Bucket) (chunk : list TrackRecord) (σ : Backend) :
  Forall (λ t, startsWith (audioUrl t) "http" = false
               ∧ startsWith (artwork t) "http" = false) chunk →
  promiseAll (map (processTrack w bucket) chunk) σ = (Ok chunk, σ, []).
Proof.
  intros Hall.
  assert (Hsettle : settleAll (map (processTrack w bucket) chunk) σ = (map Ok chunk, σ, [])).
  { induction Hall as [|t chunk [Ha Hb] _ IH]; [done|].
    cbn [map settleAll]. by rewrite processTrack_local, IH. }
  unfold promiseAll, allSettled. mrun. rewrite Hsettle.
  by rewrite UploaderFacts.firstRejection_oks.
Qed.

Lemma uploadWindows_local (w : World) (bucket : Bucket) (total : nat)
    (windows : list (list TrackRecord)) (p : Progress) (σ : Backend) :
  Forall (λ t, startsWith (audioUrl t) "http" = false
               ∧ startsWith (artwork t) "http" = false) (concat windows) →
  ∃ p' t,
    uploadWindows w bucket total windows p σ = (Ok p', σ, t)
    ∧ results p' = results p ++ concat windows
    ∧ Forall Observed.logged t.
Proof.
  revert p. induction windows as [|chunk windows IH]; intros p Hall.
  - exists p, []. cbn. by rewrite app_nil_r.
  - cbn [concat] in Hall. apply Forall_app in Hall as [Hchunk Hrest].
    cbn [uploadWindows concat]. rewrite (run_bind_ok _ _ _ _ _ _ (promiseAll_local w bucket chunk σ Hchunk)).
    destruct (IH (collect p chunk) Hrest) as (p' & t & Hrun & Hres & Ht).
    rewrite UploaderFacts.collect_results in Hres.
    destruct (_ || _); mrun; rewrite Hrun; eexists _, _;
      (split; [reflexivity|]); (split; [by rewrite Hres, app_assoc|]).
    + by constructor.
    + done.
Qed.
End UploaderMore.

(** X4: when the attempts before attempt number [k] fail and attempt [k]
    (at most [MAX_RETRIES], counted from 0) downloads the asset and stores
    it, [downloadAndUpload] returns the gs:// URL of the storage path, the
    bucket then holds the downloaded bytes under that path with the content
    type asked for, nothing else of the backend has changed, and [k + 1]
    attempts were made with the delays of the retry schedule between them. *)
Theorem X4_first_success_stores (w : World) (bucket : Bucket)
    (sourceUrl storagePath contentType : string) (k : nat) (response : HttpResponse)
    (data : Buffer) (σ : Backend) :
  k ≤ MAX_RETRIES →
  (∀ j, j < k → attemptFails w sourceUrl storagePath j = true) →
  fetchAsset w sourceUrl k = Ok response → resp_ok response = true →
  resp_arrayBuffer response = Ok data → saveError w storagePath k = None →
  let run := downloadAndUpload w bucket sourceUrl storagePath contentType σ in
  valueOf run = Ok ("gs://" +:+ bucket_name bucket +:+ "/" +:+ storagePath)
  ∧ files (backendOf run) !! storagePath = Some (mkFile data contentType None)
  ∧ (∀ p, p ≠ storagePath → files (backendOf run) !! p = files σ !! p)
  ∧ tracks (backendOf run) = tracks σ ∧ importState (backendOf run) = importState σ
  ∧ timeline (traceOf run) = retrySchedule (k + 1).
Proof.
  intros Hk Hfail Hfetch Hok Hbody Hsave run.
  destruct (UploaderMore.retry_until w bucket sourceUrl storagePath contentType k response
              data (MAX_RETRIES + 1) 0 σ) as (t & Hrun & Htl); try done; try lia.
  { intros j Hj. apply Hfail. lia. }
  unfold run, downloadAndUpload. rewrite Hrun.
  cbn [valueOf backendOf traceOf fst snd setFiles files tracks importState].
  split; [done|]. split; [apply lookup_insert_eq|].
  split; [intros p Hp; by apply lookup_insert_ne|]. by repeat split.
Qed.

Lemma X4_first_success_stores_witness :
  let run :=
    downloadAndUpload Sample.reachableStore Sample.bucket
      "https://ccmixter.org/4download/file/3" "imports/ccmixter/ccmixter-3.mp3" "audio/mpeg"
      Sample.emptyBackend in
  valueOf run
  = Ok ("gs://" +:+ bucket_name Sample.bucket +:+ "/" +:+ "imports/ccmixter/ccmixter-3.mp3")
  ∧ files (backendOf run) !! "imports/ccmixter/ccmixter-3.mp3"
    = Some (mkFile [] "audio/mpeg" None)
  ∧ (∀ p, p ≠ "imports/ccmixter/ccmixter-3.mp3" →
       files (backendOf run) !! p = files Sample.emptyBackend !! p)
  ∧ tracks (backendOf run) = tracks Sample.emptyBackend
  ∧ importState (backendOf run) = importState Sample.emptyBackend
  ∧ timeline (traceOf run) = retrySchedule 1.
Proof.
  apply (X4_first_success_stores Sample.reachableStore Sample.bucket
           "https://ccmixter.org/4download/file/3" "imports/ccmixter/ccmixter-3.mp3"
           "audio/mpeg" 0 (mkResponse true 200 (Ok [])) [] Sample.emptyBackend).
  - cbv. lia.
  - intros j Hj. lia.
  - reflexivity.
  - reflexivity.
  - reflexivity.
  - reflexivity.
Defined.

(** X6: when no record of the list has a reference that starts with "http",
    [uploadAllTrackAssets] returns the list it was given, leaves the whole
    backend as it was, and does nothing but log: no download and no upload is
    attempted. *)
Theorem X6_local_records_untouched (w : World) (bucket : Bucket)
    (newTracks : list TrackRecord) (σ : Backend) :
  Forall (λ t, startsWith (audioUrl t) "http" = false
               ∧ startsWith (artwork t) "http" = false) newTracks →
  let run := uploadAllTrackAssets w bucket newTracks σ in
  valueOf run = Ok newTracks ∧ backendOf run = σ ∧ Forall logged (traceOf run).
Proof.
  intros Hall run. unfold run, uploadAllTrackAssets. case_bool_decide as Hlen.
  { by repeat split. }
  rewrite <- (chunks_concat CONCURRENCY newTracks) in Hall by (cbv; lia).
  destruct (UploaderMore.uploadWindows_local w bucket (length newTracks)
              (chunks CONCURRENCY newTracks) (mkProgress [] 0 0) σ Hall)
    as (p' & t & Hrun & Hres & Ht).
  rewrite chunks_concat in Hres by (cbv; lia).
  mrun. rewrite Hrun. cbn [valueOf backendOf traceOf fst snd].
  split; [by rewrite Hres|]. split; [done|].
  constructor; [done|]. apply Forall_app. split; [done|]. by repeat constructor.
Qed.

Lemma X6_local_records_untouched_witness :
  let run :=
    uploadAllTrackAssets Sample.unreachableStore Sample.bucket [Sample.legacy]
      Sample.emptyBackend in
  valueOf run = Ok [Sample.legacy] ∧ backendOf run = Sample.emptyBackend
  ∧ Forall logged (traceOf run).
Proof.
  apply (X6_local_records_untouched Sample.unreachableStore Sample.bucket [Sample.legacy]
           Sample.emptyBackend).
  repeat constructor.
Defined.

(** ** storageUploader.ts: what the uploader writes *)
Module FrameFacts.
Import StorageUploader Frame.

Lemma writesWithin_weaken {A} (P Q : string → Prop) (m : M A) :
  (∀ p, P p → Q p) → writesWithin P m → writesWithin Q m.
Proof. intros HPQ Hm σ p Hp. apply Hm. intros HP. by apply Hp, HPQ. Qed.

Lemma writesWithin_pure {A} (P : string → Prop) (m : M A) :
  (∀ σ, (m σ).1.2 = σ) → writesWithin P m.
Proof. intros Hm σ p _. by rewrite Hm. Qed.

Lemma writesWithin_save {P : string → Prop} (path : string) (file : StoredFile) :
  P path → writesWithin P (modifyBackend (setFiles (insert path file))).
Proof.
  intros HP σ p Hp. cbn. apply lookup_insert_ne. by intros ->.
Qed.

Lemma writesWithin_bind {A B} (P : string → Prop) (m : M A) (f : A → M B) :
  writesWithin P m → (∀ x, writesWithin P (f x)) → writesWithin P (m ≫= f).
Proof.
  intros Hm Hf σ p Hp. rewrite run_bind. specialize (Hm σ p Hp).
  destruct (m σ) as [[[x|e] σ1] t1]; cbn [fst snd] in *; [|done].
  specialize (Hf x σ1 p Hp). destruct (f x σ1) as [[r σ2] t2]. cbn [fst snd] in *.
  congruence.
Qed.

Lemma writesWithin_tryCatch {A} (P : string → Prop) (m : M A) (h : string → M A) :
  writesWithin P m → (∀ e, writesWithin P (h e)) → writesWithin P (tryCatch m h).
Proof.
  intros Hm Hh σ p Hp. rewrite run_tryCatch. specialize (Hm σ p Hp).
  destruct (m σ) as [[[x|e] σ1] t1]; cbn [fst snd] in *; [done|].
  specialize (Hh e σ1 p Hp). destruct (h e σ1) as [[r σ2] t2]. cbn [fst snd] in *.
  congruence.
Qed.

Lemma writesWithin_promiseAll {A} (P : string → Prop) (tasks : list (M A)) :
  Forall (writesWithin P) tasks → writesWithin P (promiseAll tasks).
Proof.
  intros Htasks. apply writesWithin_bind; [|intros; by apply writesWithin_pure].
  intros σ p Hp. unfold allSettled.
  assert (Hall : files (settleAll tasks σ).1.2 !! p = files σ !! p).
  { revert σ. induction Htasks as [|m tasks Hm _ IH]; intros σ; [done|].
    cbn [settleAll]. specialize (Hm σ p Hp). destruct (m σ) as [[r σ1] t1].
    specialize (IH σ1). destruct (settleAll tasks σ1) as [[rs σ2] t2]. cbn [fst snd] in *.
    congruence. }
  by destruct (settleAll tasks σ) as [[rs σ'] t].
Qed.

Section WithWorld.
Variables (w : World) (bucket : Bucket).

Lemma writesWithin_downloadAndUploadFrom (P : string → Prop)
    (sourceUrl storagePath contentType : string) (remaining attempt : nat) :
  P storagePath →
  writesWithin P (downloadAndUploadFrom w bucket sourceUrl storagePath contentType
                    remaining attempt).
Proof.
  intros HP. revert attempt. induction remaining as [|remaining IH]; intros attempt;
    [by apply writesWithin_pure|].
  cbn [downloadAndUploadFrom]. apply writesWithin_tryCatch.
  - apply writesWithin_bind.
    + unfold downloadFile. apply writesWithin_bind; [by apply writesWithin_pure|intros _].
      apply writesWithin_bind; [by apply writesWithin_pure|intros response].
      destruct (negb _); by apply writesWithin_pure.
    + intros data. unfold uploadToStorage.
      apply writesWithin_bind; [by apply writesWithin_pure|intros _].
      destruct (saveError _ _ _); [by apply writesWithin_pure|].
      apply writesWithin_bind; [by apply writesWithin_save|intros; by apply writesWithin_pure].
  - intros err. case_bool_decide.
    + apply writesWithin_bind; [by apply writesWithin_pure|intros _; apply IH].
    + apply writesWithin_bind; [by apply writesWithin_pure|intros; by apply writesWithin_pure].
Qed.

Lemma writesWithin_processTrack (track : TrackRecord) :
  writesWithin (λ p, p = audioPath track ∨ p = artworkPath track)
    (processTrack w bucket track).
Proof.
  unfold processTrack. apply writesWithin_bind.
  { destruct (startsWith _ _); [|by apply writesWithin_pure].
    apply writesWithin_downloadAndUploadFrom. by left. }
  intros a. apply writesWithin_bind; [|intros; by apply writesWithin_pure].
  destruct (startsWith _ _); [|by apply writesWithin_pure].
  apply writesWithin_downloadAndUploadFrom. by right.
Qed.

Lemma writesWithin_uploadWindows (P : string → Prop) (total : nat)
    (windows : list (list TrackRecord)) (p : Progress) :
  (∀ t, t ∈ concat windows → P (audioPath t) ∧ P (artworkPath t)) →
  writesWithin P (uploadWindows w bucket total windows p).
Proof.
  revert p. induction windows as [|chunk windows IH]; intros p HP;
    [by apply writesWithin_pure|].
  cbn [uploadWindows]. apply writesWithin_bind.
  { apply writesWithin_promiseAll, Forall_forall. intros m Hm.
    apply list_elem_of_fmap in Hm as (track & -> & Hin).
    apply (writesWithin_weaken (λ p, p = audioPath track ∨ p = artworkPath track));
      [|apply writesWithin_processTrack].
    intros q [->| ->]; apply HP; cbn [concat]; apply elem_of_app; by left. }
  intros processed. apply writesWithin_bind.
  { destruct (_ || _); by apply writesWithin_pure. }
  intros _. apply IH. intros t Ht. apply HP. cbn [concat]. apply elem_of_app. by right.
Qed.

Lemma writesWithin_uploadAllTrackAssets (newTracks : list TrackRecord) :
  writesWithin (assetPaths newTracks) (uploadAllTrackAssets w bucket newTracks).
Proof.
  unfold uploadAllTrackAssets. case_bool_decide; [by apply writesWithin_pure|].
  apply writesWithin_bind; [by apply writesWithin_pure|intros _].
  apply writesWithin_bind; [|intros p; apply writesWithin_bind; intros; by apply writesWithin_pure].
  apply writesWithin_uploadWindows. intros t Ht.
  rewrite chunks_concat in Ht by (cbv; lia).
  split; exists t; (split; [done|]); [by left|by right].
Qed.
End WithWorld.
End FrameFacts.

(** X5: [uploadAllTrackAssets] writes to the bucket only, and there only
    under the audio and cover paths of the records it was given: it leaves
    the catalog and the progress documents as they were, every object under
    another path as it was, and its events are downloads, uploads, delays and
    log lines of the uploader; it looks nothing up and commits nothing. *)
Theorem X5_uploader_frame (w : World) (bucket : Bucket) (newTracks : list TrackRecord)
    (σ : Backend) :
  let run := uploadAllTrackAssets w bucket newTracks σ in
  tracks (backendOf run) = tracks σ
  ∧ importState (backendOf run) = importState σ
  ∧ (∀ p, ¬ Frame.assetPaths newTracks p → files (backendOf run) !! p = files σ !! p)
  ∧ Forall fromUploader (traceOf run)
  ∧ commits (traceOf run) = [] ∧ lookups (traceOf run) = [].
Proof.
  intros run.
  destruct (UploaderFacts.uploadOnly_uploadAllTrackAssets w bucket newTracks σ)
    as (Htracks & Hstate & Hevents).
  split; [done|]. split; [done|]. split.
  { intros p Hp. by apply FrameFacts.writesWithin_uploadAllTrackAssets. }
  split; [done|].
  unfold run, traceOf. clear -Hevents. induction Hevents as [|e t He _ [IH1 IH2]]; [done|].
  destruct e; try done.
Qed.

(** ** index.ts: the batch writer *)
Module WriterFacts.
Import Index.

(** Setting the documents of a list one after the other: the last record of
    an id is the one the catalog keeps. *)
Lemma foldl_insert_lookup (l : list TrackRecord) (m : gmap string TrackRecord) (x : string) :
  foldl (λ m t, <[id t := t]> m) m l !! x
  = from_option Some (m !! x) (last (filter (λ t, id t = x) l)).
Proof.
  induction l as [|t l IH] using rev_ind; [done|].
  rewrite foldl_app, filter_app. cbn [foldl].
  destruct (decide (id t = x)) as [<-|Hne].
  - rewrite lookup_insert_eq. rewrite filter_cons_True, filter_nil by done.
    by rewrite last_snoc.
  - rewrite lookup_insert_ne by done. rewrite filter_cons_False, filter_nil by done.
    by rewrite app_nil_r.
Qed.

Lemma take_add_app {A} (n m : nat) (l : list A) :
  take (n + m) l = take n l ++ take m (drop n l).
Proof.
  revert l. induction n as [|n IH]; intros l; [done|].
  destruct l as [|x l]; [by rewrite drop_nil, !take_nil|]. cbn. by rewrite IH.
Qed.

(** The first [j] chunks of the loop are the first [j * size] elements. *)
Lemma chunksFrom_take {A} (size : nat) (l : list A) (j fuel i : nat) :
  0 < size → length l - i ≤ fuel →
  concat (take j (chunksFrom size l fuel i)) = take (j * size) (drop i l).
Proof.
  intros Hsize. revert fuel i. induction j as [|j IH]; intros fuel i Hfuel; [done|].
  destruct fuel as [|fuel]; cbn [chunksFrom].
  { rewrite drop_ge by lia. by rewrite !take_nil. }
  case_bool_decide as Hi.
  - cbn [take concat]. rewrite IH by lia. rewrite slice_take_drop.
    replace (S j * size) with (size + j * size) by lia.
    rewrite take_add_app. by rewrite drop_drop.
  - rewrite drop_ge by lia. by rewrite !take_nil.
Qed.

Lemma chunks_take {A} (size : nat) (l : list A) (j : nat) :
  0 < size → concat (take j (chunks size l)) = take (j * size) l.
Proof. intros H. unfold chunks. rewrite chunksFrom_take by lia. by rewrite drop_0. Qed.

(** Chunk number [j] exists when the list has more than [j * size]
    elements. *)
Lemma chunksFrom_length {A} (size : nat) (l : list A) (j fuel i : nat) :
  0 < size → length l - i ≤ fuel → i + j * size < length l →
  j < length (chunksFrom size l fuel i).
Proof.
  intros Hsize. revert fuel i. induction j as [|j IH]; intros fuel i Hfuel Hj.
  - destruct fuel as [|fuel]; [lia|]. cbn [chunksFrom]. rewrite bool_decide_true by lia.
    cbn. lia.
  - destruct fuel as [|fuel]; [lia|]. cbn [chunksFrom]. rewrite bool_decide_true by lia.
    cbn [length]. apply -> Nat.succ_lt_mono. apply IH; lia.
Qed.

Lemma chunks_length {A} (size : nat) (l : list A) (j : nat) :
  0 < size → j * size < length l → j < length (chunks size l).
Proof. intros. apply chunksFrom_length; lia. Qed.

Section WithWorld.
Variable w : World.

(** With no commit refused the loop sets every record of every chunk. *)
Lemma writeChunks_state (cs : list (list TrackRecord)) (k total : nat) (σ : Backend) :
  (∀ k, commitError w k = None) →
  ∃ σ' t,
    writeChunks w cs k total σ = (Ok tt, σ', t)
    ∧ Observed.commits t = cs
    ∧ tracks σ' = foldl (λ m t, <[id t := t]> m) (tracks σ) (concat cs)
    ∧ importState σ' = importState σ ∧ files σ' = files σ.
Proof.
  intros Hok. revert k σ. induction cs as [|chunk cs IH]; intros k σ.
  - by exists σ, [].
  - cbn [writeChunks]. unfold commit. mrun. rewrite Hok. mrun.
    match goal with |- context [writeChunks w cs (k + 1) total ?σ1] =>
      destruct (IH (k + 1) σ1) as (σ' & t & -> & Ht & Htracks & Hstate & Hfiles) end.
    eexists _, _. split; [done|]. cbn. unfold Observed.commits in Ht. rewrite Ht.
    split; [done|]. rewrite Htracks, Hstate, Hfiles. cbn. by rewrite foldl_app.
Qed.

(** The loop when commit number [k + j] is the first that is refused: the
    [j] chunks before it are written and stay written. *)
Lemma writeChunks_refused (cs : list (list TrackRecord)) (k total j : nat) (e : string)
    (σ : Backend) :
  (∀ i, i < j → commitError w (k + i) = None) → commitError w (k + j) = Some e →
  j < length cs →
  ∃ σ' t,
    writeChunks w cs k total σ = (Throw e, σ', t)
    ∧ Observed.commits t = take (j + 1) cs
    ∧ tracks σ' = foldl (λ m t, <[id t := t]> m) (tracks σ) (concat (take j cs))
    ∧ importState σ' = importState σ ∧ files σ' = files σ.
Proof.
  revert k j σ. induction cs as [|chunk cs IH]; intros k j σ Hbefore Hat Hj; [cbn in Hj; lia|].
  cbn [writeChunks]. unfold commit. destruct j as [|j].
  - rewrite Nat.add_0_r in Hat. mrun. rewrite Hat. mrun. by eexists _, _.
  - pose proof (Hbefore 0) as H0. rewrite Nat.add_0_r in H0.
    mrun. rewrite H0 by lia. mrun.
    match goal with |- context [writeChunks w cs (k + 1) total ?σ1] =>
      destruct (IH (k + 1) j σ1) as (σ' & t & -> & Ht & Htracks & Hstate & Hfiles) end.
    { intros i Hi. replace (k + 1 + i) with (k + S i) by lia. apply Hbefore. lia. }
    { by replace (k + 1 + j) with (k + S j) by lia. }
    { cbn in Hj. lia. }
    eexists _, _. split; [done|]. cbn. unfold Observed.commits in Ht. rewrite Ht.
    split; [done|]. rewrite Htracks, Hstate, Hfiles. cbn. by rewrite foldl_app.
Qed.
End WithWorld.

Lemma filter_none {A} (P : A → Prop) `{!∀ x, Decision (P x)} (l : list A) :
  Forall (λ x, ¬ P x) l → filter P l = [].
Proof. induction 1 as [|x l Hx _ IH]; [done|]. by rewrite filter_cons_False. Qed.
End WriterFacts.

(** X7: with no commit refused, [batchWriteTracks] returns, its commits are
    the chunks of the list in order, and afterwards the catalog holds under
    every id of the list the last record of the list with that id, and under
    every other id what it held before; the progress documents and the bucket
    are as they were. *)
Theorem X7_batch_write_result (w : Index.World) (db : Firestore)
    (newTracks : list TrackRecord) (σ : Backend) :
  (∀ k, Index.commitError w k = None) →
  let run := Index.batchWriteTracks w (Some db) newTracks σ in
  valueOf run = Ok tt
  ∧ commits (traceOf run) = chunks Index.BATCH_SIZE newTracks
  ∧ (∀ x, tracks (backendOf run) !! x
          = from_option Some (tracks σ !! x) (last (filter (λ t, id t = x) newTracks)))
  ∧ (∀ t, t ∈ newTracks → is_Some (tracks (backendOf run) !! id t))
  ∧ importState (backendOf run) = importState σ ∧ files (backendOf run) = files σ.
Proof.
  intros Hok run.
  destruct (WriterFacts.writeChunks_state w (chunks Index.BATCH_SIZE newTracks) 0
              (length newTracks) σ Hok) as (σ' & t & Hrun & Hc & Htracks & Hstate & Hfiles).
  rewrite chunks_concat in Htracks by (cbv; lia).
  assert (Hlook : ∀ x, tracks σ' !! x
            = from_option Some (tracks σ !! x) (last (filter (λ t, id t = x) newTracks))).
  { intros x. rewrite Htracks. apply WriterFacts.foldl_insert_lookup. }
  unfold run. cbn [Index.batchWriteTracks]. rewrite Hrun.
  cbn [valueOf backendOf traceOf fst snd].
  split; [done|]. split; [done|]. split; [done|]. split; [|done].
  intros t0 Hin. rewrite Hlook.
  assert (Hfil : t0 ∈ filter (λ t, id t = id t0) newTracks) by by apply list_elem_of_filter.
  destruct (filter (λ t, id t = id t0) newTracks) as [|a l] using rev_ind.
  - by apply elem_of_nil in Hfil.
  - rewrite last_snoc. by eexists.
Qed.

Lemma X7_batch_write_result_witness :
  let run :=
    Index.batchWriteTracks (Sample.world Sample.reachableStore) (Some FirestoreClient)
      [Sample.track "3"] Sample.catalog in
  valueOf run = Ok tt
  ∧ commits (traceOf run) = chunks Index.BATCH_SIZE [Sample.track "3"]
  ∧ (∀ x, tracks (backendOf run) !! x
          = from_option Some (tracks Sample.catalog !! x)
              (last (filter (λ t, id t = x) [Sample.track "3"])))
  ∧ (∀ t, t ∈ [Sample.track "3"] → is_Some (tracks (backendOf run) !! id t))
  ∧ importState (backendOf run) = importState Sample.catalog
  ∧ files (backendOf run) = files Sample.catalog.
Proof.
  apply (X7_batch_write_result (Sample.world Sample.reachableStore) FirestoreClient
           [Sample.track "3"] Sample.catalog).
  reflexivity.
Defined.

(** X8: when commit number [j] (from 0) is the first that is refused,
    [batchWriteTracks] rejects with its error after [j + 1] commits; the
    records of the [j] batches before it, the first [j * BATCH_SIZE] of the
    list, are in the catalog and stay there, and no later record is
    written. *)
Theorem X8_batch_write_partial (w : Index.World) (db : Firestore)
    (newTracks : list TrackRecord) (j : nat) (e : string) (σ : Backend) :
  (∀ i, i < j → Index.commitError w i = None) → Index.commitError w j = Some e →
  j * Index.BATCH_SIZE < length newTracks →
  let run := Index.batchWriteTracks w (Some db) newTracks σ in
  valueOf run = Throw e
  ∧ commits (traceOf run) = take (j + 1) (chunks Index.BATCH_SIZE newTracks)
  ∧ tracks (backendOf run)
    = foldl (λ m t, <[id t := t]> m) (tracks σ) (take (j * Index.BATCH_SIZE) newTracks)
  ∧ (∀ x, x ∉ map id (take (j * Index.BATCH_SIZE) newTracks) →
       tracks (backendOf run) !! x = tracks σ !! x).
Proof.
  intros Hbefore Hat Hj run.
  destruct (WriterFacts.writeChunks_refused w (chunks Index.BATCH_SIZE newTracks) 0
              (length newTracks) j e σ) as (σ' & t & Hrun & Hc & Htracks & _); [done|done| |].
  { apply WriterFacts.chunks_length; [cbv; lia|done]. }
  rewrite WriterFacts.chunks_take in Htracks by (cbv; lia).
  unfold run. cbn [Index.batchWriteTracks]. rewrite Hrun.
  cbn [valueOf backendOf traceOf fst snd].
  split; [done|]. split; [done|]. split; [done|].
  intros x Hx. rewrite Htracks, WriterFacts.foldl_insert_lookup.
  rewrite WriterFacts.filter_none; [done|].
  apply Forall_forall. intros t0 Hin Heq. apply Hx. apply list_elem_of_fmap. by exists t0.
Qed.

Lemma X8_batch_write_partial_witness :
  let w :=
    Index.mkWorld Sample.reachableStore None (λ _, None) (λ _, Some "DEADLINE_EXCEEDED")
      "0.1" in
  let run := Index.batchWriteTracks w (Some FirestoreClient) [Sample.track "3"] Sample.catalog in
  valueOf run = Throw "DEADLINE_EXCEEDED"
  ∧ commits (traceOf run) = take 1 (chunks Index.BATCH_SIZE [Sample.track "3"])
  ∧ tracks (backendOf run)
    = foldl (λ m t, <[id t := t]> m) (tracks Sample.catalog)
        (take (0 * Index.BATCH_SIZE) [Sample.track "3"])
  ∧ (∀ x, x ∉ map id (take (0 * Index.BATCH_SIZE) [Sample.track "3"]) →
       tracks (backendOf run) !! x = tracks Sample.catalog !! x).
Proof.
  apply (X8_batch_write_partial
           (Index.mkWorld Sample.reachableStore None (λ _, None)
              (λ _, Some "DEADLINE_EXCEEDED") "0.1")
           FirestoreClient [Sample.track "3"] 0 "DEADLINE_EXCEEDED" Sample.catalog).
  - intros i Hi. lia.
  - reflexivity.
  - cbn. lia.
Defined.

(** X9: ingestion is idempotent.  After [batchWriteTracks] has written a list
    of records, [batchCheckExisting] on their ids finds every one of them, so
    that the filter of the orchestrator keeps none of the records: a second
    run over the same records has nothing new to write. *)
Theorem X9_second_run_finds_nothing_new (w : Index.World) (db : Firestore)
    (newTracks : list TrackRecord) (σ : Backend) :
  (∀ k, Index.commitError w k = None) → (∀ k, Index.getAllError w k = None) →
  let written := backendOf (Index.batchWriteTracks w (Some db) newTracks σ) in
  ∃ existingIds,
    valueOf (Index.batchCheckExisting w db (map id newTracks) written) = Ok existingIds
    ∧ (∀ t, t ∈ newTracks → id t ∈ existingIds)
    ∧ Index.filterNew existingIds newTracks = [].
Proof.
  intros Hcommit Hget written.
  destruct (WriterFacts.writeChunks_state w (chunks Index.BATCH_SIZE newTracks) 0
              (length newTracks) σ Hcommit) as (σ' & t & Hrun & _ & Htracks & _).
  rewrite chunks_concat in Htracks by (cbv; lia).
  assert (Hw : written = σ') by (unfold written; cbn [Index.batchWriteTracks]; by rewrite Hrun).
  rewrite Hw. unfold Index.batchCheckExisting.
  destruct (IndexFacts.checkChunks_run w (chunks Index.CHUNK (map id newTracks)) 0 ∅ σ' Hget)
    as (found & Hcheck & Hfound).
  exists found. rewrite Hcheck. split; [done|].
  assert (Hall : ∀ t0, t0 ∈ newTracks → id t0 ∈ found).
  { intros t0 Hin. apply Hfound. right. rewrite chunks_concat by (cbv; lia).
    split; [apply list_elem_of_fmap; by exists t0|].
    rewrite Htracks, WriterFacts.foldl_insert_lookup.
    assert (Hfil : t0 ∈ filter (λ t, id t = id t0) newTracks) by by apply list_elem_of_filter.
    destruct (filter (λ t, id t = id t0) newTracks) as [|a l] using rev_ind.
    - by apply elem_of_nil in Hfil.
    - rewrite last_snoc. by eexists. }
  split; [done|].
  apply WriterFacts.filter_none, Forall_forall. intros t0 Hin Hnot. by apply Hnot, Hall.
Qed.

Lemma X9_second_run_finds_nothing_new_witness :
  let w := Sample.world Sample.reachableStore in
  let written :=
    backendOf (Index.batchWriteTracks w (Some FirestoreClient) [Sample.track "3"]
                 Sample.catalog) in
  ∃ existingIds,
    valueOf (Index.batchCheckExisting w FirestoreClient (map id [Sample.track "3"]) written)
    = Ok existingIds
    ∧ (∀ t, t ∈ [Sample.track "3"] → id t ∈ existingIds)
    ∧ Index.filterNew existingIds [Sample.track "3"] = [].
Proof.
  apply (X9_second_run_finds_nothing_new (Sample.world Sample.reachableStore) FirestoreClient
           [Sample.track "3"] Sample.catalog); reflexivity.
Defined.

(** ** index.ts: the orchestrator in a live run *)
Module MainFacts.
Import Index.

Lemma chunks_nonempty {A} (size : nat) (l : list A) :
  l ≠ [] → ∃ rest, chunks size l = slice 0 size l :: rest.
Proof.
  intros Hl. destruct l as [|x l]; [done|].
  unfold chunks. cbn [length chunksFrom]. rewrite bool_decide_true by lia. by eexists.
Qed.

(** Of the records with some property, those the filter keeps and those
    whose id is known add up. *)
Lemma filter_split (P : TrackRecord → Prop) `{!∀ t, Decision (P t)}
    (existingIds : gset string) (l : list TrackRecord) :
  length (filter P (filterNew existingIds l))
  + length (filter (λ t, P t ∧ id t ∈ existingIds) l)
  = length (filter P l).
Proof.
  unfold filterNew. induction l as [|t l IH]; [done|].
  destruct (decide (id t ∈ existingIds)) as [Hin|Hnin].
  - rewrite (filter_cons_False (λ t, id t ∉ existingIds)) by (intros Hx; by apply Hx).
    destruct (decide (P t)) as [HP|HP].
    + rewrite (filter_cons_True P), (filter_cons_True (λ t, P t ∧ id t ∈ existingIds)) by done.
      cbn [length]. lia.
    + rewrite (filter_cons_False P), (filter_cons_False (λ t, P t ∧ id t ∈ existingIds))
        by (try done; by intros [? ?]).
      done.
  - rewrite (filter_cons_True (λ t, id t ∉ existingIds)) by done.
    rewrite (filter_cons_False (λ t, P t ∧ id t ∈ existingIds)) by (by intros [? ?]).
    destruct (decide (P t)) as [HP|HP].
    + rewrite !(filter_cons_True P) by done. cbn [length]. lia.
    + by rewrite !(filter_cons_False P) by done.
Qed.

Lemma filter_kept (P : TrackRecord → Prop) `{!∀ t, Decision (P t)}
    (existingIds : gset string) (l : list TrackRecord) :
  length (filter P (filterNew existingIds l))
  = length (filter (λ t, P t ∧ id t ∉ existingIds) l).
Proof.
  unfold filterNew. induction l as [|t l IH]; [done|].
  destruct (decide (id t ∉ existingIds)) as [Hn|Hn], (decide (P t)) as [Hs|Hs].
  - rewrite (filter_cons_True (λ t, id t ∉ existingIds)) by done.
    rewrite (filter_cons_True P), (filter_cons_True (λ t, P t ∧ _)) by done.
    cbn [length]. by rewrite IH.
  - rewrite (filter_cons_True (λ t, id t ∉ existingIds)) by done.
    rewrite (filter_cons_False P), (filter_cons_False (λ t, P t ∧ _))
      by (try done; by intros [? ?]).
    done.
  - rewrite (filter_cons_False (λ t, id t ∉ existingIds)) by done.
    by rewrite (filter_cons_False (λ t, P t ∧ _)) by (by intros [? ?]).
  - rewrite (filter_cons_False (λ t, id t ∉ existingIds)) by done.
    by rewrite (filter_cons_False (λ t, P t ∧ _)) by (by intros [? ?]).
Qed.
End MainFacts.

(** X10: in a live run, when [initFirebaseAdmin] throws, [main] rejects with
    its error after the first log line: no adapter is launched, nothing is
    looked up, uploaded or written, and the backend is as it was. *)
Theorem X10_init_failure_aborts (validateTrack : TrackRecord → bool) (w : Index.World)
    (DRY_RUN : option string) (sources : list (option Firestore → M SourceResult))
    (e : string) (σ : Backend) :
  DRY_RUN ≠ Some "1" → Index.initError w = Some e →
  Index.main validateTrack w DRY_RUN sources σ
  = (Throw e, σ, [EvLog "main" "=== OpenTune Music Import Starting ==="]).
Proof.
  intros Hlive Hinit. unfold Index.main, Index.initFirebaseAdmin.
  rewrite bool_decide_false by done. rewrite Hinit. reflexivity.
Qed.

Lemma X10_init_failure_aborts_witness :
  Index.main Utils.validateTrack
    (Index.mkWorld Sample.reachableStore (Some "no credentials") (λ _, None) (λ _, None) "0.1")
    None [CCMixter.fetchCCMixter (λ t, t) Sample.scenario] Sample.catalog
  = (Throw "no credentials", Sample.catalog,
     [EvLog "main" "=== OpenTune Music Import Starting ==="]).
Proof.
  apply (X10_init_failure_aborts Utils.validateTrack
           (Index.mkWorld Sample.reachableStore (Some "no credentials") (λ _, None)
              (λ _, None) "0.1")
           None [CCMixter.fetchCCMixter (λ t, t) Sample.scenario] "no credentials"
           Sample.catalog).
  - discriminate.
  - reflexivity.
Defined.

(** X11: in a live run in which the adapters delivered at least one valid
    record, when the first lookup of the deduplicator is refused, [main]
    rejects with that error; the backend is as the adapters left it, and after
    the adapters the orchestrator has only logged and issued that one lookup:
    nothing is downloaded, uploaded or committed. *)
Theorem X11_lookup_failure_aborts (validateTrack : TrackRecord → bool) (w : Index.World)
    (DRY_RUN : option string) (sources : list (option Firestore → M SourceResult))
    (e : string) (σ : Backend) :
  DRY_RUN ≠ Some "1" → Index.initError w = None → Index.getAllError w 0 = Some e →
  let fetched := settleAll (map (λ fetchSource, fetchSource (Some FirestoreClient)) sources) σ in
  let allTracks := validTracks validateTrack fetched.1.1 in
  allTracks ≠ [] →
  ∃ before after,
    Index.main validateTrack w DRY_RUN sources σ
    = (Throw e, fetched.1.2,
       before ++ fetched.2 ++ after
         ++ [EvGetAll (slice 0 Index.CHUNK (map id allTracks))])
    ∧ Forall logged before ∧ Forall logged after.
Proof.
  intros Hlive Hinit Hget fetched allTracks Hne.
  unfold Index.main, Index.initFirebaseAdmin. rewrite bool_decide_false by done.
  rewrite Hinit. unfold allSettled. mrun. cbn [fmap option_fmap option_map Index.db].
  fold fetched. destruct fetched as [[results σ1] t0] eqn:Hfetched. cbn [fst snd] in *.
  destruct (IndexFacts.collectResults_run validateTrack results [] [] σ1) as (t1 & Hrun & Ht1).
  rewrite Hrun. cbn [app]. fold allTracks.
  unfold Index.batchCheckExisting.
  destruct (MainFacts.chunks_nonempty Index.CHUNK (map id allTracks)) as [rest ->].
  { by destruct allTracks. }
  cbn [Index.checkChunks]. unfold Index.getAll. mrun. rewrite Hget. mrun.
  eexists [_; _], (t1 ++ [_]). split.
  { rewrite <- !app_assoc. reflexivity. }
  split; [by repeat constructor|]. apply Forall_app. split; [done|]. by repeat constructor.
Qed.

Lemma X11_lookup_failure_aborts_witness :
  let w :=
    Index.mkWorld Sample.reachableStore None (λ _, Some "UNAVAILABLE") (λ _, None) "0.1" in
  let sources := [CCMixter.fetchCCMixter (λ t, t) Sample.scenario] in
  let fetched :=
    settleAll (map (λ fetchSource, fetchSource (Some FirestoreClient)) sources)
      Sample.catalog in
  let allTracks := validTracks Utils.validateTrack fetched.1.1 in
  ∃ before after,
    Index.main Utils.validateTrack w None sources Sample.catalog
    = (Throw "UNAVAILABLE", fetched.1.2,
       before ++ fetched.2 ++ after
         ++ [EvGetAll (slice 0 Index.CHUNK (map id allTracks))])
    ∧ Forall logged before ∧ Forall logged after.
Proof.
  apply (X11_lookup_failure_aborts Utils.validateTrack
           (Index.mkWorld Sample.reachableStore None (λ _, Some "UNAVAILABLE") (λ _, None)
              "0.1")
           None [CCMixter.fetchCCMixter (λ t, t) Sample.scenario] "UNAVAILABLE"
           Sample.catalog).
  - discriminate.
  - reflexivity.
  - reflexivity.
  - vm_compute. discriminate.
Defined.

(** X12: a live run whose adapters deliver no valid record contacts neither
    the catalog nor the bucket: whatever lookups, uploads and commits would
    answer, [main] completes, the backend is as the adapters left it, and
    after the adapters it only logs, among other lines that no track is
    new. *)
Theorem X12_nothing_fetched (validateTrack : TrackRecord → bool) (w : Index.World)
    (DRY_RUN : option string) (sources : list (option Firestore → M SourceResult))
    (σ : Backend) :
  DRY_RUN ≠ Some "1" → Index.initError w = None →
  let fetched := settleAll (map (λ fetchSource, fetchSource (Some FirestoreClient)) sources) σ in
  validTracks validateTrack fetched.1.1 = [] →
  ∃ before after,
    Index.main validateTrack w DRY_RUN sources σ
    = (Ok tt, fetched.1.2, before ++ fetched.2 ++ after)
    ∧ Forall logged before ∧ Forall logged after
    ∧ EvLog "main" "After dedup: 0 new, 0 duplicates" ∈ after
    ∧ EvLog "main" "Total new tracks written: 0" ∈ after.
Proof.
  intros Hlive Hinit fetched Hnone.
  unfold Index.main, Index.initFirebaseAdmin. rewrite bool_decide_false by done.
  rewrite Hinit. unfold allSettled. mrun. cbn [fmap option_fmap option_map Index.db Index.bucket].
  fold fetched. destruct fetched as [[results σ1] t0] eqn:Hfetched. cbn [fst snd] in *.
  destruct (IndexFacts.collectResults_run validateTrack results [] [] σ1) as (t1 & Hrun & Ht1).
  rewrite Hrun. cbn [app]. rewrite Hnone.
  unfold Index.batchCheckExisting, Index.uploadStage, Index.writeStage.
  change (chunks Index.CHUNK (map id [])) with (@nil (list string)).
  cbn [Index.checkChunks]. mrun. cbn [Index.filterNew]. unfold Index.filterNew.
  rewrite filter_nil. cbn [length]. rewrite bool_decide_false by lia.
  mrun. cbn [length]. rewrite bool_decide_false by lia.
  mrun. rewrite IndexFacts.forEach_emit. mrun.
  eexists [_; _], (t1 ++ [_; _; _] ++ map _ _ ++ [_; _]). split.
  { rewrite ?app_nil_r, <- ?app_assoc. cbn [app]. rewrite <- ?app_assoc. reflexivity. }
  split; [by repeat constructor|]. split.
  { apply Forall_app. split; [done|]. apply Forall_app. split; [by repeat constructor|].
    apply Forall_app. split; [|by repeat constructor].
    apply Forall_forall. intros ev Hev. by apply list_elem_of_fmap in Hev as (? & -> & _). }
  split.
  - apply elem_of_app. right. apply elem_of_app. left. rewrite !elem_of_cons. auto.
  - apply elem_of_app. right. apply elem_of_app. right. apply elem_of_app. right.
    rewrite !elem_of_cons. auto.
Qed.

Lemma X12_nothing_fetched_witness :
  let w :=
    Index.mkWorld Sample.unreachableStore None (λ _, Some "UNAVAILABLE")
      (λ _, Some "UNAVAILABLE") "0.1" in
  let sources := [CCMixter.fetchCCMixter (λ t, t) Sample.emptyPages] in
  let fetched :=
    settleAll (map (λ fetchSource, fetchSource (Some FirestoreClient)) sources)
      Sample.catalog in
  ∃ before after,
    Index.main Utils.validateTrack w None sources Sample.catalog
    = (Ok tt, fetched.1.2, before ++ fetched.2 ++ after)
    ∧ Forall logged before ∧ Forall logged after
    ∧ EvLog "main" "After dedup: 0 new, 0 duplicates" ∈ after
    ∧ EvLog "main" "Total new tracks written: 0" ∈ after.
Proof.
  apply (X12_nothing_fetched Utils.validateTrack
           (Index.mkWorld Sample.unreachableStore None (λ _, Some "UNAVAILABLE")
              (λ _, Some "UNAVAILABLE") "0.1")
           None [CCMixter.fetchCCMixter (λ t, t) Sample.emptyPages] Sample.catalog).
  - discriminate.
  - reflexivity.
  - vm_compute. reflexivity.
Defined.

(** X13: the statistics of a source after deduplication.  With the new
    records being those the filter keeps, [newTracks] and [skippedDuplicates]
    add up to the number of valid records whose id starts with the prefix of
    the source, [skippedDuplicates] is the number of those whose id is known
    to the catalog (the subtraction never goes below zero), and [source],
    [fetched] and [errors] are left as the adapter's result set them. *)
Theorem X13_stats_account (existingIds : gset string) (allTracks : list TrackRecord)
    (stat : ImportStats) :
  let stat' := Index.updateStat allTracks (Index.filterNew existingIds allTracks) stat in
  let ofSource := λ t, startsWith (id t) (Index.prefixOf (source stat)) = true in
  newTracks stat' + skippedDuplicates stat' = length (filter ofSource allTracks)
  ∧ skippedDuplicates stat'
    = length (filter (λ t, ofSource t ∧ id t ∈ existingIds) allTracks)
  ∧ newTracks stat'
    = length (filter (λ t, ofSource t ∧ id t ∉ existingIds) allTracks)
  ∧ source stat' = source stat ∧ fetched stat' = fetched stat ∧ errors stat' = errors stat.
Proof.
  intros stat' ofSource. subst stat' ofSource. cbv beta.
  pose proof (MainFacts.filter_split
                (λ t, startsWith (id t) (Index.prefixOf (source stat)) = true)
                existingIds allTracks) as Hsplit.
  pose proof (MainFacts.filter_kept
                (λ t, startsWith (id t) (Index.prefixOf (source stat)) = true)
                existingIds allTracks) as Hnew.
  cbv beta in Hsplit, Hnew. unfold Index.updateStat. cbn [newTracks skippedDuplicates source fetched errors].
  split; [lia|]. split; [lia|]. by split.
Qed.

(** ** sources/*.ts: whatever the provider and the database answer *)
Module AdapterMore.
Import Adapter Rotation Visits.

Lemma requests_app (t1 t2 : list Event) : requests (t1 ++ t2) = requests t1 ++ requests t2.
Proof. apply omap_app. Qed.

Lemma stateEvents_app (t1 t2 : list Event) :
  stateEvents (t1 ++ t2) = stateEvents t1 ++ stateEvents t2.
Proof. apply omap_app. Qed.

Section Rotating.
Context {Raw : Type}.
Variables (SOURCE STATE_DOC : string) (PARTITIONS : list string).
Variables (perRun PAGE_SIZE delay : nat).
Variable asked : nat → nat.
Variable convert : string → Raw → option (string * result TrackRecord).
Variable sanitizeTrack : TrackRecord → TrackRecord.
Variable msg : Messages.

Lemma addRecords_errors (partition : string) (records : list Raw) (acc : Acc) :
  acc_errors (addRecords convert sanitizeTrack partition records acc).1 = acc_errors acc.
Proof.
  revert acc. induction records as [|record records IH]; intros acc; [done|].
  cbn [addRecords]. destruct (convert partition record) as [[rid [track|e]]|]; [| |done].
  - case_bool_decide; [done|]. by rewrite IH.
  - by case_bool_decide.
Qed.

(** What one turn of the partition loop asks, and how far it changes the
    variables of the loop: an invariant of the loop over the records that
    pushing an error and setting an offset keep is kept by the turn. *)
Lemma fetchPartition_turn (env : Env Raw) (state : ProviderState) (acc : Acc) (ct : nat)
    (σ : Backend) (I : Acc → Prop) :
  (∀ a e, I a → I (pushError a e)) → (∀ a p o, I a → I (setOffset a p o)) →
  (∀ p records a, I a → I (addRecords convert sanitizeTrack p records a).1) →
  I acc →
  let partition := partitionAt PARTITIONS (index state) ct in
  let offset := default 0 (acc_offsets acc !! partition) in
  ∃ acc' t,
    fetchPartition SOURCE PARTITIONS PAGE_SIZE delay asked convert sanitizeTrack msg env
      state acc ct σ = (Ok acc', σ, t)
    ∧ requests t = [(SOURCE, partition, asked offset)]
    ∧ stateEvents t = []
    ∧ length (acc_errors acc') ≤ length (acc_errors acc) + 1
    ∧ I acc'.
Proof.
  intros Hpush Hset Hadd Hacc partition offset. unfold fetchPartition.
  fold (partitionAt PARTITIONS (index state) ct). fold partition. fold offset.
  mrun. destruct (request env partition (asked offset)) as [e|ok status json].
  { eexists _, _. split; [done|]. repeat split; [cbn; rewrite length_app; cbn; lia|by apply Hpush]. }
  destruct ok; cbn [negb].
  2: { eexists _, _. split; [done|].
       repeat split; [cbn; rewrite length_app; cbn; lia|by apply Hpush]. }
  destruct json as [[[|record records]|]|e].
  - eexists _, _. split; [done|]. repeat split; [cbn; lia|by apply Hset].
  - pose proof (addRecords_errors partition (record :: records) acc) as Herr.
    pose proof (Hadd partition (record :: records) acc Hacc) as Hinv.
    destruct (addRecords convert sanitizeTrack partition (record :: records) acc)
      as [acc1 [e|]]; cbn [fst snd] in *.
    + eexists _, _. split; [done|].
      repeat split; [cbn; rewrite length_app, Herr; cbn; lia|by apply Hpush].
    + mrun. eexists _, _. split; [done|]. repeat split; [cbn; rewrite Herr; lia|by apply Hset].
  - eexists _, _. split; [done|]. repeat split; [cbn; lia|by apply Hset].
  - eexists _, _. split; [done|].
    repeat split; [cbn; rewrite length_app; cbn; lia|by apply Hpush].
Qed.

Lemma fetchPartitions_turns (env : Env Raw) (state : ProviderState) (remaining c : nat)
    (acc : Acc) (σ : Backend) (I : Acc → Prop) :
  (∀ a e, I a → I (pushError a e)) → (∀ a p o, I a → I (setOffset a p o)) →
  (∀ p records a, I a → I (addRecords convert sanitizeTrack p records a).1) →
  I acc →
  ∃ acc' t,
    fetchPartitions SOURCE PARTITIONS PAGE_SIZE delay asked convert sanitizeTrack msg env
      state acc remaining c σ = (Ok acc', σ, t)
    ∧ stateEvents t = []
    ∧ length (requests t) = remaining
    ∧ length (acc_errors acc') ≤ length (acc_errors acc) + remaining
    ∧ I acc'.
Proof.
  intros Hpush Hset Hadd. revert c acc.
  induction remaining as [|remaining IH]; intros c acc Hacc.
  - exists acc, []. repeat split; [cbn; lia|done].
  - cbn [fetchPartitions]. rewrite run_bind.
    destruct (fetchPartition_turn env state acc c σ I Hpush Hset Hadd Hacc)
      as (acc1 & t1 & -> & Hr1 & Hs1 & He1 & Hi1).
    destruct (IH (c + 1) acc1 Hi1) as (acc2 & t2 & -> & Hs2 & Hr2 & He2 & Hi2).
    exists acc2, (t1 ++ t2). split; [done|].
    rewrite stateEvents_app, requests_app, Hs1, Hs2, Hr1, length_app, Hr2.
    repeat split; [cbn; lia|done].
Qed.

(** While the turns of a run select different partitions, every turn asks
    for the offset its partition had when the run began. *)
Lemma fetchPartitions_requests (env : Env Raw) (state : ProviderState) (remaining c : nat)
    (acc : Acc) (σ : Backend) :
  NoDup PARTITIONS → c + remaining ≤ length PARTITIONS →
  ∃ acc' t,
    fetchPartitions SOURCE PARTITIONS PAGE_SIZE delay asked convert sanitizeTrack msg env
      state acc remaining c σ = (Ok acc', σ, t)
    ∧ requests t
      = map (λ ct, (SOURCE, partitionAt PARTITIONS (index state) ct,
                    asked (default 0 (acc_offsets acc
                                        !! partitionAt PARTITIONS (index state) ct))))
          (seq c remaining).
Proof.
  intros Hnd. revert c acc. induction remaining as [|remaining IH]; intros c acc Hle.
  - by exists acc, [].
  - cbn [fetchPartitions]. rewrite run_bind.
    destruct (fetchPartition_turn env state acc c σ (λ _, True)) as (acc1 & t1 & Hrun1 & Hr1 & _);
      [done..|].
    destruct (AdapterFacts.fetchPartition_run SOURCE PARTITIONS PAGE_SIZE delay asked convert
                sanitizeTrack msg env state acc c σ) as (acc1' & t1' & Hrun1' & _ & Hoff).
    rewrite Hrun1 in Hrun1'. injection Hrun1' as <- <-. rewrite Hrun1.
    destruct (IH (c + 1) acc1) as (acc2 & t2 & -> & Hr2); [lia|].
    exists acc2, (t1 ++ t2). split; [done|].
    rewrite requests_app, Hr1, Hr2. cbn [seq map app]. f_equal.
    replace (c + 1) with (S c) by lia. apply map_ext_in. intros ct Hct.
    apply in_seq in Hct. do 3 f_equal. rewrite Hoff.
    assert (partitionAt PARTITIONS (index state) c ≠ partitionAt PARTITIONS (index state) ct)
      by (apply AdapterFacts.partitionAt_ne; [done|lia|lia]).
    match goal with |- context [outcome ?reply ?e] => destruct (outcome reply e) end;
      by rewrite ?lookup_insert_ne.
Qed.

(** A run of the adapter, whatever the provider and the database answer. *)
Lemma fetchRotating_any (env : Env Raw) (db : option Firestore) (σ : Backend) :
  let state := loaded STATE_DOC env db σ in
  ∃ acc t0 σ' t,
    fetchPartitions SOURCE PARTITIONS PAGE_SIZE delay asked convert sanitizeTrack msg env
      state (mkAcc [] [] ∅ (offsets state)) perRun 0 σ = (Ok acc, σ, t0)
    ∧ fetchRotating SOURCE STATE_DOC PARTITIONS perRun PAGE_SIZE delay asked convert
        sanitizeTrack msg env db σ
      = (Ok (mkSourceResult SOURCE (acc_tracks acc) (acc_errors acc)), σ', t)
    ∧ requests t = requests t0
    ∧ tracks σ' = tracks σ ∧ files σ' = files σ
    ∧ match db, stateSetError env with
      | Some _, None =>
          importState σ'
          = <[STATE_DOC := mkState ((index state + perRun) `mod` length PARTITIONS)
                             (acc_offsets acc) (now env)]> (importState σ)
      | _, _ => σ' = σ
      end.
Proof.
  intros state.
  destruct (AdapterFacts.fetchPartitions_run SOURCE PARTITIONS PAGE_SIZE delay asked convert
              sanitizeTrack msg env state perRun 0 (mkAcc [] [] ∅ (offsets state)) σ)
    as (acc & t0 & Hrun & _).
  exists acc, t0. unfold state, loaded, storedState in *.
  unfold fetchRotating, loadState, saveState.
  destruct db as [d|]; mrun.
  - destruct (stateGetError env) as [e|]; mrun; rewrite Hrun;
      destruct (stateSetError env) as [e'|]; mrun; eexists _, _;
      (split; [done|]); (split; [reflexivity|]);
      (split; [unfold requests; cbn [omap list_omap]; rewrite omap_app;
               cbn [omap list_omap]; by rewrite app_nil_r|]);
      by repeat split.
  - rewrite Hrun. eexists _, _. split; [done|]. split; [reflexivity|].
    rewrite requests_app. cbn. rewrite app_nil_r. by repeat split.
Qed.
End Rotating.
End AdapterMore.

(** ** sources/*.ts: the records of a run *)
Module RecordFacts.
Import Adapter Rotation Visits.

Section Rotating.
Context {Raw : Type}.
Variable convert : string → Raw → option (string * result TrackRecord).
Variable sanitizeTrack : TrackRecord → TrackRecord.
(** The record an adapter builds carries the id the adapter tested. *)
Hypothesis Hconv : ∀ p r rid t, convert p r = Some (rid, Ok t) → id t = rid.
Hypothesis Hid : ∀ t, id (sanitizeTrack t) = id t.

Lemma addRecords_distinct (partition : string) (records : list Raw) (acc : Acc) :
  distinct acc → distinct (addRecords convert sanitizeTrack partition records acc).1.
Proof.
  revert acc. induction records as [|record records IH]; intros acc Hacc; [done|].
  cbn [addRecords]. destruct (convert partition record) as [[rid [track|e]]|] eqn:Hc; [| |by apply IH].
  - case_bool_decide as Hseen; [by apply IH|]. apply IH.
    destruct Hacc as [Hnd Hin]. split; cbn [acc_tracks acc_seen].
    + rewrite map_app. apply NoDup_app. split; [done|]. split; [|apply NoDup_singleton].
      intros x Hx Hx'. cbn in Hx'. apply list_elem_of_singleton in Hx'. subst x.
      apply list_elem_of_fmap in Hx as (t & Ht & Htin).
      apply Hseen. rewrite Hid, (Hconv _ _ _ _ Hc) in Ht. rewrite Ht. by apply Hin.
    + intros t Ht. apply elem_of_app in Ht as [Ht|Ht].
      * apply elem_of_union. right. by apply Hin.
      * apply list_elem_of_singleton in Ht. subst t.
        rewrite Hid, (Hconv _ _ _ _ Hc). apply elem_of_union. left. by apply elem_of_singleton.
  - case_bool_decide as Hseen; [by apply IH|]. cbn [fst].
    destruct Hacc as [Hnd Hin]. split; [done|]. cbn [acc_tracks acc_seen].
    intros t Ht. apply elem_of_union. right. by apply Hin.
Qed.

Lemma fetchRotating_distinct (SOURCE STATE_DOC : string) (PARTITIONS : list string)
    (perRun PAGE_SIZE delay : nat) (asked : nat → nat) (msg : Messages)
    (env : Env Raw) (db : option Firestore) (σ : Backend) :
  ∃ sr,
    valueOf (fetchRotating SOURCE STATE_DOC PARTITIONS perRun PAGE_SIZE delay asked convert
               sanitizeTrack msg env db σ) = Ok sr
    ∧ NoDup (map id (sr_tracks sr)).
Proof.
  destruct (AdapterMore.fetchRotating_any SOURCE STATE_DOC PARTITIONS perRun PAGE_SIZE delay
              asked convert sanitizeTrack msg env db σ)
    as (acc & t0 & σ' & t & Hloop & Hrun & _).
  destruct (AdapterMore.fetchPartitions_turns SOURCE PARTITIONS PAGE_SIZE delay asked convert
              sanitizeTrack msg env (loaded STATE_DOC env db σ) perRun 0
              (mkAcc [] [] ∅ (offsets (loaded STATE_DOC env db σ))) σ distinct)
    as (acc' & t' & Hloop' & _ & _ & _ & Hdistinct).
  - by intros a e [? ?].
  - by intros a p o [? ?].
  - intros p records a. apply addRecords_distinct.
  - split; [constructor|]. intros t1 Ht1. by apply elem_of_nil in Ht1.
  - rewrite Hloop in Hloop'. injection Hloop' as <- <-.
    eexists. rewrite Hrun. split; [done|]. apply Hdistinct.
Qed.
End Rotating.

(** The three adapters build the record under the id they looked up. *)
Lemma ccmixter_convert_id (p : string) (r : CCMixter.Raw.CCMixterTrack) (rid : string)
    (t : TrackRecord) :
  CCMixter.convert p r = Some (rid, Ok t) → id t = rid.
Proof.
  unfold CCMixter.convert. intros H.
  repeat (case_match; simplify_eq); done.
Qed.

Lemma musicbrainz_convert_id (p : string) (r : MusicBrainz.Raw.MBRecording) (rid : string)
    (t : TrackRecord) :
  MusicBrainz.convert p r = Some (rid, Ok t) → id t = rid.
Proof.
  unfold MusicBrainz.convert. intros H.
  repeat (case_match; simplify_eq); done.
Qed.

Lemma discogs_convert_id (p : string) (r : Discogs.Raw.DiscogsRelease) (rid : string)
    (t : TrackRecord) :
  Discogs.convert p r = Some (rid, Ok t) → id t = rid.
Proof.
  unfold Discogs.convert. intros H.
  repeat (case_match; simplify_eq); done.
Qed.
End RecordFacts.

(** X14: a rotating adapter never rejects.  Whatever the provider answers,
    and whether or not the progress document can be read or written, the run
    returns a result under the name of the adapter; it asks the provider once
    per turn, reports at most one error per turn, leaves the catalog and the
    bucket as they were, and touches no progress document but its own. *)
Theorem X14_adapter_never_rejects {Raw : Type} (SOURCE STATE_DOC : string)
    (PARTITIONS : list string) (perRun PAGE_SIZE delay : nat) (asked : nat → nat)
    (convert : string → Raw → option (string * result TrackRecord))
    (sanitizeTrack : TrackRecord → TrackRecord) (msg : Messages)
    (env : Env Raw) (db : option Firestore) (σ : Backend) :
  let run :=
    fetchRotating SOURCE STATE_DOC PARTITIONS perRun PAGE_SIZE delay asked convert
      sanitizeTrack msg env db σ in
  ∃ sr,
    valueOf run = Ok sr
    ∧ sourceName sr = SOURCE
    ∧ length (sr_errors sr) ≤ perRun
    ∧ length (Visits.requests (traceOf run)) = perRun
    ∧ tracks (backendOf run) = tracks σ ∧ files (backendOf run) = files σ
    ∧ ∀ doc, doc ≠ STATE_DOC → importState (backendOf run) !! doc = importState σ !! doc.
Proof.
  intros run.
  destruct (AdapterMore.fetchRotating_any SOURCE STATE_DOC PARTITIONS perRun PAGE_SIZE delay
              asked convert sanitizeTrack msg env db σ)
    as (acc & t0 & σ' & t & Hloop & Hrun & Hreq & Htracks & Hfiles & Hstate).
  destruct (AdapterMore.fetchPartitions_turns SOURCE PARTITIONS PAGE_SIZE delay asked convert
              sanitizeTrack msg env (Visits.loaded STATE_DOC env db σ) perRun 0
              (mkAcc [] [] ∅ (offsets (Visits.loaded STATE_DOC env db σ))) σ (λ _, True))
    as (acc' & t' & Hloop' & _ & Hlen & Herr & _); [done..|].
  rewrite Hloop in Hloop'. injection Hloop' as <- <-.
  eexists. unfold run. rewrite Hrun. cbn [valueOf backendOf traceOf fst snd].
  split; [done|]. split; [done|]. split; [cbn in *; lia|]. split; [by rewrite Hreq|].
  split; [done|]. split; [done|]. intros doc Hdoc.
  destruct db as [d|]; [|by rewrite Hstate].
  destruct (stateSetError env); [by rewrite Hstate|].
  rewrite Hstate. by apply lookup_insert_ne.
Qed.

(** X15: provided [sanitizeTrack] keeps the id of a record, the records a
    run of the ccMixter, MusicBrainz or Discogs adapter returns have pairwise
    different ids, whatever the provider sends, also across the partitions
    of the run. *)
Theorem X15_unique_ids (sanitizeTrack : TrackRecord → TrackRecord) (σ : Backend)
    (db : option Firestore) :
  (∀ t, id (sanitizeTrack t) = id t) →
  (∀ env, ∃ sr, valueOf (CCMixter.fetchCCMixter sanitizeTrack env db σ) = Ok sr
                ∧ NoDup (map id (sr_tracks sr)))
  ∧ (∀ env, ∃ sr, valueOf (MusicBrainz.fetchMusicBrainz sanitizeTrack env db σ) = Ok sr
                  ∧ NoDup (map id (sr_tracks sr)))
  ∧ (∀ token env, ∃ sr, valueOf (Discogs.fetchDiscogs token sanitizeTrack env db σ) = Ok sr
                        ∧ NoDup (map id (sr_tracks sr))).
Proof.
  intros Hid. split; [|split].
  - intros env. apply RecordFacts.fetchRotating_distinct; [|done].
    apply RecordFacts.ccmixter_convert_id.
  - intros env. apply RecordFacts.fetchRotating_distinct; [|done].
    apply RecordFacts.musicbrainz_convert_id.
  - intros token env. unfold Discogs.fetchDiscogs.
    destruct (negb _).
    + eexists. split; [reflexivity|]. constructor.
    + apply RecordFacts.fetchRotating_distinct; [|done].
      apply RecordFacts.discogs_convert_id.
Qed.

Lemma X15_unique_ids_witness :
  ∃ sr,
    valueOf (CCMixter.fetchCCMixter (λ t, t) Sample.scenario (Some FirestoreClient)
               Sample.catalog) = Ok sr
    ∧ NoDup (map id (sr_tracks sr)).
Proof.
  exact (proj1 (X15_unique_ids (λ t, t) Sample.catalog (Some FirestoreClient)
                  (λ t, eq_refl)) Sample.scenario).
Defined.

(** ** sources/*.ts: the progress document *)
Module ProgressFacts.
Import Adapter Rotation Visits.

Section Rotating.
Context {Raw : Type}.
Variables (SOURCE STATE_DOC : string) (PARTITIONS : list string).
Variables (perRun PAGE_SIZE delay : nat).
Variable asked : nat → nat.
Variable convert : string → Raw → option (string * result TrackRecord).
Variable sanitizeTrack : TrackRecord → TrackRecord.
Variable msg : Messages.

(** The partition loop reads nothing of its environment but the replies of
    the provider. *)
Lemma fetchPartitions_replies (env1 env2 : Env Raw) (state : ProviderState)
    (remaining c : nat) (acc : Acc) (σ : Backend) :
  (∀ p o, request env1 p o = request env2 p o) →
  fetchPartitions SOURCE PARTITIONS PAGE_SIZE delay asked convert sanitizeTrack msg env1
    state acc remaining c σ
  = fetchPartitions SOURCE PARTITIONS PAGE_SIZE delay asked convert sanitizeTrack msg env2
      state acc remaining c σ.
Proof.
  intros Hreq. revert c acc. induction remaining as [|remaining IH]; intros c acc; [done|].
  cbn [fetchPartitions]. rewrite !run_bind.
  assert (fetchPartition SOURCE PARTITIONS PAGE_SIZE delay asked convert sanitizeTrack msg
            env1 state acc c σ
          = fetchPartition SOURCE PARTITIONS PAGE_SIZE delay asked convert sanitizeTrack msg
              env2 state acc c σ) as ->.
  { unfold fetchPartition. by rewrite Hreq. }
  destruct (AdapterFacts.fetchPartition_run SOURCE PARTITIONS PAGE_SIZE delay asked convert
              sanitizeTrack msg env2 state acc c σ) as (acc1 & t1 & -> & _).
  by rewrite IH.
Qed.

(** The addRecords loop ends with an exception when it meets a record whose
    construction throws and whose id is new. *)
Lemma addRecords_throws (partition : string) (before after : list Raw) (bad : Raw)
    (rid e : string) (acc : Acc) :
  convert partition bad = Some (rid, Throw e) → rid ∉ acc_seen acc →
  Forall (λ r, ∀ rid' built, convert partition r = Some (rid', built) → rid' ≠ rid) before →
  is_Some (addRecords convert sanitizeTrack partition (before ++ bad :: after) acc).2.
Proof.
  intros Hbad Hnew Hbefore. revert acc Hnew.
  induction Hbefore as [|r before Hr _ IH]; intros acc Hnew; cbn [app addRecords].
  - rewrite Hbad. rewrite bool_decide_false by done. by eexists.
  - destruct (convert partition r) as [[rid' [track|e']]|] eqn:Hc; [| |by apply IH].
    + case_bool_decide; [by apply IH|]. apply IH. cbn [acc_seen].
      intros [Hin%elem_of_singleton|Hin]%elem_of_union; [|done].
      by apply (Hr rid' (Ok track)).
    + case_bool_decide; [by apply IH|]. by eexists.
Qed.

End Rotating.

Lemma append_inj (p a b : string) : p +:+ a = p +:+ b → a = b.
Proof. induction p as [|c p IH]; [done|]. simpl. intros H. apply IH. by simplify_eq. Qed.
End ProgressFacts.

(** X16: when the progress document cannot be written, the adapter returns
    what it would have returned had the write succeeded, and leaves the
    backend as it was: the progress of the run is lost, its records are not,
    and the failure is logged. *)
Theorem X16_save_failure_keeps_result {Raw : Type} (SOURCE STATE_DOC : string)
    (PARTITIONS : list string) (perRun PAGE_SIZE delay : nat) (asked : nat → nat)
    (convert : string → Raw → option (string * result TrackRecord))
    (sanitizeTrack : TrackRecord → TrackRecord) (msg : Messages)
    (replies : string → nat → Reply Raw) (getError : option string) (e time : string)
    (db : Firestore) (σ : Backend) :
  let run :=
    fetchRotating SOURCE STATE_DOC PARTITIONS perRun PAGE_SIZE delay asked convert
      sanitizeTrack msg (mkEnv replies getError (Some e) time) (Some db) σ in
  let saved :=
    fetchRotating SOURCE STATE_DOC PARTITIONS perRun PAGE_SIZE delay asked convert
      sanitizeTrack msg (mkEnv replies getError None time) (Some db) σ in
  valueOf run = valueOf saved
  ∧ (∃ sr, valueOf run = Ok sr)
  ∧ backendOf run = σ
  ∧ EvLog SOURCE ("Could not save state: " +:+ e) ∈ traceOf run.
Proof.
  intros run saved. unfold run, saved, fetchRotating, loadState, saveState.
  cbn [stateGetError stateSetError now].
  destruct getError as [e0|]; mrun.
  all: match goal with
       | |- context [fetchPartitions _ _ _ _ _ _ _ _ (mkEnv ?r ?g (Some ?x) ?n)] =>
           rewrite (ProgressFacts.fetchPartitions_replies SOURCE PARTITIONS PAGE_SIZE delay
                      asked convert sanitizeTrack msg (mkEnv r g (Some x) n)
                      (mkEnv r g None n)) by done
       end.
  all: match goal with |- context [fetchPartitions _ _ _ _ _ _ _ _ ?env ?state ?acc _ _ ?s] =>
         destruct (AdapterFacts.fetchPartitions_run SOURCE PARTITIONS PAGE_SIZE delay asked
                     convert sanitizeTrack msg env state perRun 0 acc s)
           as (acc1 & t1 & -> & _)
       end.
  all: mrun; cbn [valueOf backendOf traceOf fst snd].
  all: split; [done|]; split; [by eexists|]; split; [done|].
  all: rewrite ?elem_of_cons, ?elem_of_app, ?elem_of_cons; auto 10.
Qed.

(** X17: when the progress document cannot be read, the run starts from the
    default state: it asks for the first [perRun] partitions of the list,
    each at its first page, whatever the stored document says; and the
    document it then saves replaces the stored one, with the index at
    [perRun] and without an offset for any partition the run did not ask
    for. *)
Theorem X17_load_failure_resets_progress {Raw : Type} (SOURCE STATE_DOC : string)
    (PARTITIONS : list string) (perRun PAGE_SIZE delay : nat) (asked : nat → nat)
    (convert : string → Raw → option (string * result TrackRecord))
    (sanitizeTrack : TrackRecord → TrackRecord) (msg : Messages)
    (env : Env Raw) (e : string) (db : Firestore) (σ : Backend) :
  NoDup PARTITIONS → perRun ≤ length PARTITIONS →
  stateGetError env = Some e → stateSetError env = None →
  let run :=
    fetchRotating SOURCE STATE_DOC PARTITIONS perRun PAGE_SIZE delay asked convert
      sanitizeTrack msg env (Some db) σ in
  Visits.requests (traceOf run)
  = map (λ ct, (SOURCE, partitionAt PARTITIONS 0 ct, asked 0)) (seq 0 perRun)
  ∧ ∃ saved,
      importState (backendOf run) !! STATE_DOC = Some saved
      ∧ index saved = perRun `mod` length PARTITIONS
      ∧ ∀ key, key ∉ map (partitionAt PARTITIONS 0) (seq 0 perRun) →
          offsets saved !! key = None.
Proof.
  intros Hnd Hle Hget Hset run.
  destruct (AdapterMore.fetchRotating_any SOURCE STATE_DOC PARTITIONS perRun PAGE_SIZE delay
              asked convert sanitizeTrack msg env (Some db) σ)
    as (acc & t0 & σ' & t & Hloop & Hrun & Hreq & _ & _ & Hstate).
  unfold Visits.loaded in Hloop, Hstate. rewrite Hget in Hloop, Hstate. rewrite Hset in Hstate.
  destruct (AdapterMore.fetchPartitions_requests SOURCE PARTITIONS PAGE_SIZE delay asked
              convert sanitizeTrack msg env defaultState perRun 0
              (mkAcc [] [] ∅ (offsets defaultState)) σ Hnd)
    as (acc1 & t1 & Hloop1 & Hreq1); [lia|].
  rewrite Hloop in Hloop1. injection Hloop1 as <- <-.
  destruct (AdapterFacts.fetchPartitions_run SOURCE PARTITIONS PAGE_SIZE delay asked convert
              sanitizeTrack msg env defaultState perRun 0
              (mkAcc [] [] ∅ (offsets defaultState)) σ) as (acc2 & t2 & Hloop2 & _ & Hframe).
  rewrite Hloop in Hloop2. injection Hloop2 as <- <-.
  unfold run. rewrite Hrun. cbn [traceOf backendOf fst snd]. split.
  { rewrite Hreq, Hreq1. apply map_ext. intros ct. cbn. by rewrite lookup_empty. }
  eexists. rewrite Hstate. split; [apply lookup_insert_eq|]. cbn [index offsets].
  split; [done|]. intros key Hkey. rewrite Hframe; [apply lookup_empty|].
  intros c' Hc' Heq. apply Hkey. apply list_elem_of_fmap. exists c'.
  split; [done|]. apply elem_of_seq. lia.
Qed.

Lemma X17_load_failure_resets_progress_witness :
  let env : Env CCMixter.Raw.CCMixterTrack :=
    mkEnv (λ _ _, Response true 200 (Ok (Some []))) (Some "UNAVAILABLE") None
      Sample.timestamp in
  let σ := mkBackend ∅ {[ CCMixter.STATE_DOC := mkState 1 {[ "cover" := 150 ]} "" ]} ∅ in
  let run := CCMixter.fetchCCMixter (λ t, t) env (Some FirestoreClient) σ in
  Visits.requests (traceOf run)
  = map (λ ct, (CCMixter.SOURCE, partitionAt CCMixter.CONTENT_TYPES 0 ct, 0))
      (seq 0 CCMixter.typesToFetch)
  ∧ ∃ saved,
      importState (backendOf run) !! CCMixter.STATE_DOC = Some saved
      ∧ index saved = CCMixter.typesToFetch `mod` length CCMixter.CONTENT_TYPES
      ∧ ∀ key,
          key ∉ map (partitionAt CCMixter.CONTENT_TYPES 0) (seq 0 CCMixter.typesToFetch) →
          offsets saved !! key = None.
Proof.
  apply (X17_load_failure_resets_progress CCMixter.SOURCE CCMixter.STATE_DOC
           CCMixter.CONTENT_TYPES CCMixter.typesToFetch CCMixter.PAGE_SIZE 400
           (λ offset, offset) CCMixter.convert (λ t, t) CCMixter.messages
           (mkEnv (λ _ _, Response true 200 (Ok (Some []))) (Some "UNAVAILABLE") None
              Sample.timestamp)
           "UNAVAILABLE" FirestoreClient
           (mkBackend ∅ {[ CCMixter.STATE_DOC := mkState 1 {[ "cover" := 150 ]} "" ]} ∅)).
  - apply (bool_decide_unpack _). vm_compute. reflexivity.
  - cbv. lia.
  - reflexivity.
  - reflexivity.
Defined.

(** X18: every turn of a run asks the provider for the offset (or page) its
    partition has in the progress the run started from, the first page when
    it has none.  Without a database handle the progress is the default one,
    the run reads and writes no progress document, and it asks for the first
    page of each of the first [perRun] partitions. *)
Theorem X18_requests_follow_progress {Raw : Type} (SOURCE STATE_DOC : string)
    (PARTITIONS : list string) (perRun PAGE_SIZE delay : nat) (asked : nat → nat)
    (convert : string → Raw → option (string * result TrackRecord))
    (sanitizeTrack : TrackRecord → TrackRecord) (msg : Messages)
    (env : Env Raw) (σ : Backend) :
  NoDup PARTITIONS → perRun ≤ length PARTITIONS →
  (∀ db,
     let state := Visits.loaded STATE_DOC env db σ in
     Visits.requests
       (traceOf (fetchRotating SOURCE STATE_DOC PARTITIONS perRun PAGE_SIZE delay asked
                   convert sanitizeTrack msg env db σ))
     = map (λ ct, (SOURCE, partitionAt PARTITIONS (index state) ct,
                   asked (default 0 (offsets state
                                       !! partitionAt PARTITIONS (index state) ct))))
         (seq 0 perRun))
  ∧ (let run :=
       fetchRotating SOURCE STATE_DOC PARTITIONS perRun PAGE_SIZE delay asked convert
         sanitizeTrack msg env None σ in
     Visits.requests (traceOf run)
     = map (λ ct, (SOURCE, partitionAt PARTITIONS 0 ct, asked 0)) (seq 0 perRun)
     ∧ Visits.stateEvents (traceOf run) = []
     ∧ backendOf run = σ).
Proof.
  intros Hnd Hle.
  assert (Hall : ∀ db,
     let state := Visits.loaded STATE_DOC env db σ in
     Visits.requests
       (traceOf (fetchRotating SOURCE STATE_DOC PARTITIONS perRun PAGE_SIZE delay asked
                   convert sanitizeTrack msg env db σ))
     = map (λ ct, (SOURCE, partitionAt PARTITIONS (index state) ct,
                   asked (default 0 (offsets state
                                       !! partitionAt PARTITIONS (index state) ct))))
         (seq 0 perRun)).
  { intros db state.
    destruct (AdapterMore.fetchRotating_any SOURCE STATE_DOC PARTITIONS perRun PAGE_SIZE delay
                asked convert sanitizeTrack msg env db σ)
      as (acc & t0 & σ' & t & Hloop & Hrun & Hreq & _).
    fold state in Hloop.
    destruct (AdapterMore.fetchPartitions_requests SOURCE PARTITIONS PAGE_SIZE delay asked
                convert sanitizeTrack msg env state perRun 0
                (mkAcc [] [] ∅ (offsets state)) σ Hnd)
      as (acc1 & t1 & Hloop1 & Hreq1); [lia|].
    rewrite Hloop in Hloop1. injection Hloop1 as <- <-.
    rewrite Hrun. cbn [traceOf snd]. by rewrite Hreq, Hreq1. }
  split; [exact Hall|]. intros run. split; [|split].
  - unfold run. rewrite (Hall None). apply map_ext. intros ct. cbn. by rewrite lookup_empty.
  - unfold run, fetchRotating, loadState, saveState. mrun.
    destruct (AdapterMore.fetchPartitions_turns SOURCE PARTITIONS PAGE_SIZE delay asked
                convert sanitizeTrack msg env defaultState perRun 0
                (mkAcc [] [] ∅ (offsets defaultState)) σ (λ _, True))
      as (acc & t & Hloop & Hs & _); [done..|].
    rewrite Hloop. cbn [traceOf snd]. rewrite AdapterMore.stateEvents_app, Hs. reflexivity.
  - apply AdapterFacts.fetchRotating_without_db.
Qed.

Lemma X18_requests_follow_progress_witness :
  let run :=
    MusicBrainz.fetchMusicBrainz (λ t, t) Sample.emptyPages None Sample.catalog in
  Visits.requests (traceOf run)
  = map (λ ct, (MusicBrainz.SOURCE, partitionAt MusicBrainz.TAG_FILTERS 0 ct, 0))
      (seq 0 MusicBrainz.tagsToFetch)
  ∧ Visits.stateEvents (traceOf run) = []
  ∧ backendOf run = Sample.catalog.
Proof.
  refine (proj2 (X18_requests_follow_progress MusicBrainz.SOURCE MusicBrainz.STATE_DOC
                   MusicBrainz.TAG_FILTERS MusicBrainz.tagsToFetch MusicBrainz.PAGE_SIZE 500
                   (λ offset, offset) MusicBrainz.convert (λ t, t) MusicBrainz.messages
                   Sample.emptyPages Sample.catalog _ _)).
  - apply (bool_decide_unpack _). vm_compute. reflexivity.
  - cbv. lia.
Defined.

(** ** sources/*.ts: pages with a record that cannot be built *)
Module PageFacts.
Import Adapter Rotation Visits.

Section Rotating.
Context {Raw : Type}.
Variables (SOURCE STATE_DOC : string) (PARTITIONS : list string).
Variables (perRun PAGE_SIZE delay : nat).
Variable asked : nat → nat.
Variable convert : string → Raw → option (string * result TrackRecord).
Variable sanitizeTrack : TrackRecord → TrackRecord.
Variable msg : Messages.

(** A turn whose page holds a record that cannot be built: the turn reports
    one error and leaves every offset as it was. *)
Lemma fetchPartition_throwing_page (env : Env Raw) (state : ProviderState) (acc : Acc)
    (ct status : nat) (σ : Backend) (before after : list Raw) (bad : Raw) (rid e : string) :
  let partition := partitionAt PARTITIONS (index state) ct in
  let offset := default 0 (acc_offsets acc !! partition) in
  request env partition (asked offset) = Response true status (Ok (Some (before ++ bad :: after))) →
  convert partition bad = Some (rid, Throw e) → rid ∉ acc_seen acc →
  Forall (λ r, ∀ rid' built, convert partition r = Some (rid', built) → rid' ≠ rid) before →
  ∃ acc' e',
    fetchPartition SOURCE PARTITIONS PAGE_SIZE delay asked convert sanitizeTrack msg env
      state acc ct σ
    = (Ok acc', σ, [EvLog SOURCE (msgRequest msg ((index state + ct) `mod` length PARTITIONS)
                                    partition offset);
                    EvRequest SOURCE partition (asked offset)])
    ∧ acc_offsets acc' = acc_offsets acc
    ∧ acc_errors acc' = acc_errors acc ++ [msgThrown msg partition e'].
Proof.
  intros partition offset Hreply Hbad Hnew Hbefore.
  destruct (ProgressFacts.addRecords_throws convert sanitizeTrack partition before after bad
              rid e acc Hbad Hnew Hbefore) as [e' He'].
  pose proof (AdapterFacts.addRecords_offsets convert sanitizeTrack partition
                (before ++ bad :: after) acc) as Hoff.
  pose proof (AdapterMore.addRecords_errors convert sanitizeTrack partition
                (before ++ bad :: after) acc) as Herr.
  unfold fetchPartition. fold (partitionAt PARTITIONS (index state) ct).
  fold partition. fold offset. mrun. rewrite Hreply. cbn [negb].
  destruct (addRecords convert sanitizeTrack partition (before ++ bad :: after) acc)
    as [acc1 oe]. cbn [fst snd] in *. subst oe.
  destruct (before ++ bad :: after) as [|r l] eqn:Hl; [by destruct before|].
  exists (pushError acc1 (msgThrown msg partition e')), e'.
  split; [done|]. cbn. by rewrite Hoff, Herr.
Qed.

End Rotating.

(** The id under which a MusicBrainz recording is entered in the seen set. *)
Lemma musicbrainz_convert_rid (p : string) (r : MusicBrainz.Raw.MBRecording) (rid : string)
    (built : result TrackRecord) :
  MusicBrainz.convert p r = Some (rid, built) → rid = "musicbrainz-" +:+ MusicBrainz.Raw.id r.
Proof.
  unfold MusicBrainz.convert. intros H.
  repeat (case_match; simplify_eq); done.
Qed.
End PageFacts.

(** X19: a MusicBrainz recording with a title and artwork whose artist-credit
    list is empty makes the loop over the records of its page throw, when its
    id is new to the run and no recording before it on the page has its id.
    The turn of the tag then ends with one more error, the tag's name
    followed by the message of the exception, without the delay that follows a
    handled page, and with the stored offsets as they were: the offset of the
    tag is not advanced. *)
Theorem X19_empty_artist_credit (sanitizeTrack : TrackRecord → TrackRecord)
    (env : Env MusicBrainz.Raw.MBRecording) (state : ProviderState) (acc : Acc)
    (ct status : nat) (σ : Backend)
    (before after : list MusicBrainz.Raw.MBRecording) (bad : MusicBrainz.Raw.MBRecording)
    (release : MusicBrainz.Raw.Release) (otherReleases : list MusicBrainz.Raw.Release)
    (image : MusicBrainz.Raw.Image) (otherImages : list MusicBrainz.Raw.Image) :
  let tag := partitionAt MusicBrainz.TAG_FILTERS (index state) ct in
  let offset := default 0 (acc_offsets acc !! tag) in
  request env tag offset = Response true status (Ok (Some (before ++ bad :: after))) →
  MusicBrainz.Raw.artist_credit bad = Some [] →
  truthy (MusicBrainz.Raw.title bad) = true →
  MusicBrainz.Raw.releases bad = Some (release :: otherReleases) →
  MusicBrainz.Raw.images release = Some (image :: otherImages) →
  truthy (MusicBrainz.Raw.image image) = true →
  "musicbrainz-" +:+ MusicBrainz.Raw.id bad ∉ acc_seen acc →
  Forall (λ r, MusicBrainz.Raw.id r ≠ MusicBrainz.Raw.id bad) before →
  ∃ acc' e,
    fetchPartition MusicBrainz.SOURCE MusicBrainz.TAG_FILTERS MusicBrainz.PAGE_SIZE 500
      (λ o, o) MusicBrainz.convert sanitizeTrack MusicBrainz.messages env state acc ct σ
    = (Ok acc', σ,
       [EvLog "musicbrainz" ("[" +:+ tag +:+ "] offset " +:+ pretty offset +:+ "...");
        EvRequest "musicbrainz" tag offset])
    ∧ acc_offsets acc' = acc_offsets acc
    ∧ acc_errors acc' = acc_errors acc ++ [tag +:+ ": " +:+ e].
Proof.
  intros tag offset Hreply Hcredit Htitle Hreleases Himages Himage Hnew Hbefore.
  destruct (PageFacts.fetchPartition_throwing_page MusicBrainz.SOURCE MusicBrainz.TAG_FILTERS
              MusicBrainz.PAGE_SIZE 500 (λ o, o) MusicBrainz.convert sanitizeTrack
              MusicBrainz.messages env state acc ct status σ before after bad
              ("musicbrainz-" +:+ MusicBrainz.Raw.id bad)
              "Cannot read properties of undefined (reading 'artist')")
    as (acc' & e' & Hrun & Hoff & Herr); try done.
  - unfold MusicBrainz.convert. rewrite Hcredit, Htitle, Hreleases. cbn. rewrite Himages. cbn.
    by rewrite Himage.
  - eapply Forall_impl; [exact Hbefore|]. intros r Hr rid' built Hc Heq.
    apply PageFacts.musicbrainz_convert_rid in Hc. subst rid'.
    by apply ProgressFacts.append_inj in Heq.
  - by exists acc', e'.
Qed.

Lemma X19_empty_artist_credit_witness :
  let bad :=
    MusicBrainz.Raw.mkRecording "r1" "Untitled" (Some [])
      (Some [MusicBrainz.Raw.mkRelease "a1" "Album" None
               (Some [MusicBrainz.Raw.mkImage "https://coverartarchive.org/1.jpg"])])
      None in
  let env : Env MusicBrainz.Raw.MBRecording :=
    mkEnv (λ _ _, Response true 200 (Ok (Some [bad]))) None None Sample.timestamp in
  ∃ acc' e,
    fetchPartition MusicBrainz.SOURCE MusicBrainz.TAG_FILTERS MusicBrainz.PAGE_SIZE 500
      (λ o, o) MusicBrainz.convert (λ t, t) MusicBrainz.messages env defaultState
      (mkAcc [] [] ∅ ∅) 0 Sample.emptyBackend
    = (Ok acc', Sample.emptyBackend,
       [EvLog "musicbrainz" ("[" +:+ "rock" +:+ "] offset " +:+ pretty 0 +:+ "...");
        EvRequest "musicbrainz" "rock" 0])
    ∧ acc_offsets acc' = ∅
    ∧ acc_errors acc' = [] ++ ["rock" +:+ ": " +:+ e].
Proof.
  intros bad env.
  refine (X19_empty_artist_credit (λ t, t) env defaultState (mkAcc [] [] ∅ ∅) 0 200
            Sample.emptyBackend [] [] bad
            (MusicBrainz.Raw.mkRelease "a1" "Album" None
               (Some [MusicBrainz.Raw.mkImage "https://coverartarchive.org/1.jpg"]))
            [] (MusicBrainz.Raw.mkImage "https://coverartarchive.org/1.jpg") []
            _ _ _ _ _ _ _ _).
  - reflexivity.
  - reflexivity.
  - reflexivity.
  - reflexivity.
  - reflexivity.
  - reflexivity.
  - apply not_elem_of_empty.
  - constructor.
Defined.

(** ** migrate-gs-urls.ts: what a conversion does to the bucket *)
Module ConversionFacts.
Import Migrate.

(** A download URL is not empty and is no gs:// URL. *)
Lemma download_url (rest : string) :
  truthy ("https://firebasestorage.googleapis.com/v0/b/" +:+ rest) = true
  ∧ startsWith ("https://firebasestorage.googleapis.com/v0/b/" +:+ rest) "gs://" = false.
Proof. split; vm_compute; reflexivity. Qed.

(** Closes the cases in which [gsToHttps] changes nothing. *)
Ltac unchanged :=
  eexists _, _, _; split; [reflexivity|]; split; [done|]; split; [done|];
  split; [by left|]; intros url Hurl; cbn in Hurl;
  rewrite ?(proj1 (download_url _)) in Hurl; simplify_eq; try apply download_url.

Section WithWorld.
Variables (w : World) (bucket : Bucket).

(** [gsToHttps] returns; it touches no document and no progress document,
    and of the bucket at most the download token of the object its URL
    names. *)
Lemma gsToHttps_frame (gsUrl : string) (σ : Backend) :
  ∃ r σ' t,
    gsToHttps w bucket gsUrl σ = (Ok r, σ', t)
    ∧ tracks σ' = tracks σ ∧ importState σ' = importState σ
    ∧ (files σ' = files σ
       ∨ ∃ path file,
           matchGs gsUrl = Some path ∧ files σ !! path = Some file
           ∧ truthy (default EmptyString (downloadToken file)) = false
           ∧ files σ'
             = <[path := mkFile (content file) (contentType file) (Some (randomUUID w path))]>
                 (files σ))
    ∧ (∀ url, converted r = Some url → startsWith url "gs://" = false).
Proof.
  unfold gsToHttps, sdk. mrun.
  destruct (matchGs gsUrl) as [path|] eqn:Hmatch; mrun; [|by unchanged].
  destruct (existsError w path); mrun; [by unchanged|].
  destruct (files σ !! path) as [file|] eqn:Hfile; mrun; [|by unchanged].
  destruct (getMetadataError w path); mrun; [by unchanged|].
  destruct (truthy (default EmptyString (downloadToken file))) eqn:Htoken; mrun;
    [by unchanged|].
  destruct (setMetadataError w path); mrun; [by unchanged|].
  eexists _, _, _. split; [done|]. split; [done|]. split; [done|]. split.
  - right. by exists path, file.
  - intros url Hurl. cbn in Hurl. rewrite (proj1 (download_url _)) in Hurl. simplify_eq.
    apply download_url.
Qed.

Lemma conversion_https (gsUrl url : string) (σ : Backend) :
  Observed.conversion (gsToHttps w bucket gsUrl σ) = Some url →
  startsWith url "gs://" = false.
Proof.
  destruct (gsToHttps_frame gsUrl σ) as (r & σ' & t & Hrun & _ & _ & _ & Hurl).
  unfold Observed.conversion. rewrite Hrun. apply Hurl.
Qed.

(** The conversion of a URL whose object exists, when no storage call is
    refused: with the token of the object, or with a minted one. *)
Lemma gsToHttps_with_token (gsUrl path : string) (file : StoredFile) (σ : Backend) :
  matchGs gsUrl = Some path → files σ !! path = Some file →
  existsError w path = None → getMetadataError w path = None →
  truthy (default EmptyString (downloadToken file)) = true →
  gsToHttps w bucket gsUrl σ
  = (Ok (Some ("https://firebasestorage.googleapis.com/v0/b/" +:+ bucket_name bucket
                 +:+ "/o/" +:+ encodeURIComponent path +:+ "?alt=media&token="
                 +:+ default EmptyString (downloadToken file))),
     σ, [EvFileExists path; EvGetMetadata path]).
Proof.
  intros Hmatch Hfile Hexists Hget Htoken. unfold gsToHttps, sdk.
  rewrite Hmatch. mrun. rewrite Hexists. mrun. rewrite Hfile, Hget. mrun.
  rewrite Htoken. reflexivity.
Qed.

Lemma gsToHttps_minting (gsUrl path : string) (file : StoredFile) (σ : Backend) :
  matchGs gsUrl = Some path → files σ !! path = Some file →
  existsError w path = None → getMetadataError w path = None →
  setMetadataError w path = None →
  truthy (default EmptyString (downloadToken file)) = false →
  gsToHttps w bucket gsUrl σ
  = (Ok (Some ("https://firebasestorage.googleapis.com/v0/b/" +:+ bucket_name bucket
                 +:+ "/o/" +:+ encodeURIComponent path +:+ "?alt=media&token="
                 +:+ randomUUID w path)),
     setFiles (insert path (mkFile (content file) (contentType file)
                              (Some (randomUUID w path)))) σ,
     [EvFileExists path; EvGetMetadata path; EvSetMetadata path (randomUUID w path)]).
Proof.
  intros Hmatch Hfile Hexists Hget Hset Htoken. unfold gsToHttps, sdk.
  rewrite Hmatch. mrun. rewrite Hexists. mrun. rewrite Hfile, Hget. mrun.
  rewrite Htoken, Hset. reflexivity.
Qed.
End WithWorld.
End ConversionFacts.

(** X21: [gsToHttps] never throws and never touches the bytes of the bucket.
    It leaves the catalog and the progress documents as they were; it adds and
    removes no object and changes neither the content nor the content type of
    one; the one thing it may change is the download token of the object its
    URL names, which it sets when the object has none.  A URL it delivers
    does not start with "gs://". *)
Theorem X21_conversion_keeps_objects (w : Migrate.World) (bucket : Bucket) (gsUrl : string)
    (σ : Backend) :
  let run := Migrate.gsToHttps w bucket gsUrl σ in
  (∃ r, valueOf run = Ok r)
  ∧ tracks (backendOf run) = tracks σ ∧ importState (backendOf run) = importState σ
  ∧ (∀ p, content <$> files (backendOf run) !! p = content <$> files σ !! p
          ∧ contentType <$> files (backendOf run) !! p = contentType <$> files σ !! p)
  ∧ (∀ p, Migrate.matchGs gsUrl ≠ Some p → files (backendOf run) !! p = files σ !! p)
  ∧ (∀ p file, files σ !! p = Some file →
       truthy (default EmptyString (downloadToken file)) = true →
       files (backendOf run) !! p = Some file)
  ∧ (∀ url, conversion run = Some url → startsWith url "gs://" = false).
Proof.
  intros run.
  destruct (ConversionFacts.gsToHttps_frame w bucket gsUrl σ)
    as (r & σ' & t & Hrun & Htracks & Hstate & Hfiles & Hurl).
  unfold run, conversion. rewrite Hrun. cbn [valueOf backendOf fst snd].
  split; [by eexists|]. split; [done|]. split; [done|].
  destruct Hfiles as [Hsame|(path & file & Hmatch & Hfile & Htoken & Hnew)].
  { rewrite Hsame. by repeat split. }
  rewrite Hnew. split; [|split; [|split; [|done]]].
  - intros p. destruct (decide (p = path)) as [->|Hne].
    + rewrite lookup_insert_eq, Hfile. done.
    + by rewrite lookup_insert_ne.
  - intros p Hp. apply lookup_insert_ne. congruence.
  - intros p file' Hfile' Htoken'. destruct (decide (p = path)) as [->|Hne].
    + congruence.
    + by rewrite lookup_insert_ne.
Qed.

(** X22: the conversion of a URL whose object exists, when the storage calls
    are not refused and the minted token is not empty.  [gsToHttps] delivers
    the download URL of the object, made of the bucket name, the
    percent-encoded storage path and the token of the object: the token the
    object had, or else a freshly minted one, which is then stored with the
    object.  A second conversion of the same URL delivers the same download
    URL, reuses the stored token without a call to [setMetadata], and leaves
    the backend as the first conversion left it. *)
Theorem X22_conversion_idempotent (w : Migrate.World) (bucket : Bucket)
    (gsUrl path : string) (file : StoredFile) (σ : Backend) :
  Migrate.matchGs gsUrl = Some path → files σ !! path = Some file →
  Migrate.existsError w path = None → Migrate.getMetadataError w path = None →
  Migrate.setMetadataError w path = None → truthy (Migrate.randomUUID w path) = true →
  let token :=
    orElse (default EmptyString (downloadToken file)) (Migrate.randomUUID w path) in
  let url :=
    "https://firebasestorage.googleapis.com/v0/b/" +:+ bucket_name bucket +:+ "/o/"
      +:+ Migrate.encodeURIComponent path +:+ "?alt=media&token=" +:+ token in
  let first := Migrate.gsToHttps w bucket gsUrl σ in
  let second := Migrate.gsToHttps w bucket gsUrl (backendOf first) in
  conversion first = Some url
  ∧ files (backendOf first) !! path
    = Some (mkFile (content file) (contentType file) (Some token))
  ∧ conversion second = Some url
  ∧ backendOf second = backendOf first
  ∧ traceOf second = [EvFileExists path; EvGetMetadata path].
Proof.
  intros Hmatch Hfile Hexists Hget Hset Huuid token url first second.
  subst second first url token. unfold conversion, orElse.
  destruct (truthy (default EmptyString (downloadToken file))) eqn:Htoken.
  - rewrite !(ConversionFacts.gsToHttps_with_token w bucket gsUrl path file σ) by done.
    cbn [valueOf backendOf traceOf fst snd Migrate.converted].
    rewrite ?(ConversionFacts.gsToHttps_with_token w bucket gsUrl path file σ) by done.
    cbn [valueOf backendOf traceOf fst snd Migrate.converted].
    rewrite !(proj1 (ConversionFacts.download_url _)).
    split; [done|]. split; [|done].
    rewrite Hfile. destruct file as [c ct [tk|]]; done.
  - rewrite !(ConversionFacts.gsToHttps_minting w bucket gsUrl path file σ) by done.
    cbn [valueOf backendOf traceOf fst snd Migrate.converted].
    rewrite (ConversionFacts.gsToHttps_with_token w bucket gsUrl path
               (mkFile (content file) (contentType file) (Some (Migrate.randomUUID w path))));
      [|done|apply lookup_insert_eq|done|done|done].
    cbn [valueOf backendOf traceOf fst snd Migrate.converted downloadToken default].
    rewrite !(proj1 (ConversionFacts.download_url _)).
    split; [done|]. split; [apply lookup_insert_eq|]. done.
Qed.

Lemma X22_conversion_idempotent_witness :
  let gsUrl := artwork Sample.legacy in
  let path := "imports/jamendo/jamendo-5_cover.jpg" in
  let url :=
    "https://firebasestorage.googleapis.com/v0/b/" +:+ bucket_name Sample.bucket +:+ "/o/"
      +:+ Migrate.encodeURIComponent path +:+ "?alt=media&token="
      +:+ "0b0e7a5e-5bd0-4a5f-9c3e-0d6c4fd1f1aa" in
  let first := Migrate.gsToHttps Sample.storage Sample.bucket gsUrl Sample.legacyBackend in
  let second := Migrate.gsToHttps Sample.storage Sample.bucket gsUrl (backendOf first) in
  conversion first = Some url
  ∧ files (backendOf first) !! path
    = Some (mkFile [] "image/jpeg" (Some "0b0e7a5e-5bd0-4a5f-9c3e-0d6c4fd1f1aa"))
  ∧ conversion second = Some url
  ∧ backendOf second = backendOf first
  ∧ traceOf second = [EvFileExists path; EvGetMetadata path].
Proof.
  intros gsUrl path.
  refine (X22_conversion_idempotent Sample.storage Sample.bucket gsUrl path
            (mkFile [] "image/jpeg" None) Sample.legacyBackend _ _ _ _ _ _);
    reflexivity.
Defined.

(** ** migrate-gs-urls.ts: the counters *)
Module CounterFacts.
Import Migrate Counters.

Lemma advance_refl (ids : list string) (stats : MigrationStats) : advance ids stats stats.
Proof.
  unfold advance. repeat split; try lia. exists []. rewrite app_nil_r.
  repeat split; [cbn; lia|]. apply list_subseteq_nil.
Qed.

Lemma advance_trans (ids1 ids2 : list string) (s1 s2 s3 : MigrationStats) :
  advance ids1 s1 s2 → advance ids2 s2 s3 → advance (ids1 ++ ids2) s1 s3.
Proof.
  unfold advance, accounted.
  intros (? & ? & ? & ? & ? & f1 & Hf1 & Hn1 & Hs1) (? & ? & ? & ? & ? & f2 & Hf2 & Hn2 & Hs2).
  repeat split; try lia. exists (f1 ++ f2). rewrite Hf2, Hf1, Hn2, Hn1, length_app.
  repeat split; [by rewrite app_assoc|lia|].
  intros x [Hx|Hx]%elem_of_app; apply elem_of_app; [left; by apply Hs1|right; by apply Hs2].
Qed.

Section WithWorld.
Variables (w : World) (bucket : Bucket).

(** The callback for one document returns, with the document counted as
    scanned and as at most one of skipped, migrated and failed; a dry run
    changes nothing and only logs. *)
Lemma processDoc_outcome (isDryRun : bool) (docId : string) (data : TrackRecord)
    (stats : MigrationStats) (σ : Backend) :
  ∃ stats' σ' t,
    processDoc w isDryRun bucket (docId, data) stats σ = (Ok stats', σ', t)
    ∧ importState σ' = importState σ
    ∧ (stats' = skippedOne stats ∨ stats' = markMigrated (Observed.scanned stats)
       ∨ stats' = markFailed (Observed.scanned stats) docId
       ∨ stats' = Observed.scanned stats)
    ∧ (isDryRun = true →
       σ' = σ ∧ Forall Observed.logged t
       ∧ (stats' = skippedOne stats ∨ stats' = markMigrated (Observed.scanned stats))).
Proof.
  destruct (ConversionFacts.gsToHttps_frame w bucket (artwork data) σ)
    as (ra & σa & ta & Hra & _ & Hsa & _).
  destruct (ConversionFacts.gsToHttps_frame w bucket (audioUrl data)
              (if startsWith (artwork data) "gs://" then σa else σ))
    as (rb & σb & tb & Hrb & _ & Hsb & _).
  unfold processDoc. rewrite !MigrateFacts.orElse_empty.
  destruct (startsWith (artwork data) "gs://"), (startsWith (audioUrl data) "gs://"),
    isDryRun; cbn [negb andb orb]; cbv iota in Hrb, Hsb.
  all: mrun; rewrite ?Hra; mrun.
  all: try (destruct (converted ra) as [urlA|]); mrun; rewrite ?Hrb; mrun.
  all: try (destruct (converted rb) as [urlB|]); mrun.
  all: unfold update, sdk; mrun.
  all: try (destruct (updateError w docId)); mrun.
  all: try match goal with
           | |- context [tracks ?s !! ?d] => destruct (tracks s !! d)
           end; mrun.
  all: try case_bool_decide; mrun.
  all: eexists _, _, _; (split; [reflexivity|]).
  all: cbn [importState setTracks].
  all: (split; [congruence|]).
  all: unfold skippedOne, markMigrated, markFailed, Observed.scanned; cbn.
  all: split; [auto|].
  all: intros Hdry; try discriminate Hdry.
  all: split; [done|]; split; [by repeat constructor|auto].
Qed.

Lemma outcome_advance (docId : string) (stats stats' : MigrationStats) :
  stats' = skippedOne stats ∨ stats' = markMigrated (Observed.scanned stats)
  ∨ stats' = markFailed (Observed.scanned stats) docId
  ∨ stats' = Observed.scanned stats →
  total stats' = total stats + 1 ∧ advance [docId] stats stats'.
Proof.
  unfold advance, accounted.
  intros [->|[->|[->| ->]]]; cbn; (split; [done|]); repeat split; try lia.
  - exists []. rewrite app_nil_r. repeat split; [cbn; lia|apply list_subseteq_nil].
  - exists []. rewrite app_nil_r. repeat split; [cbn; lia|apply list_subseteq_nil].
  - exists [docId]. by repeat split.
  - exists []. rewrite app_nil_r. repeat split; [cbn; lia|apply list_subseteq_nil].
Qed.

(** The documents of one chunk. *)
Lemma processChunk_outcome (isDryRun : bool) (chunk : list (string * TrackRecord))
    (stats : MigrationStats) (σ : Backend) :
  ∃ stats' σ' t,
    processChunk w isDryRun bucket chunk stats σ = (Ok stats', σ', t)
    ∧ importState σ' = importState σ
    ∧ total stats' = total stats + length chunk
    ∧ advance (map fst chunk) stats stats'
    ∧ (isDryRun = true →
       σ' = σ ∧ Forall Observed.logged t ∧ failed stats' = failed stats
       ∧ accounted stats' = accounted stats + length chunk).
Proof.
  revert stats σ. induction chunk as [|[docId data] chunk IH]; intros stats σ.
  - exists stats, σ, []. split; [done|]. split; [done|]. split; [cbn; lia|].
    split; [apply advance_refl|]. intros _. repeat split; [done|cbn; lia].
  - cbn [processChunk]. rewrite run_bind.
    destruct (processDoc_outcome isDryRun docId data stats σ)
      as (stats1 & σ1 & t1 & -> & Hs1 & Hout & Hdry1).
    destruct (outcome_advance docId stats stats1 Hout) as [Htot1 Hadv1].
    destruct (IH stats1 σ1) as (stats2 & σ2 & t2 & -> & Hs2 & Htot2 & Hadv2 & Hdry2).
    exists stats2, σ2, (t1 ++ t2). split; [done|]. split; [congruence|].
    split; [cbn [length]; lia|]. split.
    { apply (advance_trans [docId] (map fst chunk) stats stats1 stats2 Hadv1 Hadv2). }
    intros Hdry. destruct (Hdry1 Hdry) as (-> & Ht1 & Hcase).
    destruct (Hdry2 Hdry) as (-> & Ht2 & Hf2 & Hacc2).
    split; [done|]. split; [by apply Forall_app|].
    rewrite Hf2, Hacc2. cbn [length]. unfold accounted.
    destruct Hcase as [->| ->]; cbn; split; lia.
Qed.

(** The chunks of a page under a limit: the loop handles the first [k]
    chunks, for some [k]; the documents scanned were below the limit when
    each of them was taken up, and are no longer below it if a chunk is left
    over. *)
Lemma processChunks_outcome (isDryRun : bool) (limitCount : Limit)
    (cs : list (list (string * TrackRecord))) (stats : MigrationStats) (σ : Backend) :
  ∃ stats' σ' t k,
    processChunks w isDryRun limitCount bucket cs stats σ = (Ok stats', σ', t)
    ∧ importState σ' = importState σ
    ∧ k ≤ length cs
    ∧ total stats' = total stats + length (concat (take k cs))
    ∧ advance (map fst (concat cs)) stats stats'
    ∧ (k < length cs → below (total stats') limitCount = false)
    ∧ (0 < k →
       below (total stats + length (concat (take (k - 1) cs))) limitCount = true)
    ∧ (k = 0 → σ' = σ ∧ t = [] ∧ stats' = stats)
    ∧ (isDryRun = true →
       σ' = σ ∧ Forall Observed.logged t ∧ failed stats' = failed stats
       ∧ accounted stats' - accounted stats = total stats' - total stats).
Proof.
  revert stats σ. induction cs as [|chunk cs IH]; intros stats σ.
  - exists stats, σ, [], 0. split; [done|]. split; [done|]. split; [done|].
    split; [cbn; lia|]. split; [apply advance_refl|]. split; [cbn; lia|]. split; [lia|].
    split; [done|]. intros _. repeat split; [done|lia].
  - cbn [processChunks]. destruct (below (total stats) limitCount) eqn:Hbelow.
    + rewrite run_bind.
      destruct (processChunk_outcome isDryRun chunk stats σ)
        as (stats1 & σ1 & t1 & -> & Hs1 & Htot1 & Hadv1 & Hdry1).
      destruct (IH stats1 σ1)
        as (stats2 & σ2 & t2 & k & -> & Hs2 & Hk & Htot2 & Hadv2 & Hleft & Hlast & _ & Hdry2).
      exists stats2, σ2, (t1 ++ t2), (S k). split; [done|]. split; [congruence|].
      split; [cbn; lia|]. split.
      { cbn [take concat]. rewrite length_app. lia. }
      split.
      { cbn [concat]. rewrite map_app. by eapply advance_trans. }
      split; [intros Hlt; apply Hleft; cbn in Hlt; lia|]. split.
      { intros _. destruct k as [|k]; [cbn; by rewrite Nat.add_0_r|].
        replace (S (S k) - 1) with (S k) by lia. cbn [take concat]. rewrite length_app.
        replace (S k - 1) with k in Hlast by lia. rewrite Htot1 in Hlast.
        rewrite Nat.add_assoc. apply Hlast. lia. }
      split; [discriminate|].
      intros Hdry. destruct (Hdry1 Hdry) as (-> & Ht1 & Hf1 & Hacc1).
      destruct (Hdry2 Hdry) as (-> & Ht2 & Hf2 & Hacc2).
      split; [done|]. split; [by apply Forall_app|]. split; [congruence|].
      destruct Hadv2 as (? & ? & ? & ? & _). unfold accounted in *. lia.
    + exists stats, σ, [], 0. split; [done|]. split; [done|]. split; [lia|].
      split; [cbn; lia|]. split; [apply advance_refl|]. split; [done|]. split; [lia|].
      split; [done|]. intros _. repeat split; [done|lia].
Qed.
End WithWorld.
End CounterFacts.

(** ** migrate-gs-urls.ts: a document of a live run *)
Module LiveFacts.
Import Migrate Counters.

Section WithWorld.
Variables (w : World) (bucket : Bucket).

(** A live run on a document with a reference to fix, when no needed
    conversion fails: the document is updated and counted as migrated, unless
    the update is refused or finds no document, and then it is counted as
    scanned only. *)
Lemma processDoc_live (docId : string) (data : TrackRecord) (stats : MigrationStats)
    (σ : Backend) :
  let artworkNeedsFix := startsWith (artwork data) "gs://" in
  let audioNeedsFix := startsWith (audioUrl data) "gs://" in
  let artworkRun := gsToHttps w bucket (artwork data) σ in
  let audioRun :=
    gsToHttps w bucket (audioUrl data) (if artworkNeedsFix then backendOf artworkRun else σ) in
  let artworkFails := artworkNeedsFix && bool_decide (conversion artworkRun = None) in
  let audioFails := audioNeedsFix && bool_decide (conversion audioRun = None) in
  let newArtwork := if artworkNeedsFix then conversion artworkRun else None in
  let newAudioUrl := if audioNeedsFix then conversion audioRun else None in
  let run := processDoc w false bucket (docId, data) stats σ in
  artworkNeedsFix || audioNeedsFix = true → artworkFails = false → audioFails = false →
  match updateError w docId, tracks σ !! docId with
  | None, Some stored =>
      valueOf run = Ok (markMigrated (Observed.scanned stats))
      ∧ tracks (backendOf run)
        = <[docId := migratedRecord stored newArtwork newAudioUrl]> (tracks σ)
  | _, _ => valueOf run = Ok (Observed.scanned stats) ∧ tracks (backendOf run) = tracks σ
  end.
Proof.
  intros artworkNeedsFix audioNeedsFix artworkRun audioRun artworkFails audioFails
    newArtwork newAudioUrl run.
  destruct (MigrateFacts.gsToHttps_run w bucket (artwork data) σ)
    as (ra & σa & ta & Hra & Hta & _).
  destruct (MigrateFacts.gsToHttps_run w bucket (audioUrl data)
              (if artworkNeedsFix then σa else σ)) as (rb & σb & tb & Hrb & Htb & _).
  subst newArtwork newAudioUrl artworkFails audioFails audioRun artworkRun.
  rewrite Hra. cbn [backendOf fst snd]. rewrite Hrb. unfold conversion. cbn [fst snd].
  unfold run, processDoc. rewrite !MigrateFacts.orElse_empty.
  fold artworkNeedsFix audioNeedsFix.
  destruct artworkNeedsFix, audioNeedsFix; cbn [negb andb orb]; cbv iota in Hrb, Htb.
  all: intros Hneeds HfailsA HfailsB; try discriminate Hneeds.
  all: mrun; rewrite ?Hra; mrun.
  all: try (destruct (converted ra) as [urlA|]; [|by rewrite bool_decide_eq_true_2 in HfailsA]).
  all: mrun; rewrite ?Hrb; mrun.
  all: try (destruct (converted rb) as [urlB|]; [|by rewrite bool_decide_eq_true_2 in HfailsB]).
  all: clear HfailsA HfailsB.
  all: mrun; unfold update, sdk; mrun.
  all: destruct (updateError w docId); mrun.
  all: rewrite ?Htb, ?Hta.
  all: destruct (tracks σ !! docId) as [stored|]; mrun.
  all: try case_bool_decide; mrun.
  all: cbn [valueOf backendOf fst snd tracks setTracks migratedRecord default].
  all: split; [reflexivity|]; rewrite ?Htb, ?Hta; reflexivity.
Qed.
End WithWorld.
End LiveFacts.

(** X23: the counters of the migration over a page of documents, whatever
    the limit and the mode.  The loop returns; no counter goes down; the
    documents scanned grow by at most the documents of the page; the
    documents counted as migrated, skipped or failed grow by no more than the
    documents scanned, so that they never exceed them if they did not before;
    and the failed ids grow by one id of the page per document counted as
    failed, so that their number stays the number of failures. *)
Theorem X23_page_counters (w : Migrate.World) (isDryRun : bool) (limitCount : Migrate.Limit)
    (bucket : Bucket) (docs : list (string * TrackRecord)) (stats : Migrate.MigrationStats)
    (σ : Backend) :
  let run := Migrate.processPage w isDryRun limitCount bucket docs stats σ in
  ∃ stats',
    valueOf run = Ok stats'
    ∧ importState (backendOf run) = importState σ
    ∧ Migrate.total stats ≤ Migrate.total stats' ≤ Migrate.total stats + length docs
    ∧ Counters.advance (map fst docs) stats stats'
    ∧ (Counters.accounted stats ≤ Migrate.total stats →
       Counters.accounted stats' ≤ Migrate.total stats')
    ∧ (length (Migrate.failedIds stats) = Migrate.failed stats →
       length (Migrate.failedIds stats') = Migrate.failed stats').
Proof.
  intros run.
  destruct (CounterFacts.processChunks_outcome w bucket isDryRun limitCount
              (chunks Migrate.CONCURRENCY docs) stats σ)
    as (stats' & σ' & t & k & Hrun & Hstate & Hk & Htot & Hadv & _).
  rewrite WriterFacts.chunks_take in Htot by (cbv; lia).
  rewrite chunks_concat in Hadv by (cbv; lia).
  exists stats'. unfold run, Migrate.processPage. rewrite Hrun.
  cbn [valueOf backendOf fst snd]. split; [done|]. split; [done|].
  split; [rewrite Htot, length_take; lia|]. split; [done|].
  destruct Hadv as (? & ? & ? & ? & Hacc & fresh & Hids & Hfailed & _).
  unfold Counters.accounted in *.
  split; [lia|]. intros Hlen. rewrite Hids, length_app. lia.
Qed.

(** X24: the limit of the migration is tested before a chunk of documents,
    not before a document.  With [LIMIT] set to [n], a page is not touched
    when [n] documents have been scanned; otherwise the loop may scan past
    the limit, but by fewer than [CONCURRENCY] documents, and it stops short
    of the limit only when the page is exhausted.  A limit that does not
    parse as a number stops the loop before its first document, and without a
    limit every document of the page is scanned. *)
Theorem X24_limit_by_chunk (w : Migrate.World) (isDryRun : bool) (n : nat)
    (bucket : Bucket) (docs : list (string * TrackRecord)) (stats : Migrate.MigrationStats)
    (σ : Backend) :
  let run := Migrate.processPage w isDryRun (Migrate.Finite n) bucket docs stats σ in
  (∃ stats',
     valueOf run = Ok stats'
     ∧ (n ≤ Migrate.total stats → run = (Ok stats, σ, []))
     ∧ (Migrate.total stats < n → Migrate.total stats' < n + Migrate.CONCURRENCY)
     ∧ (Migrate.total stats' < n → Migrate.total stats' = Migrate.total stats + length docs))
  ∧ Migrate.processPage w isDryRun Migrate.NaN bucket docs stats σ = (Ok stats, σ, [])
  ∧ (∃ stats',
       valueOf (Migrate.processPage w isDryRun Migrate.Infinity bucket docs stats σ)
       = Ok stats'
       ∧ Migrate.total stats' = Migrate.total stats + length docs).
Proof.
  intros run. split; [|split].
  - destruct (CounterFacts.processChunks_outcome w bucket isDryRun (Migrate.Finite n)
                (chunks Migrate.CONCURRENCY docs) stats σ)
      as (stats' & σ' & t & k & Hrun & _ & Hk & Htot & _ & Hleft & Hlast & Hnone & _).
    rewrite WriterFacts.chunks_take in Htot by (cbv; lia).
    rewrite WriterFacts.chunks_take in Hlast by (cbv; lia).
    rewrite length_take in Htot, Hlast. cbn [Migrate.below] in Hleft, Hlast.
    exists stats'. unfold run, Migrate.processPage. rewrite Hrun. cbn [valueOf fst].
    split; [done|]. split; [|split].
    + intros Hn. destruct k as [|k].
      * by destruct Hnone as (-> & -> & ->).
      * specialize (Hlast ltac:(lia)). apply bool_decide_eq_true in Hlast. lia.
    + intros Hn. destruct k as [|k]; [lia|].
      specialize (Hlast ltac:(lia)). apply bool_decide_eq_true in Hlast.
      change Migrate.CONCURRENCY with 5 in *. lia.
    + intros Hn. destruct (decide (k < length (chunks Migrate.CONCURRENCY docs))) as [Hlt|Hge].
      * specialize (Hleft Hlt). apply bool_decide_eq_false in Hleft. lia.
      * assert (length docs ≤ k * Migrate.CONCURRENCY); [|lia].
        destruct (decide (length docs ≤ k * Migrate.CONCURRENCY)) as [|Hmore]; [done|].
        exfalso. apply Hge. apply WriterFacts.chunks_length; [cbv; lia|lia].
  - unfold Migrate.processPage. by destruct (chunks Migrate.CONCURRENCY docs).
  - destruct (CounterFacts.processChunks_outcome w bucket isDryRun Migrate.Infinity
                (chunks Migrate.CONCURRENCY docs) stats σ)
      as (stats' & σ' & t & k & Hrun & _ & Hk & Htot & _ & Hleft & _).
    exists stats'. unfold Migrate.processPage. rewrite Hrun. split; [done|].
    destruct (decide (k < length (chunks Migrate.CONCURRENCY docs))) as [Hlt|Hge].
    { by specialize (Hleft Hlt). }
    rewrite take_ge in Htot by lia. by rewrite chunks_concat in Htot by (cbv; lia).
Qed.

(** With the limit at 1 and a page of five documents the loop scans all
    five. *)
Example limit_overshoot :
  let doc := λ n, ("doc-" +:+ n, Sample.track n) in
  Migrate.total <$>
    returned (Migrate.processPage Sample.storage false (Migrate.Finite 1) Sample.bucket
                [doc "1"; doc "2"; doc "3"; doc "4"; doc "5"] (Migrate.mkStats 0 0 0 0 [])
                Sample.emptyBackend)
  = Some 5.
Proof. vm_compute. reflexivity. Qed.

(** X25: in a dry run the migration loop over a page changes nothing of the
    backend and does nothing but log: it makes no storage call and updates no
    document.  Every document it scans is counted as skipped or as migrated,
    and none as failed. *)
Theorem X25_dry_run_page (w : Migrate.World) (limitCount : Migrate.Limit) (bucket : Bucket)
    (docs : list (string * TrackRecord)) (stats : Migrate.MigrationStats) (σ : Backend) :
  let run := Migrate.processPage w true limitCount bucket docs stats σ in
  backendOf run = σ
  ∧ Forall logged (traceOf run)
  ∧ ∃ stats',
      valueOf run = Ok stats'
      ∧ Migrate.failed stats' = Migrate.failed stats
      ∧ Migrate.failedIds stats' = Migrate.failedIds stats
      ∧ Counters.accounted stats' - Counters.accounted stats
        = Migrate.total stats' - Migrate.total stats.
Proof.
  intros run.
  destruct (CounterFacts.processChunks_outcome w bucket true limitCount
              (chunks Migrate.CONCURRENCY docs) stats σ)
    as (stats' & σ' & t & k & Hrun & _ & _ & _ & Hadv & _ & _ & _ & Hdry).
  destruct (Hdry eq_refl) as (-> & Ht & Hfailed & Hacc).
  unfold run, Migrate.processPage. rewrite Hrun. cbn [valueOf backendOf traceOf fst snd].
  split; [done|]. split; [done|]. exists stats'. split; [done|]. split; [done|].
  split; [|done].
  destruct Hadv as (_ & _ & _ & _ & _ & fresh & Hids & Hn & _).
  destruct fresh; [by rewrite app_nil_r in Hids|cbn in Hn; lia].
Qed.

(** X26: a document whose update is refused, or whose update finds no
    document, is counted as scanned and as nothing else: in a live run on a
    document with a reference to fix and no failed conversion, the callback
    ends with the counters of a scanned document, neither migrated nor skipped
    nor failed, and every document is as it was. *)
Theorem X26_refused_update_uncounted (w : Migrate.World) (bucket : Bucket) (docId : string)
    (data : TrackRecord) (stats : Migrate.MigrationStats) (σ : Backend) :
  let artworkNeedsFix := startsWith (artwork data) "gs://" in
  let audioNeedsFix := startsWith (audioUrl data) "gs://" in
  let artworkRun := Migrate.gsToHttps w bucket (artwork data) σ in
  let audioRun :=
    Migrate.gsToHttps w bucket (audioUrl data)
      (if artworkNeedsFix then backendOf artworkRun else σ) in
  let run := Migrate.processDoc w false bucket (docId, data) stats σ in
  artworkNeedsFix || audioNeedsFix = true →
  artworkNeedsFix && bool_decide (conversion artworkRun = None) = false →
  audioNeedsFix && bool_decide (conversion audioRun = None) = false →
  is_Some (Migrate.updateError w docId) ∨ tracks σ !! docId = None →
  valueOf run = Ok (scanned stats)
  ∧ Counters.accounted (scanned stats) = Counters.accounted stats
  ∧ Migrate.total (scanned stats) = Migrate.total stats + 1
  ∧ tracks (backendOf run) = tracks σ.
Proof.
  intros artworkNeedsFix audioNeedsFix artworkRun audioRun run Hneeds Ha Hb Hrefused.
  pose proof (LiveFacts.processDoc_live w bucket docId data stats σ Hneeds Ha Hb) as Hlive.
  fold run in Hlive.
  destruct Hrefused as [[e He]|Hnone].
  - rewrite He in Hlive. by destruct Hlive.
  - rewrite Hnone in Hlive. destruct (Migrate.updateError w docId); by destruct Hlive.
Qed.

Lemma X26_refused_update_uncounted_witness :
  let w := Migrate.mkWorld (λ _, None) (λ _, None) (λ _, None) (λ _, "token")
             (λ _, Some "ABORTED") in
  let data :=
    mkTrack "jamendo-5" "Five" "Artist" "jamendo-artist-1" "Single" EmptyString 180
      "gs://opentune-sbs.firebasestorage.app/imports/jamendo/jamendo-5_cover.jpg"
      "https://example.org/5.mp3" "rock" "Creative Commons" ∅ in
  let stats := Migrate.mkStats 0 0 0 0 [] in
  let run :=
    Migrate.processDoc w false Sample.bucket ("jamendo-5", data) stats Sample.legacyBackend in
  valueOf run = Ok (scanned stats)
  ∧ Counters.accounted (scanned stats) = Counters.accounted stats
  ∧ Migrate.total (scanned stats) = Migrate.total stats + 1
  ∧ tracks (backendOf run) = tracks Sample.legacyBackend.
Proof.
  intros w data stats.
  refine (X26_refused_update_uncounted w Sample.bucket "jamendo-5" data stats
            Sample.legacyBackend _ _ _ _).
  - reflexivity.
  - vm_compute. reflexivity.
  - reflexivity.
  - left. by eexists.
Defined.

(** X27: the migration is idempotent on a document.  In a live run on a
    stored document with a reference to fix, when no needed conversion fails
    and the update is accepted, the document is counted as migrated and then
    holds the converted URL in place of every reference that needed one, with
    all its other fields as they were; no other document changes.  Neither
    reference of the updated document starts with "gs://", so that a later
    pass over it, live or dry, counts it as skipped and does nothing. *)
Theorem X27_migration_idempotent (w : Migrate.World) (bucket : Bucket) (docId : string)
    (data : TrackRecord) (stats : Migrate.MigrationStats) (σ : Backend) :
  let artworkNeedsFix := startsWith (artwork data) "gs://" in
  let audioNeedsFix := startsWith (audioUrl data) "gs://" in
  let artworkRun := Migrate.gsToHttps w bucket (artwork data) σ in
  let audioRun :=
    Migrate.gsToHttps w bucket (audioUrl data)
      (if artworkNeedsFix then backendOf artworkRun else σ) in
  let newArtwork := if artworkNeedsFix then conversion artworkRun else None in
  let newAudioUrl := if audioNeedsFix then conversion audioRun else None in
  let run := Migrate.processDoc w false bucket (docId, data) stats σ in
  let updated := Counters.migratedRecord data newArtwork newAudioUrl in
  artworkNeedsFix || audioNeedsFix = true →
  artworkNeedsFix && bool_decide (conversion artworkRun = None) = false →
  audioNeedsFix && bool_decide (conversion audioRun = None) = false →
  Migrate.updateError w docId = None → tracks σ !! docId = Some data →
  valueOf run = Ok (Migrate.markMigrated (scanned stats))
  ∧ tracks (backendOf run) = <[docId := updated]> (tracks σ)
  ∧ sameExceptAssets data updated
  ∧ startsWith (artwork updated) "gs://" = false
  ∧ startsWith (audioUrl updated) "gs://" = false
  ∧ ∀ isDryRun stats2 σ2,
      Migrate.processDoc w isDryRun bucket (docId, updated) stats2 σ2
      = (Ok (Counters.skippedOne stats2), σ2, []).
Proof.
  intros artworkNeedsFix audioNeedsFix artworkRun audioRun newArtwork newAudioUrl run updated
    Hneeds Ha Hb Hupdate Hstored.
  pose proof (LiveFacts.processDoc_live w bucket docId data stats σ Hneeds Ha Hb) as Hlive.
  rewrite Hupdate, Hstored in Hlive. destruct Hlive as [Hvalue Htracks].
  assert (HurlA : startsWith (artwork updated) "gs://" = false).
  { unfold updated, newArtwork. cbn. fold artworkNeedsFix.
    destruct artworkNeedsFix eqn:Hfix; [|done]. cbn [andb] in Ha.
    apply bool_decide_eq_false in Ha.
    destruct (conversion artworkRun) as [url|] eqn:Hconv; [|done]. cbn.
    by apply (ConversionFacts.conversion_https w bucket (artwork data) _ σ). }
  assert (HurlB : startsWith (audioUrl updated) "gs://" = false).
  { unfold updated, newAudioUrl. cbn. fold audioNeedsFix.
    destruct audioNeedsFix eqn:Hfix; [|done]. cbn [andb] in Hb.
    apply bool_decide_eq_false in Hb.
    destruct (conversion audioRun) as [url|] eqn:Hconv; [|done]. cbn.
    by apply (ConversionFacts.conversion_https w bucket (audioUrl data) _
                (if artworkNeedsFix then backendOf artworkRun else σ)). }
  split; [done|]. split; [done|]. split; [by repeat split|]. split; [done|]. split; [done|].
  intros isDryRun stats2 σ2. unfold Migrate.processDoc.
  rewrite !MigrateFacts.orElse_empty, HurlA, HurlB. reflexivity.
Qed.

Lemma X27_migration_idempotent_witness :
  let data :=
    mkTrack "jamendo-5" "Five" "Artist" "jamendo-artist-1" "Single" EmptyString 180
      "gs://opentune-sbs.firebasestorage.app/imports/jamendo/jamendo-5_cover.jpg"
      "https://example.org/5.mp3" "rock" "Creative Commons" ∅ in
  let σ :=
    mkBackend {[ "jamendo-5" := data ]} ∅
      {[ "imports/jamendo/jamendo-5_cover.jpg" := mkFile [] "image/jpeg" None ]} in
  let newArtwork :=
    conversion (Migrate.gsToHttps Sample.storage Sample.bucket (artwork data) σ) in
  let run :=
    Migrate.processDoc Sample.storage false Sample.bucket ("jamendo-5", data)
      (Migrate.mkStats 0 0 0 0 []) σ in
  let updated := Counters.migratedRecord data newArtwork None in
  valueOf run = Ok (Migrate.markMigrated (scanned (Migrate.mkStats 0 0 0 0 [])))
  ∧ tracks (backendOf run) = <[ "jamendo-5" := updated ]> (tracks σ)
  ∧ sameExceptAssets data updated
  ∧ startsWith (artwork updated) "gs://" = false
  ∧ startsWith (audioUrl updated) "gs://" = false
  ∧ ∀ isDryRun stats2 σ2,
      Migrate.processDoc Sample.storage isDryRun Sample.bucket ("jamendo-5", updated) stats2 σ2
      = (Ok (Counters.skippedOne stats2), σ2, []).
Proof.
  intros data σ.
  refine (X27_migration_idempotent Sample.storage Sample.bucket "jamendo-5" data
            (Migrate.mkStats 0 0 0 0 []) σ _ _ _ _ _).
  - reflexivity.
  - vm_compute. reflexivity.
  - reflexivity.
  - reflexivity.
  - reflexivity.
Defined.

(** ** index.ts: a live run from end to end *)
Module LiveRunFacts.
Import Index.

Lemma relocated_ids (w : StorageUploader.World) (newTracks outs : list TrackRecord) :
  Forall2 (relocated w) newTracks outs → map id outs = map id newTracks.
Proof.
  induction 1 as [|t out l l' (a & b & -> & _) _ IH]; [done|]. cbn. by rewrite IH.
Qed.

Section WithWorld.
Variables (validateTrack : TrackRecord → bool) (w : World) (DRY_RUN : option string).
Hypothesis Hlive : DRY_RUN ≠ Some "1".
Hypothesis Hinit : initError w = None.
Hypothesis Hget : ∀ k, getAllError w k = None.
Hypothesis Hcommit : ∀ k, commitError w k = None.

(** The upload stage and the write stage of a live run, one after the
    other. *)
Lemma upload_then_write (newTracks : list TrackRecord) (σ1 : Backend) :
  ∃ outs σ2 tU σ3 tW,
    uploadStage w false (Some (mkBucket STORAGE_BUCKET)) newTracks σ1 = (Ok outs, σ2, tU)
    ∧ writeStage w false (Some FirestoreClient) outs σ2 = (Ok tt, σ3, tW)
    ∧ map id outs = map id newTracks
    ∧ tracks σ2 = tracks σ1 ∧ importState σ2 = importState σ1
    ∧ tracks σ3 = foldl (λ m t, <[id t := t]> m) (tracks σ2) outs
    ∧ importState σ3 = importState σ2.
Proof.
  unfold uploadStage, writeStage.
  destruct (decide (newTracks = [])) as [->|Hne].
  { exists [], σ1, [], σ1, []. by repeat split. }
  assert (Hpos : 0 < length newTracks) by (destruct newTracks; [done|cbn; lia]).
  destruct (UploaderFacts.uploadAllTrackAssets_run (uploader w) (mkBucket STORAGE_BUCKET)
              newTracks σ1) as (outs & σ2 & tU & Hup & Houts).
  destruct (UploaderFacts.uploadOnly_uploadAllTrackAssets (uploader w)
              (mkBucket STORAGE_BUCKET) newTracks σ1) as (Htracks & Hstate & _).
  rewrite Hup in Htracks, Hstate. cbn [fst snd] in Htracks, Hstate.
  pose proof (relocated_ids _ _ _ Houts) as Hids.
  assert (Hlen : 0 < length outs).
  { apply (f_equal length) in Hids. rewrite !length_map in Hids.
    destruct newTracks; [done|cbn in Hids; lia]. }
  destruct (WriterFacts.writeChunks_state w (chunks BATCH_SIZE outs) 0 (length outs) σ2
              Hcommit) as (σ3 & tW & Hwrite & _ & Hwritten & Hstate3 & _).
  rewrite chunks_concat in Hwritten by (cbv; lia).
  exists outs, σ2, tU, σ3, tW.
  rewrite (bool_decide_true (0 < length newTracks)) by done.
  rewrite (bool_decide_true (0 < length outs)) by done. cbn [batchWriteTracks].
  by repeat split.
Qed.

(** A live run in which nothing is refused. *)
Lemma main_live (sources : list (option Firestore → M SourceResult)) (σ : Backend) :
  let fetched := settleAll (map (λ fetchSource, fetchSource (Some FirestoreClient)) sources) σ in
  let allTracks := Observed.validTracks validateTrack fetched.1.1 in
  ∃ existingIds outs σ3 t,
    main validateTrack w DRY_RUN sources σ = (Ok tt, σ3, t)
    ∧ (∀ x, x ∈ existingIds ↔ x ∈ map id allTracks ∧ is_Some (tracks fetched.1.2 !! x))
    ∧ map id outs = map id (filterNew existingIds allTracks)
    ∧ tracks σ3 = foldl (λ m t, <[id t := t]> m) (tracks fetched.1.2) outs
    ∧ importState σ3 = importState fetched.1.2.
Proof.
  intros fetched allTracks. subst allTracks fetched.
  destruct (settleAll (map (λ fetchSource, fetchSource (Some FirestoreClient)) sources) σ)
    as [[results σ1] t0] eqn:Hfetched.
  cbn [fst snd]. set (allTracks := Observed.validTracks validateTrack results).
  unfold main, initFirebaseAdmin. rewrite bool_decide_false by done. rewrite Hinit.
  rewrite (run_bind_ok _ _ _ tt _ [_] eq_refl).
  rewrite (run_bind_ok _ _ _ (Some (mkServices FirestoreClient (mkBucket STORAGE_BUCKET)))
             _ [] eq_refl).
  rewrite (run_bind_ok _ _ _ tt _ [_] eq_refl).
  cbn [fmap option_fmap option_map db bucket].
  rewrite (run_bind_ok (allSettled _) _ _ results σ1 t0)
    by (unfold allSettled; by rewrite Hfetched).
  destruct (IndexFacts.collectResults_run validateTrack results [] [] σ1) as (t1 & Hcollect & _).
  rewrite (run_bind_ok _ _ _ _ _ _ Hcollect). cbn [app]. fold allTracks.
  rewrite (run_bind_ok _ _ _ tt _ [_] eq_refl).
  destruct (IndexFacts.checkChunks_run w (chunks CHUNK (map id allTracks)) 0 ∅ σ1 Hget)
    as (found & Hcheck & Hfound).
  rewrite (run_bind_ok _ _ _ _ _ _ Hcheck).
  rewrite (run_bind_ok _ _ _ tt _ [_] eq_refl).
  destruct (upload_then_write (filterNew found allTracks) σ1)
    as (outs & σ2 & tU & σ3 & tW & Hup & Hwrite & Hids & Htracks2 & Hstate2 & Htracks3 & Hstate3).
  rewrite (run_bind_ok _ _ _ _ _ _ Hup).
  rewrite (run_bind_ok _ _ _ _ _ _ Hwrite).
  rewrite (run_bind_ok _ _ _ tt _ [_] eq_refl).
  mrun. rewrite IndexFacts.forEach_emit. mrun.
  exists found, outs, σ3. eexists. split; [reflexivity|].
  split.
  { intros x. rewrite Hfound, chunks_concat by (cbv; lia). split; [|by right].
    intros [Hx|?]; [|done]. by apply not_elem_of_empty in Hx. }
  split; [done|]. split; [by rewrite Htracks3, Htracks2|congruence].
Qed.
End WithWorld.
End LiveRunFacts.

(** X28: a live run in which nothing is refused.  [main] completes; once it
    has, every valid record the adapters delivered has a document in the
    catalog under its id; a document that was in the catalog when the
    adapters returned has not been touched, so that the run never overwrites
    a known track; and no document has appeared under an id the adapters did
    not deliver. *)
Theorem X28_live_run_ingests (validateTrack : TrackRecord → bool) (w : Index.World)
    (DRY_RUN : option string) (sources : list (option Firestore → M SourceResult))
    (σ : Backend) :
  DRY_RUN ≠ Some "1" → Index.initError w = None →
  (∀ k, Index.getAllError w k = None) → (∀ k, Index.commitError w k = None) →
  let fetched := settleAll (map (λ fetchSource, fetchSource (Some FirestoreClient)) sources) σ in
  let allTracks := validTracks validateTrack fetched.1.1 in
  let run := Index.main validateTrack w DRY_RUN sources σ in
  valueOf run = Ok tt
  ∧ (∀ t, t ∈ allTracks → is_Some (tracks (backendOf run) !! id t))
  ∧ (∀ x, is_Some (tracks fetched.1.2 !! x) →
       tracks (backendOf run) !! x = tracks fetched.1.2 !! x)
  ∧ (∀ x, x ∉ map id allTracks → tracks (backendOf run) !! x = tracks fetched.1.2 !! x)
  ∧ importState (backendOf run) = importState fetched.1.2.
Proof.
  intros Hlive Hinit Hget Hcommit fetched allTracks run.
  destruct (LiveRunFacts.main_live validateTrack w DRY_RUN Hlive Hinit Hget Hcommit sources σ)
    as (existingIds & outs & σ3 & t & Hrun & Hexisting & Hids & Htracks & Hstate).
  fold fetched in Hexisting, Htracks, Hstate. fold allTracks in Hexisting, Hids.
  assert (Hnew : ∀ x, x ∈ map id outs → x ∈ map id allTracks ∧ tracks fetched.1.2 !! x = None).
  { intros x Hx. rewrite Hids in Hx. apply list_elem_of_fmap in Hx as (t0 & -> & Ht0).
    apply list_elem_of_filter in Ht0 as [Hnot Hin].
    split; [apply list_elem_of_fmap; by exists t0|].
    destruct (tracks fetched.1.2 !! id t0) eqn:Hlook; [|done].
    exfalso. apply Hnot, Hexisting. split; [apply list_elem_of_fmap; by exists t0|by eexists]. }
  assert (Hkeep : ∀ x, x ∉ map id outs → tracks σ3 !! x = tracks fetched.1.2 !! x).
  { intros x Hx. rewrite Htracks, WriterFacts.foldl_insert_lookup.
    rewrite WriterFacts.filter_none; [done|].
    apply Forall_forall. intros t0 Hin Heq. apply Hx. apply list_elem_of_fmap. by exists t0. }
  unfold run. rewrite Hrun. cbn [valueOf backendOf fst snd].
  split; [done|]. split; [|split; [|split; [|done]]].
  - intros t0 Hin. destruct (decide (id t0 ∈ map id outs)) as [Hout|Hout].
    + apply list_elem_of_fmap in Hout as (out & Hid & Hout).
      rewrite Htracks, WriterFacts.foldl_insert_lookup.
      assert (Hfil : out ∈ filter (λ t, id t = id t0) outs) by by apply list_elem_of_filter.
      destruct (filter (λ t, id t = id t0) outs) as [|a l] using rev_ind.
      * by apply elem_of_nil in Hfil.
      * rewrite last_snoc. by eexists.
    + rewrite Hkeep by done.
      destruct (decide (id t0 ∈ existingIds)) as [Hex|Hex]; [by apply Hexisting in Hex as [_ ?]|].
      exfalso. apply Hout. rewrite Hids. apply list_elem_of_fmap. exists t0. split; [done|].
      by apply list_elem_of_filter.
  - intros x Hsome. apply Hkeep. intros Hx. apply Hnew in Hx as [_ Hnone].
    rewrite Hnone in Hsome. by destruct Hsome.
  - intros x Hx. apply Hkeep. intros Hx'. by apply Hnew in Hx' as [? _].
Qed.

Lemma X28_live_run_ingests_witness :
  let w := Sample.world Sample.unreachableStore in
  let sources := [CCMixter.fetchCCMixter (λ t, t) Sample.scenario] in
  let fetched :=
    settleAll (map (λ fetchSource, fetchSource (Some FirestoreClient)) sources)
      Sample.catalog in
  let allTracks := validTracks Utils.validateTrack fetched.1.1 in
  let run := Index.main Utils.validateTrack w None sources Sample.catalog in
  valueOf run = Ok tt
  ∧ (∀ t, t ∈ allTracks → is_Some (tracks (backendOf run) !! id t))
  ∧ (∀ x, is_Some (tracks fetched.1.2 !! x) →
       tracks (backendOf run) !! x = tracks fetched.1.2 !! x)
  ∧ (∀ x, x ∉ map id allTracks → tracks (backendOf run) !! x = tracks fetched.1.2 !! x)
  ∧ importState (backendOf run) = importState fetched.1.2.
Proof.
  apply (X28_live_run_ingests Utils.validateTrack (Sample.world Sample.unreachableStore) None
           [CCMixter.fetchCCMixter (λ t, t) Sample.scenario] Sample.catalog).
  - discriminate.
  - reflexivity.
  - reflexivity.
  - reflexivity.
Defined.

(** ** migrate-gs-urls.ts: the pagination loop *)
Module ScanFacts.
Import Migrate MigrateMain Counters.

Lemma after_Some (l k : string) : after (Some l) k = true ↔ ¬ String.le k l.
Proof. cbn. by rewrite negb_true_iff, bool_decide_eq_false. Qed.

Lemma after_trans (lastDoc : option string) (l' k : string) :
  after lastDoc l' = true → after (Some l') k = true → after lastDoc k = true.
Proof.
  destruct lastDoc as [l|]; [|done]. cbn.
  rewrite !negb_true_iff, !bool_decide_eq_false. intros Hl' Hk Hkl.
  destruct (base.total String.le k l') as [?|Hle]; [done|].
  apply Hl'. by etrans.
Qed.

Lemma StronglySorted_filter {A} (R : relation A) (P : A → Prop) `{!∀ x, Decision (P x)}
    (l : list A) :
  StronglySorted R l → StronglySorted R (filter P l).
Proof.
  induction 1 as [|x l Hl IH Hx]; [constructor|].
  destruct (decide (P x)).
  - rewrite filter_cons_True by done. constructor; [done|].
    apply Forall_forall. intros y Hy%list_elem_of_filter.
    rewrite Forall_forall in Hx. apply Hx, Hy.
  - by rewrite filter_cons_False.
Qed.

(** In a sorted list without repetition, the elements after the last one of
    the first [n] are the elements from position [n] on. *)
Lemma after_last_take (R : list string) (n : nat) (l' : string) :
  StronglySorted String.le R → NoDup R → last (take n R) = Some l' →
  filter (λ k, after (Some l') k = true) R = drop n R.
Proof.
  intros Hsorted. revert n. induction Hsorted as [|x r Hr IH Hx]; intros n Hnd Hlast.
  { by rewrite take_nil in Hlast. }
  destruct n as [|n]; [done|]. cbn [take drop] in *.
  apply NoDup_cons in Hnd as [Hxr Hnd].
  assert (Hall : filter (λ k, after (Some x) k = true) r = r).
  { clear IH Hlast. induction r as [|y r IHr]; [done|].
    apply Forall_cons in Hx as [Hxy Hx]. apply StronglySorted_inv in Hr as [Hr Hy].
    apply NoDup_cons in Hnd as [? ?].
    rewrite filter_cons_True.
    - f_equal. apply IHr; try done. intros Hin. apply Hxr. by right.
    - apply after_Some. intros Hyx.
      apply Hxr. assert (x = y) as -> by (by apply (anti_symm String.le)). left. }
  destruct (take n r) as [|y p] eqn:Htake.
  - cbn in Hlast. injection Hlast as <-.
    rewrite filter_cons_False by (rewrite after_Some; by intros []).
    rewrite Hall. destruct n as [|n]; [done|]. destruct r; [done|discriminate Htake].
  - assert (Hlast' : last (take n r) = Some l') by (rewrite Htake; by destruct p).
    assert (Hin : l' ∈ r).
    { apply last_Some in Hlast' as [p' Hp']. apply (subseteq_take n).
      rewrite Hp'. apply elem_of_app. right. by left. }
    rewrite filter_cons_False.
    + by apply IH.
    + rewrite after_Some. intros Hnot. apply Hnot.
      rewrite Forall_forall in Hx. by apply Hx.
Qed.

Lemma sortedIds_sorted (σ : Backend) : StronglySorted String.le (sortedIds σ).
Proof. apply StronglySorted_merge_sort; apply _. Qed.

Lemma sortedIds_NoDup (σ : Backend) : NoDup (sortedIds σ).
Proof.
  unfold sortedIds. rewrite merge_sort_Permutation. apply NoDup_elements.
Qed.

Lemma sortedIds_stored (σ : Backend) (k : string) :
  k ∈ sortedIds σ ↔ is_Some (tracks σ !! k).
Proof.
  unfold sortedIds. rewrite merge_sort_Permutation, elem_of_elements. apply elem_of_dom.
Qed.

Lemma sortedIds_length (σ : Backend) : length (sortedIds σ) = size (tracks σ).
Proof.
  unfold sortedIds. rewrite merge_sort_Permutation.
  change (length (elements (dom (tracks σ)))) with (size (dom (tracks σ))).
  apply size_dom.
Qed.

(** The ids of the documents of a snapshot are the ids asked for. *)
Lemma snapshot_ids (m : gmap string TrackRecord) (ks : list string) :
  Forall (λ k, is_Some (m !! k)) ks →
  map fst (omap (λ docId, pair docId <$> m !! docId) ks) = ks.
Proof.
  induction 1 as [|k ks [v Hv] _ IH]; [done|]. cbn. rewrite Hv. cbn. by rewrite IH.
Qed.

Lemma snapshotDocs_ids (lastDoc : option string) (σ : Backend) :
  map fst (snapshotDocs lastDoc σ)
  = take PAGE_SIZE (filter (λ docId, after lastDoc docId = true) (sortedIds σ)).
Proof.
  apply snapshot_ids, Forall_forall. intros k Hk%subseteq_take%list_elem_of_filter.
  apply sortedIds_stored, Hk.
Qed.

(** The documents after the last one of a page are the documents after the
    page. *)
Lemma next_page (lastDoc : option string) (σ : Backend) (l' : string) :
  let R := filter (λ docId, after lastDoc docId = true) (sortedIds σ) in
  last (take PAGE_SIZE R) = Some l' →
  filter (λ docId, after (Some l') docId = true) (sortedIds σ) = drop PAGE_SIZE R.
Proof.
  intros R Hlast.
  assert (Hin : after lastDoc l' = true).
  { apply last_Some in Hlast as [p' Hp'].
    assert (l' ∈ take PAGE_SIZE R) as Hl'%subseteq_take%list_elem_of_filter
      by (rewrite Hp'; apply elem_of_app; right; by left).
    apply Hl'. }
  rewrite <- (after_last_take R PAGE_SIZE l'); try done.
  - unfold R. rewrite list_filter_filter. apply list_filter_iff. intros k. split.
    + intros Hk. split; [done|]. by apply (after_trans _ l').
    + by intros [? ?].
  - apply StronglySorted_filter, sortedIds_sorted.
  - apply NoDup_filter, sortedIds_NoDup.
Qed.

Section WithWorld.
Variables (w : World) (bucket : Bucket).

(** The callback leaves the set of documents as it is. *)
Lemma processDoc_dom (isDryRun : bool) (docId : string) (data : TrackRecord)
    (stats : MigrationStats) (σ : Backend) :
  dom (tracks (backendOf (processDoc (storage w) isDryRun bucket (docId, data) stats σ)))
  = dom (tracks σ).
Proof.
  destruct (ConversionFacts.gsToHttps_frame (storage w) bucket (artwork data) σ)
    as (ra & σa & ta & Hra & Hta & _).
  destruct (ConversionFacts.gsToHttps_frame (storage w) bucket (audioUrl data)
              (if startsWith (artwork data) "gs://" then σa else σ))
    as (rb & σb & tb & Hrb & Htb & _).
  unfold processDoc. rewrite !MigrateFacts.orElse_empty.
  destruct (startsWith (artwork data) "gs://"), (startsWith (audioUrl data) "gs://"),
    isDryRun; cbn [negb andb orb]; cbv iota in Hrb, Htb.
  all: mrun; rewrite ?Hra; mrun.
  all: try (destruct (converted ra) as [urlA|]); mrun; rewrite ?Hrb; mrun.
  all: try (destruct (converted rb) as [urlB|]); mrun.
  all: unfold update, sdk; mrun.
  all: try (destruct (updateError (storage w) docId)); mrun.
  all: try match goal with
           | |- context [tracks ?s !! ?d] => destruct (tracks s !! d) eqn:Hlook
           end; mrun.
  all: try case_bool_decide; mrun.
  all: cbn [backendOf fst snd tracks setTracks].
  all: rewrite ?dom_insert_lookup_L by (by eexists).
  all: congruence.
Qed.

Lemma processChunk_dom (isDryRun : bool) (chunk : list (string * TrackRecord))
    (stats : MigrationStats) (σ : Backend) :
  dom (tracks (backendOf (processChunk (storage w) isDryRun bucket chunk stats σ)))
  = dom (tracks σ).
Proof.
  revert stats σ. induction chunk as [|[docId data] chunk IH]; intros stats σ; [done|].
  cbn [processChunk]. rewrite run_bind.
  pose proof (processDoc_dom isDryRun docId data stats σ) as Hdoc.
  destruct (CounterFacts.processDoc_outcome (storage w) bucket isDryRun docId data stats σ)
    as (stats1 & σ1 & t1 & Hrun & _).
  rewrite Hrun in Hdoc |- *. cbn [backendOf fst snd] in Hdoc.
  specialize (IH stats1 σ1).
  destruct (processChunk (storage w) isDryRun bucket chunk stats1 σ1) as [[r σ2] t2].
  cbn [backendOf fst snd] in *. congruence.
Qed.

Lemma processPage_dom (isDryRun : bool) (limitCount : Limit)
    (docs : list (string * TrackRecord)) (stats : MigrationStats) (σ : Backend) :
  dom (tracks (backendOf (processPage (storage w) isDryRun limitCount bucket docs stats σ)))
  = dom (tracks σ).
Proof.
  unfold processPage. generalize (chunks CONCURRENCY docs). intros cs.
  revert stats σ. induction cs as [|chunk cs IH]; intros stats σ; [done|].
  cbn [processChunks]. destruct (below (total stats) limitCount); [|done].
  rewrite run_bind.
  pose proof (processChunk_dom isDryRun chunk stats σ) as Hchunk.
  destruct (CounterFacts.processChunk_outcome (storage w) bucket isDryRun chunk stats σ)
    as (stats1 & σ1 & t1 & Hrun & _).
  rewrite Hrun in Hchunk |- *. cbn [backendOf fst snd] in Hchunk.
  specialize (IH stats1 σ1).
  destruct (processChunks (storage w) isDryRun limitCount bucket cs stats1 σ1) as [[r σ2] t2].
  cbn [backendOf fst snd] in *. congruence.
Qed.

(** The pagination loop with more fuel than documents left: it does not run
    out of fuel, it keeps the set of documents, and without a limit and
    without a refused query it scans every document left, once. *)
Lemma scan_run (fuel : nat) (isDryRun : bool) (limitCount : Limit)
    (lastDoc : option string) (page : nat) (stats : MigrationStats) (σ : Backend) :
  let left := filter (λ docId, after lastDoc docId = true) (sortedIds σ) in
  length left < fuel →
  ∃ r σ' t,
    scan w fuel isDryRun limitCount bucket lastDoc page stats σ = (r, σ', t)
    ∧ dom (tracks σ') = dom (tracks σ)
    ∧ r ≠ Ok None
    ∧ ((∀ p, queryError w p = None) → limitCount = Infinity →
       ∃ stats', r = Ok (Some stats') ∧ total stats' = total stats + length left).
Proof.
  revert lastDoc page stats σ.
  induction fuel as [|fuel IH]; intros lastDoc page stats σ left Hfuel; [lia|].
  cbn [scan]. destruct (below (total stats) limitCount) eqn:Hbelow.
  2: { eexists _, _, _. split; [done|]. split; [done|]. split; [done|].
       intros _ ->. done. }
  rewrite run_bind. unfold get.
  destruct (queryError w page) as [e|] eqn:Hquery.
  { eexists _, _, _. split; [done|]. split; [done|]. split; [done|].
    intros Hok. by rewrite Hok in Hquery. }
  mrun. pose proof (snapshotDocs_ids lastDoc σ) as Hids. fold left in Hids.
  destruct (snapshotDocs lastDoc σ) as [|doc docs] eqn:Hdocs.
  { eexists _, _, _. split; [done|]. split; [done|]. split; [done|].
    intros _ _. eexists. split; [done|].
    cbn in Hids. symmetry in Hids. apply take_nil_inv in Hids as [Hn|Hl]; [done|].
    rewrite Hl. cbn. lia. }
  cbv iota.
  pose proof (processPage_dom isDryRun limitCount (doc :: docs) stats σ) as Hdom.
  destruct (CounterFacts.processChunks_outcome (storage w) bucket isDryRun limitCount
              (chunks CONCURRENCY (doc :: docs)) stats σ)
    as (stats1 & σ1 & t1 & k & Hrun & _ & Hk & Htot & _ & Hleft & _).
  unfold processPage in Hdom |- *. rewrite Hrun in Hdom |- *. cbn [backendOf fst snd] in Hdom.
  assert (Hlast : last (take PAGE_SIZE left) = fst <$> last (doc :: docs)).
  { rewrite <- Hids. apply (fmap_last fst). }
  destruct (last (doc :: docs)) as [[l' v']|] eqn:Hl'; [|by apply last_None in Hl'].
  cbn [fmap option_fmap option_map fst] in *.
  assert (Hsame : sortedIds σ1 = sortedIds σ) by (unfold sortedIds; by rewrite Hdom).
  pose proof (next_page lastDoc σ l' Hlast) as Hnext. fold left in Hnext.
  assert (Hpage : 0 < length (take PAGE_SIZE left)).
  { rewrite <- Hids. cbn. lia. }
  rewrite length_take in Hpage.
  destruct (IH (Some l') (page + 1) stats1 σ1) as (r & σ2 & t2 & Hscan & Hdom2 & Hr & Hall).
  { rewrite Hsame, Hnext, length_drop. lia. }
  rewrite Hscan. eexists _, _, _. split; [done|]. split; [congruence|]. split; [done|].
  intros Hok ->. destruct (Hall Hok eq_refl) as (stats2 & -> & Htot2).
  exists stats2. split; [done|]. rewrite Htot2, Hsame, Hnext, length_drop.
  destruct (decide (k < length (chunks CONCURRENCY (doc :: docs)))) as [Hlt|Hge].
  { by specialize (Hleft Hlt). }
  rewrite take_ge in Htot by lia. rewrite chunks_concat in Htot by (cbv; lia).
  rewrite Htot. apply (f_equal length) in Hids. rewrite length_map, length_take in Hids.
  rewrite Hids. lia.
Qed.
End WithWorld.
End ScanFacts.

(** X29: a live run of the migration without a limit, when the initialisation
    and the queries are not refused.  [main] completes; it has scanned every
    document of the collection once, the pages taken in the order of the
    document ids, so that its summary reports as many scanned documents as the
    collection holds; and it has added and removed no document.  Whatever the
    limit and the mode, the loop needs no more pages than there are documents,
    plus one. *)
Theorem X29_migration_scans_every_document (w : MigrateMain.World)
    (DRY_RUN : option string) (σ : Backend) :
  DRY_RUN ≠ Some "1" → MigrateMain.initError w = None →
  (∀ page, MigrateMain.queryError w page = None) →
  let run := MigrateMain.main w DRY_RUN Migrate.Infinity σ in
  valueOf run = Ok tt
  ∧ dom (tracks (backendOf run)) = dom (tracks σ)
  ∧ EvLog "migrate" ("  Total scanned: " +:+ pretty (size (tracks σ))) ∈ traceOf run
  ∧ ∀ isDryRun limitCount bucket,
      valueOf (MigrateMain.scan w (S (size (tracks σ))) isDryRun limitCount bucket None 0
                 (Migrate.mkStats 0 0 0 0 []) σ) ≠ Ok None.
Proof.
  intros Hlive Hinit Hquery run.
  assert (Hleft : filter (λ docId, MigrateMain.after None docId = true)
                    (MigrateMain.sortedIds σ) = MigrateMain.sortedIds σ).
  { generalize (MigrateMain.sortedIds σ). intros l. induction l as [|k l IH]; [done|].
    rewrite filter_cons_True by done. by rewrite IH. }
  assert (Hfuel : length (filter (λ docId, MigrateMain.after None docId = true)
                            (MigrateMain.sortedIds σ)) < S (size (tracks σ))).
  { rewrite Hleft, ScanFacts.sortedIds_length. lia. }
  split; [|split; [|split]].
  4: { intros isDryRun limitCount bucket.
       destruct (ScanFacts.scan_run w bucket (S (size (tracks σ))) isDryRun limitCount None 0
                   (Migrate.mkStats 0 0 0 0 []) σ Hfuel) as (r & σ' & t & Hscan & _ & Hr & _).
       by rewrite Hscan. }
  all: destruct (ScanFacts.scan_run w (mkBucket Index.STORAGE_BUCKET) (S (size (tracks σ)))
                   false Migrate.Infinity None 0 (Migrate.mkStats 0 0 0 0 []) σ Hfuel)
         as (r & σ' & t & Hscan & Hdom & _ & Hall).
  all: destruct (Hall Hquery eq_refl) as (stats' & -> & Htotal).
  all: rewrite Hleft, ScanFacts.sortedIds_length in Htotal. all: cbn in Htotal.
  all: unfold run, MigrateMain.main, MigrateMain.initFirebaseAdmin, MigrateMain.summary.
  all: rewrite bool_decide_false by done; rewrite Hinit.
  all: mrun; rewrite Hscan; mrun.
  all: destruct (bool_decide (0 < length (Migrate.failedIds stats'))); mrun.
  all: cbn [valueOf backendOf traceOf fst snd]; try done.
  all: rewrite Htotal, ?elem_of_cons, ?elem_of_app, ?elem_of_cons; auto 10.
Qed.

Lemma X29_migration_scans_every_document_witness :
  let w := MigrateMain.mkWorld Sample.storage None (λ _, None) "0.1" in
  let run := MigrateMain.main w None Migrate.Infinity Sample.legacyBackend in
  valueOf run = Ok tt
  ∧ dom (tracks (backendOf run)) = dom (tracks Sample.legacyBackend)
  ∧ EvLog "migrate" ("  Total scanned: " +:+ pretty (size (tracks Sample.legacyBackend)))
    ∈ traceOf run
  ∧ ∀ isDryRun limitCount bucket,
      valueOf (MigrateMain.scan w (S (size (tracks Sample.legacyBackend))) isDryRun
                 limitCount bucket None 0 (Migrate.mkStats 0 0 0 0 []) Sample.legacyBackend)
      ≠ Ok None.
Proof.
  apply (X29_migration_scans_every_document
           (MigrateMain.mkWorld Sample.storage None (λ _, None) "0.1") None
           Sample.legacyBackend).
  - discriminate.
  - reflexivity.
  - reflexivity.
Defined.

(** The migration of the sample catalog: one document scanned and counted as
    failed, its audio file being absent from the bucket. *)
Example migrate_sample :
  logLines "migrate"
    (traceOf (MigrateMain.main (MigrateMain.mkWorld Sample.storage None (λ _, None) "0.1")
                None Migrate.Infinity Sample.legacyBackend))
  = ["=== OpenTune gs:// to HTTPS Migration ===";
     "Mode: LIVE";
     "File not found in Storage: imports/jamendo/jamendo-5.mp3";
     "=== Migration Summary ===";
     "  Total scanned: 1";
     "  Migrated: 0";
     "  Skipped (already HTTPS): 0";
     "  Failed: 1";
     "  Completed in 0.1s";
     "  Failed IDs: jamendo-5"].
Proof. vm_compute. reflexivity. Qed.

(** X30: with [DRY_RUN=1] the migration stops before its first query.
    [initFirebaseAdmin] hands [main] empty objects in place of the database
    and bucket handles, the call of [collection] on the empty object throws,
    and [main] rejects with that error after its opening log lines: no
    document is read, no storage call is made, nothing is updated and the
    backend is as it was, whatever the limit. *)
Theorem X30_migration_dry_run_rejects (w : MigrateMain.World) (limitCount : Migrate.Limit)
    (σ : Backend) :
  let run := MigrateMain.main w (Some "1") limitCount σ in
  MigrateMain.initFirebaseAdmin w (Some "1") σ = (Ok MigrateMain.Mocks, σ, [])
  ∧ valueOf run = Throw "TypeError: db.collection is not a function"
  ∧ backendOf run = σ
  ∧ Forall logged (traceOf run)
  ∧ EvLog "migrate" "Mode: DRY RUN" ∈ traceOf run
  ∧ EvLog "migrate" "=== Migration Summary ===" ∉ traceOf run.
Proof.
  intros run. split; [done|]. unfold run, MigrateMain.main, MigrateMain.initFirebaseAdmin.
  rewrite bool_decide_true by done.
  destruct limitCount; mrun; cbn [valueOf backendOf traceOf fst snd].
  all: split; [done|]; split; [done|]; split; [by repeat constructor|].
  all: split; [rewrite !elem_of_cons; auto|].
  all: rewrite !elem_of_cons, elem_of_nil; intros H; repeat destruct H as [H|H]; done.
Qed.
